(** * LudoCloud: the booking admission-control engine

    A shallow embedding of the backend services that decide whether a
    table reservation may be created or cancelled
    ([bookings/booking-rules.ts], [bookings/bookings.service.ts],
    [tables/tables.service.ts], [games/games.service.ts]) together with
    the part of the PostgreSQL schema they rely on
    ([prisma/migrations/20260213110000_init/migration.sql]).

    Instants are [Date.getTime()] values: milliseconds since the epoch, in
    [Z].  Identifiers are UUIDs in the source; here they are [positive]
    numbers, compared by equality only.  The database is a record of
    tables keyed by primary key; a Prisma call is a computation over that
    record which may throw. *)

From Stdlib Require Import ZArith Lia Bool List.
From stdpp Require Import gmap list fin_maps.
From stdpp Require Import sorting.

Local Open Scope Z_scope.

(** ** Enumerations of the schema *)

Inductive UserRole := ADMIN | STAFF | MEMBER.
Inductive BookingStatus := PENDING | CONFIRMED | CANCELLED | COMPLETED.

Global Instance UserRole_eq_dec : EqDecision UserRole.
Proof. solve_decision. Defined.
Global Instance BookingStatus_eq_dec : EqDecision BookingStatus.
Proof. solve_decision. Defined.

Abbreviation uuid := positive.

(** ** Rows *)

Record AuthUser := { userId : uuid; role : UserRole }.

(** [members]: the primary key is the map key. *)
Record Member := { member_userId : uuid }.

(** [tables]. *)
Record TableEntity := {
  table_code : uuid;
  capacity : Z;
  table_isActive : bool
}.

(** [board_games]; the catalogue columns (title, category, player range,
    age, duration) take no part in any stock computation and are left
    out. *)
Record BoardGame := {
  stockTotal : Z;
  stockAvailable : Z;
  game_isActive : bool
}.

(** [bookings]. *)
Record Booking := {
  memberId : uuid;
  tableId : uuid;
  startAt : Z;
  endAt : Z;
  peopleCount : Z;
  status : BookingStatus;
  createdBy : uuid
}.

(** [booking_games]: primary key ([bookingId], [boardGameId]). *)
Record BookingGame := {
  bookingId : uuid;
  boardGameId : uuid;
  quantity : Z
}.

Inductive AuditAction :=
  BOOKING_CREATE | BOOKING_CANCEL | GAME_CREATE | GAME_UPDATE.

Record AuditLog := {
  actorUserId : uuid;
  action : AuditAction;
  entityId : uuid
}.

Record Store := {
  tables : gmap uuid TableEntity;
  members : gmap uuid Member;
  boardGames : gmap uuid BoardGame;
  bookings : gmap uuid Booking;
  bookingGames : list BookingGame;
  auditLogs : list AuditLog
}.

Definition set_boardGames (g : gmap uuid BoardGame) (s : Store) : Store :=
  {| tables := tables s; members := members s; boardGames := g;
     bookings := bookings s; bookingGames := bookingGames s;
     auditLogs := auditLogs s |}.

Definition set_bookings (b : gmap uuid Booking) (s : Store) : Store :=
  {| tables := tables s; members := members s; boardGames := boardGames s;
     bookings := b; bookingGames := bookingGames s;
     auditLogs := auditLogs s |}.

Definition set_bookingGames (h : list BookingGame) (s : Store) : Store :=
  {| tables := tables s; members := members s; boardGames := boardGames s;
     bookings := bookings s; bookingGames := h;
     auditLogs := auditLogs s |}.

Definition set_auditLogs (a : list AuditLog) (s : Store) : Store :=
  {| tables := tables s; members := members s; boardGames := boardGames s;
     bookings := bookings s; bookingGames := bookingGames s;
     auditLogs := a |}.

Definition set_status (st : BookingStatus) (b : Booking) : Booking :=
  {| memberId := memberId b; tableId := tableId b; startAt := startAt b;
     endAt := endAt b; peopleCount := peopleCount b; status := st;
     createdBy := createdBy b |}.

Definition set_stockAvailable (v : Z) (g : BoardGame) : BoardGame :=
  {| stockTotal := stockTotal g; stockAvailable := v;
     game_isActive := game_isActive g |}.

(** ** Exceptions

    The HTTP exceptions thrown by the services, with the message each
    carries, and the faults a Prisma call raises when the database rejects
    a statement. *)

Inductive Msg :=
  | MsgValidation              (* ValidationPipe rejected the DTO *)
  | MsgInvalidDates            (* 'Date non valide' *)
  | MsgSlotDuration            (* 'La prenotazione deve durare N minuti' *)
  | MsgOpeningHours            (* 'Le prenotazioni sono consentite tra ...' *)
  | MsgNotFuture               (* 'La prenotazione deve essere nel futuro' *)
  | MsgProfileMissing          (* 'Profilo iscritto non configurato' *)
  | MsgMemberMismatch          (* 'memberId non coerente con utente autenticato' *)
  | MsgMemberIdRequired        (* 'memberId obbligatorio per staff/admin' *)
  | MsgMemberNotFound          (* 'Iscritto non trovato' *)
  | MsgTableUnavailable        (* 'Tavolo non disponibile' *)
  | MsgCapacity                (* 'Numero persone superiore alla capienza del tavolo' *)
  | MsgQuota                   (* 'Ogni iscritto puo avere massimo N prenotazioni future attive' *)
  | MsgGamesUnavailable        (* 'Uno o piu giochi selezionati non sono disponibili' *)
  | MsgInsufficientStock       (* 'Disponibilita insufficiente per il gioco T' *)
  | MsgTableAlreadyBooked      (* 'Tavolo gia prenotato nello slot richiesto' *)
  | MsgStockChanged            (* 'Disponibilita giochi variata, riprovare' *)
  | MsgBookingNotFound         (* 'Prenotazione non trovata' *)
  | MsgNotOwner                (* 'Non puoi cancellare prenotazioni di altri utenti' *)
  | MsgAlreadyCancelled        (* 'Prenotazione gia cancellata' *)
  | MsgCancellationWindow      (* 'La cancellazione e consentita fino a N ore prima' *)
  | MsgStockExceedsTotal       (* 'stockAvailable non puo superare stockTotal' *)
  | MsgGameNotFound            (* 'Gioco non trovato' *)
  | MsgBadInterval             (* 'Intervallo orario non valido' *)
  | MsgInsufficientRole.       (* 'Permessi insufficienti' *)

Inductive DbFault :=
  | UniqueViolation            (* primary key already present *)
  | CheckViolation             (* bookings_valid_interval *)
  | ExclusionViolation         (* bookings_no_overlap_per_table *)
  | ForeignKeyViolation
  | RecordNotFound.            (* update / findUniqueOrThrow on a missing row *)

Inductive Exception :=
  | BadRequestException (m : Msg)
  | ForbiddenException (m : Msg)
  | NotFoundException (m : Msg)
  | ConflictException (m : Msg)
  | PrismaError (f : DbFault).

Global Instance Msg_eq_dec : EqDecision Msg.
Proof. solve_decision. Defined.
Global Instance DbFault_eq_dec : EqDecision DbFault.
Proof. solve_decision. Defined.
Global Instance Exception_eq_dec : EqDecision Exception.
Proof. solve_decision. Defined.

(** ** The Prisma monad

    A computation reads and writes the store and may throw.  Beside the
    store it carries the list of database calls issued so far, most recent
    last; the list is never read by the code. *)

Inductive Query :=
  | MemberFindFirst | MemberFindUnique
  | TableFindUnique | TableFindMany
  | BookingCount | BookingFindUnique | BookingFindMany
  | BookingCreate | BookingUpdate
  | BoardGameFindMany | BoardGameFindUnique
  | BoardGameCreate | BoardGameUpdate | BoardGameUpdateMany
  | BookingGameCreate | AuditLogCreate.

Record World := { db : Store; issued : list Query }.

Inductive Outcome (A : Type) :=
  | Ok (a : A)
  | Throw (e : Exception).
Arguments Ok {A} a.
Arguments Throw {A} e.

Definition Prisma (A : Type) : Type := World -> Outcome A * World.

Definition ret {A} (a : A) : Prisma A := fun w => (Ok a, w).

Definition throw {A} (e : Exception) : Prisma A := fun w => (Throw e, w).

Definition bind {A B} (m : Prisma A) (k : A -> Prisma B) : Prisma B :=
  fun w =>
    match m w with
    | (Ok a, w') => k a w'
    | (Throw e, w') => (Throw e, w')
    end.

Notation "'do' x <- m ; k" := (bind m (fun x => k))
  (at level 10, x name, m at level 100, k at level 200).
Notation "'do' ' p <- m ; k" := (bind m (fun p => k))
  (at level 10, p strict pattern, m at level 100, k at level 200).
Notation "'exec' m ; k" := (bind m (fun _ => k))
  (at level 10, m at level 100, k at level 200).

(** [if (c) throw e;] *)
Definition throwIf (c : bool) (e : Exception) : Prisma unit :=
  if c then throw e else ret tt.

(** A read of the store, recorded as the call [q]. *)
Definition query {A} (q : Query) (f : Store -> A) : Prisma A :=
  fun w => (Ok (f (db w)), {| db := db w; issued := issued w ++ [q] |}).

(** A write to the store, recorded as the call [q]; [f] returns the fault
    when the database rejects the statement. *)
Definition statement {A} (q : Query) (f : Store -> DbFault + (A * Store))
  : Prisma A :=
  fun w =>
    let log := issued w ++ [q] in
    match f (db w) with
    | inl fault => (Throw (PrismaError fault), {| db := db w; issued := log |})
    | inr (a, s) => (Ok a, {| db := s; issued := log |})
    end.

(** [prisma.$transaction(async (tx) => body)]: when [body] throws, every
    write it made is rolled back and the exception propagates. *)
Definition transaction {A} (body : Prisma A) : Prisma A :=
  fun w =>
    match body w with
    | (Ok a, w') => (Ok a, w')
    | (Throw e, w') => (Throw e, {| db := db w; issued := issued w' |})
    end.

(** [for (const x of xs) { await body(x) }] *)
Fixpoint forEach {A} (xs : list A) (body : A -> Prisma unit) : Prisma unit :=
  match xs with
  | [] => ret tt
  | x :: rest => exec body x; forEach rest body
  end.

(** ** Configuration

    The getters of [BookingsService] read the process environment; the
    values are passed in as a record, as integers.  [localOffsetMs] is the
    offset of the process's local time from UTC, which [Date.toDateString]
    and [Date.setHours] use; the time zone is taken to have a fixed
    offset. *)

Record Config := {
  bookingSlotMinutes : Z;
  bookingOpenHour : Z;
  bookingCloseHour : Z;
  maxFutureActiveBookings : Z;
  cancellationHours : Z;
  localOffsetMs : Z
}.

(** ** [bookings/booking-rules.ts] *)

Definition MINUTES_IN_MS : Z := 60 * 1000.

Definition isValidSlotDuration (startAt endAt slotMinutes : Z) : bool :=
  let diff := endAt - startAt in
  diff =? slotMinutes * MINUTES_IN_MS.

Definition DAY_IN_MS : Z := 24 * 60 * MINUTES_IN_MS.
Definition HOUR_IN_MS : Z := 60 * MINUTES_IN_MS.

(** The local calendar day of an instant, as a day number:
    [a.toDateString() === b.toDateString()] iff the day numbers agree. *)
Definition localDay (off t : Z) : Z := (t + off) / DAY_IN_MS.

(** Milliseconds elapsed since local midnight. *)
Definition timeOfDay (off t : Z) : Z := (t + off) mod DAY_IN_MS.

(** [d = new Date(t); d.setHours(h, 0, 0, 0)]: local midnight of [t]'s day
    plus [h] hours. *)
Definition setHours (off t h : Z) : Z :=
  localDay off t * DAY_IN_MS - off + h * HOUR_IN_MS.

Definition isWithinOpeningHours (off startAt endAt openHour closeHour : Z)
  : bool :=
  if negb (localDay off startAt =? localDay off endAt) then false
  else
    let openAt := setHours off startAt openHour in
    let closeAt := setHours off startAt closeHour in
    (openAt <=? startAt) && (endAt <=? closeAt).

(** ** Prisma calls *)

Section Rows.
Context {A : Type}.

(** The rows of a table that satisfy a [where] clause. *)
Definition rowsWhere (p : uuid -> A -> bool) (m : gmap uuid A)
  : gmap uuid A :=
  filter (fun kv => p kv.1 kv.2 = true) m.

Definition countWhere (p : uuid -> A -> bool) (m : gmap uuid A) : Z :=
  Z.of_nat (size (rowsWhere p m)).

Definition firstWhere (p : uuid -> A -> bool) (m : gmap uuid A)
  : option (uuid * A) :=
  head (map_to_list (rowsWhere p m)).
End Rows.

Definition member_findFirst (p : uuid -> Member -> bool)
  : Prisma (option (uuid * Member)) :=
  query MemberFindFirst (fun s => firstWhere p (members s)).

Definition member_findUnique (id : uuid) : Prisma (option Member) :=
  query MemberFindUnique (fun s => members s !! id).

Definition tableEntity_findUnique (id : uuid) : Prisma (option TableEntity) :=
  query TableFindUnique (fun s => tables s !! id).

(** [findMany({ where, orderBy: { code: 'asc' } })]; the order of the
    result is not modelled. *)
Definition tableEntity_findMany (p : uuid -> TableEntity -> bool)
  : Prisma (list (uuid * TableEntity)) :=
  query TableFindMany (fun s => map_to_list (rowsWhere p (tables s))).

Definition booking_count (p : uuid -> Booking -> bool) : Prisma Z :=
  query BookingCount (fun s => countWhere p (bookings s)).

Definition booking_findMany (p : uuid -> Booking -> bool)
  : Prisma (list (uuid * Booking)) :=
  query BookingFindMany (fun s => map_to_list (rowsWhere p (bookings s))).

(** [findUnique({ where: { id }, include: { bookingGames: true } })]. *)
Definition booking_findUnique (id : uuid)
  : Prisma (option (Booking * list BookingGame)) :=
  query BookingFindUnique (fun s =>
    match bookings s !! id with
    | None => None
    | Some b =>
        Some (b, filter (fun h => bookingId h = id) (bookingGames s))
    end).

Definition booking_findUniqueOrThrow (id : uuid) : Prisma Booking :=
  statement BookingFindUnique (fun s =>
    match bookings s !! id with
    | None => inl RecordNotFound
    | Some b => inr (b, s)
    end).

(** Two rows collide for [bookings_no_overlap_per_table]: same table and
    [tstzrange(start, end, '[)')] ranges that share an instant.  Every
    stored range is non-empty by [bookings_valid_interval]. *)
Definition exclusionConflict (b : Booking) (_ : uuid) (b' : Booking) : bool :=
  bool_decide (status b' <> CANCELLED)
  && bool_decide (tableId b' = tableId b)
  && (startAt b' <? endAt b) && (startAt b <? endAt b').

(** [booking.create({ data })]: the row gets the generated key [id]; the
    statement fails on the constraints of [migration.sql]. *)
Definition booking_create (id : uuid) (row : Booking) : Prisma uuid :=
  statement BookingCreate (fun s =>
    if negb (startAt row <? endAt row) then inl CheckViolation
    else if bool_decide (is_Some (bookings s !! id)) then inl UniqueViolation
    else if negb (bool_decide (is_Some (members s !! memberId row))
                  && bool_decide (is_Some (tables s !! tableId row)))
         then inl ForeignKeyViolation
    else if bool_decide (status row <> CANCELLED)
            && (0 <? countWhere (exclusionConflict row) (bookings s))
         then inl ExclusionViolation
    else inr (id, set_bookings (<[id := row]> (bookings s)) s)).

(** [booking.update({ where: { id }, data: { status } })]. *)
Definition booking_update_status (id : uuid) (st : BookingStatus)
  : Prisma Booking :=
  statement BookingUpdate (fun s =>
    match bookings s !! id with
    | None => inl RecordNotFound
    | Some b =>
        let b' := set_status st b in
        if bool_decide (st <> CANCELLED)
           && (0 <? countWhere (exclusionConflict b')
                      (delete id (bookings s)))
        then inl ExclusionViolation
        else inr (b', set_bookings (<[id := b']> (bookings s)) s)
    end).

Definition boardGame_findUnique (id : uuid) : Prisma (option BoardGame) :=
  query BoardGameFindUnique (fun s => boardGames s !! id).

(** [boardGame.findMany({ where: { id: { in: ids }, isActive: true } })]:
    the active games among [ids], each once. *)
Definition boardGame_findMany_active (ids : list uuid)
  : Prisma (list (uuid * BoardGame)) :=
  query BoardGameFindMany (fun s =>
    map_to_list
      (rowsWhere (fun id g => bool_decide (id ∈ ids) && game_isActive g)
                 (boardGames s))).

Definition boardGame_create (id : uuid) (row : BoardGame) : Prisma uuid :=
  statement BoardGameCreate (fun s =>
    if bool_decide (is_Some (boardGames s !! id)) then inl UniqueViolation
    else inr (id, set_boardGames (<[id := row]> (boardGames s)) s)).

(** [boardGame.update({ where: { id }, data })]: [f] applies [data]. *)
Definition boardGame_update (id : uuid) (f : BoardGame -> BoardGame)
  : Prisma BoardGame :=
  statement BoardGameUpdate (fun s =>
    match boardGames s !! id with
    | None => inl RecordNotFound
    | Some g => inr (f g, set_boardGames (<[id := f g]> (boardGames s)) s)
    end).

(** [boardGame.updateMany({ where: { id, stockAvailable: { gte } },
    data: { stockAvailable: { decrement } } })]: returns the number of rows
    changed, 0 or 1 as [id] is the primary key. *)
Definition boardGame_updateMany_decrement (id : uuid) (gte decrement : Z)
  : Prisma Z :=
  statement BoardGameUpdateMany (fun s =>
    match boardGames s !! id with
    | Some g =>
        if gte <=? stockAvailable g
        then inr (1, set_boardGames
                       (<[id := set_stockAvailable
                                  (stockAvailable g - decrement) g]>
                          (boardGames s)) s)
        else inr (0, s)
    | None => inr (0, s)
    end).

Definition holdKey (h : BookingGame) : uuid * uuid :=
  (bookingId h, boardGameId h).

Definition bookingGame_create (row : BookingGame) : Prisma unit :=
  statement BookingGameCreate (fun s =>
    if bool_decide (holdKey row ∈ map holdKey (bookingGames s))
    then inl UniqueViolation
    else if negb (bool_decide (is_Some (bookings s !! bookingId row))
                  && bool_decide (is_Some (boardGames s !! boardGameId row)))
         then inl ForeignKeyViolation
    else inr (tt, set_bookingGames (bookingGames s ++ [row]) s)).

(** [AuditService.record]. *)
Definition auditService_record (actor : uuid) (a : AuditAction) (e : uuid)
  : Prisma unit :=
  statement AuditLogCreate (fun s =>
    inr (tt, set_auditLogs
               (auditLogs s ++
                  [{| actorUserId := actor; action := a; entityId := e |}])
               s)).

(** ** Request payloads

    [startAt]/[endAt] arrive as ISO-8601 strings; the payload carries the
    result of [new Date(s).getTime()], [None] standing for [NaN]. *)

Record BookingGameSelectionDto := { gameId : uuid; sel_quantity : Z }.

Record CreateBookingDto := {
  dto_memberId : option uuid;
  dto_tableId : uuid;
  dto_startAt : option Z;
  dto_endAt : option Z;
  dto_peopleCount : Z;
  dto_gameSelections : option (list BookingGameSelectionDto)
}.

Record CreateGameDto := {
  cg_stockTotal : Z;
  cg_stockAvailable : Z;
  cg_isActive : option bool
}.

Record UpdateGameDto := {
  ug_stockTotal : option Z;
  ug_stockAvailable : option Z;
  ug_isActive : option bool
}.

(** Query parameters of [GET /tables]: the outer [None] is an absent
    parameter, the inner one a string that does not parse. *)
Record TableAvailabilityQueryDto := {
  q_startAt : option (option Z);
  q_endAt : option (option Z)
}.

(** The class-validator decorators that the global [ValidationPipe]
    enforces ([@Min], [@Max]) on the fields kept here; [@IsInt] and
    [@IsUUID] hold by typing.  The payloads of the catalogue carry the stock
    fields and the active flag only. *)
Definition validCreateBookingDto (dto : CreateBookingDto) : bool :=
  (1 <=? dto_peopleCount dto) && (dto_peopleCount dto <=? 20)
  && forallb (fun sel => 1 <=? sel_quantity sel)
             (default [] (dto_gameSelections dto)).

Definition validCreateGameDto (dto : CreateGameDto) : bool :=
  (0 <=? cg_stockTotal dto) && (0 <=? cg_stockAvailable dto).

Definition validUpdateGameDto (dto : UpdateGameDto) : bool :=
  (0 <=? default 0 (ug_stockTotal dto))
  && (0 <=? default 0 (ug_stockAvailable dto)).

(** Query parameters of [GET /bookings].  [from]/[to] carry the instants
    the ISO-8601 strings stand for. *)
Record BookingsQueryDto := {
  bq_status : option BookingStatus;
  bq_from : option Z;
  bq_to : option Z;
  bq_memberId : option uuid;
  bq_tableId : option uuid
}.

(** [orderBy: { startAt: 'asc' }]. *)
Definition startsBefore (x y : uuid * Booking) : Prop :=
  startAt x.2 <= startAt y.2.

Global Instance startsBefore_dec x y : Decision (startsBefore x y).
Proof. unfold startsBefore. apply _. Defined.

(** [booking.findMany({ where, orderBy: { startAt: 'asc' } })]; the [where]
    clause may look at the member row a booking points to. *)
Definition booking_findMany_byStart (p : Store -> uuid -> Booking -> bool)
  : Prisma (list (uuid * Booking)) :=
  query BookingFindMany (fun s =>
    merge_sort startsBefore (map_to_list (rowsWhere (p s) (bookings s)))).

(** ** [Map<string, number>]: insertion-ordered, one entry per key *)

Definition JsMap := list (uuid * Z).

Fixpoint Map_get (m : JsMap) (k : uuid) : option Z :=
  match m with
  | [] => None
  | (k', v) :: rest => if decide (k' = k) then Some v else Map_get rest k
  end.

Fixpoint Map_set (m : JsMap) (k : uuid) (v : Z) : JsMap :=
  match m with
  | [] => [(k, v)]
  | (k', v') :: rest =>
      if decide (k' = k) then (k, v) :: rest else (k', v') :: Map_set rest k v
  end.

Definition Map_keys (m : JsMap) : list uuid := map fst m.

(** ** [bookings/bookings.service.ts] *)

Module BookingsService.

Definition resolveMemberId (user : AuthUser) (requestedMemberId : option uuid)
  : Prisma uuid :=
  if decide (role user = MEMBER) then
    do member <- member_findFirst
                   (fun _ m => bool_decide (member_userId m = userId user));
    match member with
    | None => throw (ForbiddenException MsgProfileMissing)
    | Some (member_id, _) =>
        match requestedMemberId with
        | Some requested =>
            if decide (requested <> member_id)
            then throw (ForbiddenException MsgMemberMismatch)
            else ret member_id
        | None => ret member_id
        end
    end
  else
    match requestedMemberId with
    | None => throw (BadRequestException MsgMemberIdRequired)
    | Some requested =>
        do member <- member_findUnique requested;
        match member with
        | None => throw (NotFoundException MsgMemberNotFound)
        | Some _ => ret requested
        end
    end.

(** The loop that sums the quantities of repeated game ids. *)
Definition aggregate (selections : list BookingGameSelectionDto) : JsMap :=
  fold_left
    (fun aggregateSelection selection =>
       Map_set aggregateSelection (gameId selection)
         (default 0 (Map_get aggregateSelection (gameId selection))
          + sel_quantity selection))
    selections [].

(** The [where] clause of the count of the member's active future
    bookings. *)
Definition activeFutureWhere (member_id : uuid) (now : Z)
    (_ : uuid) (b : Booking) : bool :=
  bool_decide (memberId b = member_id)
  && (now <? startAt b)
  && (bool_decide (status b = PENDING) || bool_decide (status b = CONFIRMED)).

(** The [where] clause of the overlap count inside the transaction. *)
Definition overlapWhere (table_id : uuid) (startAt' endAt' : Z)
    (_ : uuid) (b : Booking) : bool :=
  bool_decide (tableId b = table_id)
  && bool_decide (status b <> CANCELLED)
  && (startAt b <? endAt')
  && (startAt' <? endAt b).

(** The advisory stock check before the transaction. *)
Definition checkGames (aggregateSelection : JsMap) : Prisma unit :=
  if (0 <? Z.of_nat (length aggregateSelection)) then
    do games <- boardGame_findMany_active (Map_keys aggregateSelection);
    exec throwIf
      (negb (Nat.eqb (length games) (length aggregateSelection)))
      (BadRequestException MsgGamesUnavailable);
    forEach games (fun game =>
      let requestedQty := default 0 (Map_get aggregateSelection game.1) in
      throwIf (stockAvailable game.2 <? requestedQty)
              (BadRequestException MsgInsufficientStock))
  else ret tt.

(** One round of the loop over the aggregated picks. *)
Definition holdGame (created_id : uuid) (pick : uuid * Z) : Prisma unit :=
  let '(game_id, qty) := pick in
  do updated <- boardGame_updateMany_decrement game_id qty qty;
  exec throwIf (updated =? 0) (ConflictException MsgStockChanged);
  bookingGame_create
    {| bookingId := created_id; boardGameId := game_id; quantity := qty |}.

(** The body passed to [$transaction]. *)
Definition createBody (new_id : uuid) (user : AuthUser) (member_id : uuid)
    (dto : CreateBookingDto) (startAt' endAt' : Z)
    (aggregateSelection : JsMap) : Prisma (uuid * Booking) :=
  do overlapCount <- booking_count
                       (overlapWhere (dto_tableId dto) startAt' endAt');
  exec throwIf (0 <? overlapCount)
               (ConflictException MsgTableAlreadyBooked);
  do created_id <- booking_create new_id
      {| memberId := member_id;
         tableId := dto_tableId dto;
         startAt := startAt';
         endAt := endAt';
         peopleCount := dto_peopleCount dto;
         status := CONFIRMED;
         createdBy := userId user |};
  exec forEach aggregateSelection (holdGame created_id);
  do found <- booking_findUniqueOrThrow created_id;
  ret (created_id, found).

Definition create (cfg : Config) (now : Z) (new_id : uuid)
    (user : AuthUser) (dto : CreateBookingDto) : Prisma (uuid * Booking) :=
  match dto_startAt dto, dto_endAt dto with
  | Some startAt', Some endAt' =>
      let slotMinutes := bookingSlotMinutes cfg in
      exec throwIf (negb (isValidSlotDuration startAt' endAt' slotMinutes))
                   (BadRequestException MsgSlotDuration);
      exec throwIf
             (negb (isWithinOpeningHours (localOffsetMs cfg) startAt' endAt'
                      (bookingOpenHour cfg) (bookingCloseHour cfg)))
             (BadRequestException MsgOpeningHours);
      exec throwIf (startAt' <=? now) (BadRequestException MsgNotFuture);
      do member_id <- resolveMemberId user (dto_memberId dto);
      do table <- tableEntity_findUnique (dto_tableId dto);
      match table with
      | None => throw (NotFoundException MsgTableUnavailable)
      | Some table =>
          exec throwIf (negb (table_isActive table))
                       (NotFoundException MsgTableUnavailable);
          exec throwIf (capacity table <? dto_peopleCount dto)
                       (BadRequestException MsgCapacity);
          do activeFutureBookings <-
             booking_count (activeFutureWhere member_id now);
          exec throwIf (maxFutureActiveBookings cfg <=? activeFutureBookings)
                       (BadRequestException MsgQuota);
          let selections := default [] (dto_gameSelections dto) in
          let aggregateSelection := aggregate selections in
          exec checkGames aggregateSelection;
          do booking <- transaction
               (createBody new_id user member_id dto startAt' endAt'
                  aggregateSelection);
          exec auditService_record (userId user) BOOKING_CREATE booking.1;
          ret booking
      end
  | _, _ => throw (BadRequestException MsgInvalidDates)
  end.

(** One round of the loop that gives the held copies back. *)
Definition releaseGame (bookedGame : BookingGame) : Prisma unit :=
  exec boardGame_update (boardGameId bookedGame)
         (fun g => set_stockAvailable
                     (stockAvailable g + quantity bookedGame) g);
  ret tt.

(** The body passed to [$transaction] by [cancel]. *)
Definition cancelBody (booking_id : uuid) (held : list BookingGame)
  : Prisma Booking :=
  do updated <- booking_update_status booking_id CANCELLED;
  exec forEach held releaseGame;
  ret updated.

Definition cancel (cfg : Config) (now : Z) (user : AuthUser)
    (booking_id : uuid) : Prisma (uuid * BookingStatus) :=
  do booking <- booking_findUnique booking_id;
  match booking with
  | None => throw (NotFoundException MsgBookingNotFound)
  | Some (booking, held) =>
      exec (if decide (role user = MEMBER) then
              do member <- member_findFirst
                   (fun id m =>
                      bool_decide (id = memberId booking)
                      && bool_decide (member_userId m = userId user));
              throwIf (bool_decide (member = None))
                      (ForbiddenException MsgNotOwner)
            else ret tt);
      exec throwIf (bool_decide (status booking = CANCELLED))
                   (BadRequestException MsgAlreadyCancelled);
      let cancellationDeadline :=
        startAt booking - cancellationHours cfg * 60 * 60 * 1000 in
      exec throwIf (cancellationDeadline <? now)
                   (BadRequestException MsgCancellationWindow);
      do cancelled <- transaction (cancelBody booking_id held);
      exec auditService_record (userId user) BOOKING_CANCEL booking_id;
      ret (booking_id, status cancelled)
  end.

(** A filter of the [where] object: [undefined] does not constrain. *)
Definition whereEq {A} `{EqDecision A} (filter : option A) (x : A) : bool :=
  match filter with
  | None => true
  | Some v => bool_decide (x = v)
  end.

(** The [where] object of [list], after the adjustment for members. *)
Definition listWhere (user : AuthUser) (query : BookingsQueryDto)
    (s : Store) (_ : uuid) (b : Booking) : bool :=
  whereEq (bq_status query) (status b)
  && whereEq (bq_tableId query) (tableId b)
  && whereEq (if decide (role user = MEMBER) then None
              else bq_memberId query)
             (memberId b)
  && (if bool_decide (is_Some (bq_from query))
         || bool_decide (is_Some (bq_to query))
      then
        match bq_from query with
        | Some from => from <=? startAt b
        | None => true
        end
        && match bq_to query with
           | Some to => startAt b <=? to
           | None => true
           end
      else true)
  && (if decide (role user = MEMBER) then
        match members s !! memberId b with
        | Some m => bool_decide (member_userId m = userId user)
        | None => false
        end
      else true).

Definition list (user : AuthUser) (query : BookingsQueryDto)
  : Prisma (list (uuid * Booking)) :=
  booking_findMany_byStart (listWhere user query).

End BookingsService.

(** ** [games/games.service.ts] *)

Module GamesService.

Definition create (new_id : uuid) (user : AuthUser) (dto : CreateGameDto)
  : Prisma uuid :=
  exec throwIf (cg_stockTotal dto <? cg_stockAvailable dto)
               (BadRequestException MsgStockExceedsTotal);
  do game_id <- boardGame_create new_id
      {| stockTotal := cg_stockTotal dto;
         stockAvailable := cg_stockAvailable dto;
         game_isActive := default true (cg_isActive dto) |};
  exec auditService_record (userId user) GAME_CREATE game_id;
  ret game_id.

(** [data: dto]: the fields present in the payload overwrite the row. *)
Definition applyDto (dto : UpdateGameDto) (g : BoardGame) : BoardGame :=
  {| stockTotal := default (stockTotal g) (ug_stockTotal dto);
     stockAvailable := default (stockAvailable g) (ug_stockAvailable dto);
     game_isActive := default (game_isActive g) (ug_isActive dto) |}.

Definition update (user : AuthUser) (id : uuid) (dto : UpdateGameDto)
  : Prisma BoardGame :=
  do existing <- boardGame_findUnique id;
  match existing with
  | None => throw (NotFoundException MsgGameNotFound)
  | Some existing =>
      let stockTotal' := default (stockTotal existing) (ug_stockTotal dto) in
      let stockAvailable' :=
        default (stockAvailable existing) (ug_stockAvailable dto) in
      exec throwIf (stockTotal' <? stockAvailable')
                   (BadRequestException MsgStockExceedsTotal);
      do game <- boardGame_update id (applyDto dto);
      exec auditService_record (userId user) GAME_UPDATE id;
      ret game
  end.

End GamesService.

(** ** [tables/tables.service.ts] *)

Module TablesService.

(** The [where] clause of the overlapping bookings. *)
Definition busyWhere (startAt' endAt' : Z) (_ : uuid) (b : Booking) : bool :=
  (bool_decide (status b = PENDING) || bool_decide (status b = CONFIRMED))
  && (startAt b <? endAt')
  && (startAt' <? endAt b).

Definition memberAvailability (query : TableAvailabilityQueryDto)
  : Prisma (list (uuid * TableEntity * bool)) :=
  do tables <- tableEntity_findMany (fun _ t => table_isActive t);
  match q_startAt query, q_endAt query with
  | Some start, Some end' =>
      match start, end' with
      | Some startAt', Some endAt' =>
          do overlaps <- booking_findMany (busyWhere startAt' endAt');
          let busyTableIds : gset uuid :=
            list_to_set (map (fun b => tableId b.2) overlaps) in
          ret (map (fun table =>
                      (table.1, table.2,
                       negb (bool_decide (table.1 ∈ busyTableIds))))
                   tables)
      | _, _ => throw (BadRequestException MsgBadInterval)
      end
  | _, _ => ret (map (fun table => (table.1, table.2, true)) tables)
  end.

(** [list]: members get the availability, staff the configuration. *)
Definition list (user : AuthUser) (query : TableAvailabilityQueryDto)
  : Prisma (list (uuid * TableEntity * bool) + list (uuid * TableEntity)) :=
  if decide (role user = MEMBER) then
    do rows <- memberAvailability query;
    ret (inl rows)
  else
    do tables <- tableEntity_findMany (fun _ _ => true);
    ret (inr tables).

End TablesService.

(** ** Controllers: the validation pipe and the role guard in front of the
    services *)

Definition rolesAllow (allowed : list UserRole) (user : AuthUser) : bool :=
  bool_decide (role user ∈ allowed).

Module BookingsController.

Definition create (cfg : Config) (now : Z) (new_id : uuid)
    (user : AuthUser) (dto : CreateBookingDto) : Prisma (uuid * Booking) :=
  exec throwIf (negb (validCreateBookingDto dto))
               (BadRequestException MsgValidation);
  BookingsService.create cfg now new_id user dto.

Definition cancel := BookingsService.cancel.

End BookingsController.

Module GamesController.

Definition create (new_id : uuid) (user : AuthUser) (dto : CreateGameDto)
  : Prisma uuid :=
  exec throwIf (negb (rolesAllow [STAFF; ADMIN] user))
               (ForbiddenException MsgInsufficientRole);
  exec throwIf (negb (validCreateGameDto dto))
               (BadRequestException MsgValidation);
  GamesService.create new_id user dto.

Definition update (user : AuthUser) (id : uuid) (dto : UpdateGameDto)
  : Prisma BoardGame :=
  exec throwIf (negb (rolesAllow [STAFF; ADMIN] user))
               (ForbiddenException MsgInsufficientRole);
  exec throwIf (negb (validUpdateGameDto dto))
               (BadRequestException MsgValidation);
  GamesService.update user id dto.

End GamesController.

(** ** The system as a state machine

    One request of the API, with the clock reading and the fresh primary
    key the database would generate for it. *)

Inductive Op :=
  | OpBookingCreate (now : Z) (new_id : uuid) (user : AuthUser)
      (dto : CreateBookingDto)
  | OpBookingCancel (now : Z) (user : AuthUser) (booking_id : uuid)
  | OpGameCreate (new_id : uuid) (user : AuthUser) (dto : CreateGameDto)
  | OpGameUpdate (user : AuthUser) (id : uuid) (dto : UpdateGameDto).

Definition fresh (s : Store) : World := {| db := s; issued := [] |}.

(** The store a request leaves behind. *)
Definition after {A} (m : Prisma A) (s : Store) : Store := db (m (fresh s)).2.

(** What a request answers. *)
Definition answer {A} (m : Prisma A) (s : Store) : Outcome A := (m (fresh s)).1.

Definition step (cfg : Config) (op : Op) (s : Store) : Store :=
  match op with
  | OpBookingCreate now new_id user dto =>
      after (BookingsController.create cfg now new_id user dto) s
  | OpBookingCancel now user booking_id =>
      after (BookingsController.cancel cfg now user booking_id) s
  | OpGameCreate new_id user dto =>
      after (GamesController.create new_id user dto) s
  | OpGameUpdate user id dto =>
      after (GamesController.update user id dto) s
  end.

Definition run (cfg : Config) (ops : list Op) (s : Store) : Store :=
  fold_left (fun s op => step cfg op s) ops s.

(** ** Vocabulary of the statements *)

(** A computation that leaves the store as it is. *)
Definition readonly {A} (m : Prisma A) : Prop := forall w, db (m w).2 = db w.

(** Two half-open intervals [[s1, e1)] and [[s2, e2)] overlap. *)
Definition overlap (s1 e1 s2 e2 : Z) : Prop := s1 < e2 /\ s2 < e1.

(** No two distinct bookings of a table that are not cancelled overlap. *)
Definition noDoubleBooking (s : Store) : Prop :=
  forall i j b1 b2,
    bookings s !! i = Some b1 -> bookings s !! j = Some b2 -> i <> j ->
    tableId b1 = tableId b2 ->
    status b1 <> CANCELLED -> status b2 <> CANCELLED ->
    ~ overlap (startAt b1) (endAt b1) (startAt b2) (endAt b2).

Definition stockBound (g : BoardGame) : Prop :=
  0 <= stockAvailable g <= stockTotal g.

(** The game row has at least the picked quantity available. *)
Definition sufficient (games : gmap uuid BoardGame) (pick : uuid * Z) : bool :=
  match games !! pick.1 with
  | Some g => pick.2 <=? stockAvailable g
  | None => false
  end.

Definition decrementStock (games : gmap uuid BoardGame) (pick : uuid * Z)
  : gmap uuid BoardGame :=
  alter (fun g => set_stockAvailable (stockAvailable g - pick.2) g)
        pick.1 games.

Definition incrementStock (games : gmap uuid BoardGame) (h : BookingGame)
  : gmap uuid BoardGame :=
  alter (fun g => set_stockAvailable (stockAvailable g + quantity h) g)
        (boardGameId h) games.

(** The hold rows a booking gets for its aggregated picks. *)
Definition holdsFor (id : uuid) (picks : JsMap) : list BookingGame :=
  map (fun pick =>
         {| bookingId := id; boardGameId := pick.1; quantity := pick.2 |})
      picks.

(** The hold rows owned by a booking. *)
Definition holdsOf (id : uuid) (s : Store) : list BookingGame :=
  filter (fun h => bookingId h = id) (bookingGames s).

(** The constraints of [booking_games]: the primary key and the two
    foreign keys. *)
Definition holdsWellFormed (s : Store) : Prop :=
  NoDup (map holdKey (bookingGames s))
  /\ (forall h, h ∈ bookingGames s ->
        is_Some (bookings s !! bookingId h)
        /\ is_Some (boardGames s !! boardGameId h)).

(** The row [create] inserts. *)
Definition newBooking (user : AuthUser) (member_id : uuid)
    (dto : CreateBookingDto) (startAt' endAt' : Z) : Booking :=
  {| memberId := member_id;
     tableId := dto_tableId dto;
     startAt := startAt';
     endAt := endAt';
     peopleCount := dto_peopleCount dto;
     status := CONFIRMED;
     createdBy := userId user |}.

(** Every pick finds enough stock when its turn comes. *)
Fixpoint covered (games : gmap uuid BoardGame) (picks : JsMap) : Prop :=
  match picks with
  | [] => True
  | pick :: rest =>
      sufficient games pick = true /\ covered (decrementStock games pick) rest
  end.

(** The actor may cancel the booking: staff and administrators any, a
    member only a booking of the member profile tied to the account. *)
Definition mayCancel (user : AuthUser) (b : Booking) (s : Store) : Prop :=
  role user = MEMBER ->
  exists m, members s !! memberId b = Some m /\ member_userId m = userId user.

(** The store a completed [cancel] leaves. *)
Definition cancelled (user : AuthUser) (id : uuid) (b : Booking) (s : Store)
  : Store :=
  set_auditLogs
    (auditLogs s ++
       [{| actorUserId := userId user; action := BOOKING_CANCEL;
           entityId := id |}])
    (set_boardGames (foldl incrementStock (boardGames s) (holdsOf id s))
       (set_bookings (<[id := set_status CANCELLED b]> (bookings s)) s)).

(** Every game of the store respects the stock bound. *)
Definition stockBounded (s : Store) : Prop :=
  forall id g, boardGames s !! id = Some g -> stockBound g.

(** No stock is negative and every hold row is for at least one copy. *)
Definition stockNonneg (s : Store) : Prop :=
  (forall id g, boardGames s !! id = Some g -> 0 <= stockAvailable g)
  /\ (forall h, h ∈ bookingGames s -> 1 <= quantity h).

Definition isCancel (op : Op) : bool :=
  match op with
  | OpBookingCancel _ _ _ => true
  | _ => false
  end.

(** The number of copies of a game a request asks for, over all its
    selections. *)
Definition requestedQty (g : uuid) (selections : list BookingGameSelectionDto)
  : Z :=
  foldr (fun sel acc =>
           if decide (gameId sel = g) then sel_quantity sel + acc else acc)
        0 selections.

(** At most one member profile is tied to the account (the unique index
    [members_user_id_key]) and it is [member_id]. *)
Definition profileOf (user : AuthUser) (member_id : uuid) (s : Store) : Prop :=
  (exists m, members s !! member_id = Some m
             /\ member_userId m = userId user)
  /\ forall k m, members s !! k = Some m ->
                 member_userId m = userId user -> k = member_id.

(** Every pick names an active game with at least the picked quantity
    available. *)
Definition stocked (s : Store) (picks : JsMap) : Prop :=
  forall pick, pick ∈ picks ->
    exists g, boardGames s !! pick.1 = Some g
              /\ game_isActive g = true /\ pick.2 <= stockAvailable g.

(** A catalogue request issued by a member, or any booking request. *)
Definition notByStaff (op : Op) : Prop :=
  match op with
  | OpGameCreate _ user _ => role user = MEMBER
  | OpGameUpdate user _ _ => role user = MEMBER
  | _ => True
  end.

(** Two stocks list the same games with the same totals and active
    flags. *)
Definition sameCatalogue (m m' : gmap uuid BoardGame) : Prop :=
  forall id,
    match m !! id, m' !! id with
    | Some g, Some g' =>
        stockTotal g' = stockTotal g /\ game_isActive g' = game_isActive g
    | None, None => True
    | _, _ => False
    end.

(** What may become of a booking row: it stays as it is, or a row that is
    not cancelled gets the status CANCELLED and keeps everything else. *)
Definition evolves (b b' : Booking) : Prop :=
  b' = b \/ (status b <> CANCELLED /\ b' = set_status CANCELLED b).

(** No booking of the store is PENDING or COMPLETED. *)
Definition onlyConfirmedOrCancelled (s : Store) : Prop :=
  forall k b, bookings s !! k = Some b ->
              status b = CONFIRMED \/ status b = CANCELLED.

(** The booking exists and is not cancelled. *)
Definition liveBooking (s : Store) (id : uuid) : bool :=
  match bookings s !! id with
  | Some b => bool_decide (status b <> CANCELLED)
  | None => false
  end.

(** The copies counted by the hold rows that satisfy [p]. *)
Definition qtyWhere (p : BookingGame -> bool) (l : list BookingGame) : Z :=
  foldr (fun h acc => if p h then quantity h + acc else acc) 0 l.

(** The copies of a game held by bookings that are not cancelled. *)
Definition heldLive (s : Store) (g : uuid) : Z :=
  qtyWhere (fun h => bool_decide (boardGameId h = g)
                     && liveBooking s (bookingId h))
           (bookingGames s).

(** The copies of a game that are either available or held by a live
    booking. *)
Definition accounted (s : Store) (g : uuid) : option Z :=
  (fun row => stockAvailable row + heldLive s g) <$> boardGames s !! g.

(** The request is answered with a result, not with an exception. *)
Definition isOk {A} (o : Outcome A) : bool :=
  match o with
  | Ok _ => true
  | Throw _ => false
  end.

Definition accepted (cfg : Config) (op : Op) (s : Store) : bool :=
  match op with
  | OpBookingCreate now new_id user dto =>
      isOk (answer (BookingsController.create cfg now new_id user dto) s)
  | OpBookingCancel now user booking_id =>
      isOk (answer (BookingsController.cancel cfg now user booking_id) s)
  | OpGameCreate new_id user dto =>
      isOk (answer (GamesController.create new_id user dto) s)
  | OpGameUpdate user id dto =>
      isOk (answer (GamesController.update user id dto) s)
  end.

(** The audit record of a request: who, what, on which row. *)
Definition auditOf (op : Op) : AuditLog :=
  match op with
  | OpBookingCreate _ new_id user _ =>
      {| actorUserId := userId user; action := BOOKING_CREATE;
         entityId := new_id |}
  | OpBookingCancel _ user booking_id =>
      {| actorUserId := userId user; action := BOOKING_CANCEL;
         entityId := booking_id |}
  | OpGameCreate new_id user _ =>
      {| actorUserId := userId user; action := GAME_CREATE;
         entityId := new_id |}
  | OpGameUpdate user id _ =>
      {| actorUserId := userId user; action := GAME_UPDATE; entityId := id |}
  end.

(** ** Sample data

    One table [T1] of capacity 4, one member profile, one game with a
    single copy; the default configuration (slots of 90 minutes, open from
    15:00 to 23:00, at most 3 active future bookings, cancellation up to 2
    hours before the start), local time taken as UTC.  The clock reads 0
    at the start of day 0; bookings are for day 1. *)

Module Sample.

Definition cfg : Config :=
  {| bookingSlotMinutes := 90; bookingOpenHour := 15;
     bookingCloseHour := 23; maxFutureActiveBookings := 3;
     cancellationHours := 2; localOffsetMs := 0 |}.

Definition alice : AuthUser := {| userId := 10%positive; role := MEMBER |}.
Definition staff : AuthUser := {| userId := 20%positive; role := STAFF |}.

Definition T1 : uuid := 1%positive.
Definition T2 : uuid := 2%positive.
Definition aliceProfile : uuid := 3%positive.
Definition catan : uuid := 5%positive.

Definition table4 : TableEntity :=
  {| table_code := 1%positive; capacity := 4; table_isActive := true |}.

Definition store : Store :=
  {| tables := {[ T1 := table4 ]};
     members := {[ aliceProfile := {| member_userId := 10%positive |} ]};
     boardGames :=
       {[ catan := {| stockTotal := 1; stockAvailable := 1;
                      game_isActive := true |} ]};
     bookings := ∅;
     bookingGames := [];
     auditLogs := [] |}.

(** The same store with T1 seating six. *)
Definition storeSix : Store :=
  {| tables := {[ T1 := {| table_code := 1%positive; capacity := 6;
                           table_isActive := true |} ]};
     members := members store; boardGames := boardGames store;
     bookings := ∅; bookingGames := []; auditLogs := [] |}.

(** The same store after somebody else took the last copy of the game. *)
Definition storeSoldOut : Store :=
  set_boardGames
    {[ catan := {| stockTotal := 1; stockAvailable := 0;
                   game_isActive := true |} ]}
    store.

(** [hh:mm] on day 1. *)
Definition at_ (hh mm : Z) : Z := 86400000 + hh * 3600000 + mm * 60000.

Definition request (start end_ people : Z)
    (picks : list BookingGameSelectionDto) : CreateBookingDto :=
  {| dto_memberId := None; dto_tableId := T1;
     dto_startAt := Some start; dto_endAt := Some end_;
     dto_peopleCount := people; dto_gameSelections := Some picks |}.

Definition oneCatan : list BookingGameSelectionDto :=
  [{| gameId := catan; sel_quantity := 1 |}].

Definition B1 : uuid := 7%positive.
Definition B2 : uuid := 8%positive.

(** Alice books T1 from 18:00 to 19:30 for four, with the game. *)
Definition book1 : Op :=
  OpBookingCreate 0 B1 alice (request (at_ 18 0) (at_ 19 30) 4 oneCatan).

(** A second request for T1, 18:30 to 20:00. *)
Definition book2 : Op :=
  OpBookingCreate 0 B2 alice (request (at_ 18 30) (at_ 20 0) 4 []).

(** Alice cancels the first booking three hours before it starts. *)
Definition cancel1 : Op := OpBookingCancel (at_ 15 0) alice B1.

(** Staff sets the available copies of the game back to 1. *)
Definition restock : Op :=
  OpGameUpdate staff catan
    {| ug_stockTotal := None; ug_stockAvailable := Some 1;
       ug_isActive := None |}.

(** The store once the first booking is made, and its row. *)
Definition booked : Store := run cfg [book1] store.

Definition booking1 : Booking :=
  newBooking alice aliceProfile
    (request (at_ 18 0) (at_ 19 30) 4 oneCatan) (at_ 18 0) (at_ 19 30).

(** A booking of T1 that has been completed. *)
Definition completedBooking : Booking :=
  {| memberId := aliceProfile; tableId := T1; startAt := at_ 18 0;
     endAt := at_ 19 30; peopleCount := 4; status := COMPLETED;
     createdBy := 10%positive |}.

Definition storeWithCompleted : Store :=
  set_bookings {[ B1 := completedBooking ]} store.

End Sample.

(** * Properties *)

(** ** Running computations *)

Lemma readonly_ret {A} (a : A) : readonly (ret a).
Proof. by intros w. Qed.

Lemma readonly_throw {A} e : readonly (@throw A e).
Proof. by intros w. Qed.

Lemma readonly_throwIf c e : readonly (throwIf c e).
Proof. by intros w; destruct c. Qed.

Lemma readonly_query {A} q (f : Store -> A) : readonly (query q f).
Proof. by intros w. Qed.

Lemma readonly_bind {A B} (m : Prisma A) (k : A -> Prisma B) :
  readonly m -> (forall a, readonly (k a)) -> readonly (bind m k).
Proof.
  intros Hm Hk w. unfold bind. specialize (Hm w).
  destruct (m w) as [[a|e] w1]; simpl in *; [|done].
  by rewrite Hk.
Qed.

Lemma readonly_forEach {A} (xs : list A) (body : A -> Prisma unit) :
  (forall x, readonly (body x)) -> readonly (forEach xs body).
Proof.
  intros Hb. induction xs as [|x xs IH]; simpl.
  - apply readonly_ret.
  - apply readonly_bind; [apply Hb | intros _; apply IH].
Qed.

Create HintDb readonly.
#[export] Hint Resolve readonly_ret readonly_throw readonly_throwIf
  readonly_query : readonly.

(** A transaction that throws leaves the store as it found it. *)
Lemma transaction_throw {A} (body : Prisma A) w e w' :
  transaction body w = (Throw e, w') -> db w' = db w.
Proof.
  unfold transaction. destruct (body w) as [[a|e'] w1]; intros [=]; by subst.
Qed.

Lemma transaction_ok {A} (body : Prisma A) w a w' :
  transaction body w = (Ok a, w') <-> body w = (Ok a, w').
Proof.
  unfold transaction. destruct (body w) as [[a'|e'] w1]; split; intros [=];
    by subst.
Qed.

(** ** The pure rules *)

Lemma isValidSlotDuration_spec s e slot :
  isValidSlotDuration s e slot = true <-> e - s = slot * 60000.
Proof. unfold isValidSlotDuration, MINUTES_IN_MS. rewrite Z.eqb_eq. lia. Qed.

(** [setHours] lands on the same local day, [h] hours after midnight. *)
Lemma setHours_same_day off t h :
  0 <= h < 24 ->
  localDay off (setHours off t h) = localDay off t
  /\ timeOfDay off (setHours off t h) = h * 3600000.
Proof.
  intros Hh. unfold setHours, timeOfDay, localDay, DAY_IN_MS, HOUR_IN_MS,
    MINUTES_IN_MS.
  change (24 * 60 * (60 * 1000)) with 86400000.
  change (60 * (60 * 1000)) with 3600000.
  set (d := (t + off) `div` 86400000).
  replace (d * 86400000 - off + h * 3600000 + off)
    with (h * 3600000 + d * 86400000) by lia.
  split.
  - rewrite Z.div_add by lia. rewrite Z.div_small; lia.
  - rewrite Z.mod_add by lia. rewrite Z.mod_small; lia.
Qed.

(** On the day of [t], comparing with [setHours t h] is comparing the time
    of day with [h] hours. *)
Lemma setHours_le_iff off t h :
  setHours off t h <= t <-> h * 3600000 <= timeOfDay off t.
Proof.
  unfold setHours, timeOfDay, localDay, DAY_IN_MS, HOUR_IN_MS, MINUTES_IN_MS.
  change (24 * 60 * (60 * 1000)) with 86400000.
  change (60 * (60 * 1000)) with 3600000.
  pose proof (Z.div_mod (t + off) 86400000 ltac:(lia)). lia.
Qed.

Lemma isWithinOpeningHours_true_iff off s e o c :
  isWithinOpeningHours off s e o c = true <->
  localDay off s = localDay off e
  /\ setHours off s o <= s /\ e <= setHours off s c.
Proof.
  unfold isWithinOpeningHours.
  destruct (localDay off s =? localDay off e) eqn:Hd; simpl.
  - apply Z.eqb_eq in Hd. rewrite andb_true_iff, !Z.leb_le. tauto.
  - apply Z.eqb_neq in Hd. split; [done | tauto].
Qed.

(** ** [where] clauses *)

Section RowFacts.
Context {A : Type}.
Implicit Types (p : uuid -> A -> bool) (m : gmap uuid A).

Lemma rowsWhere_lookup p m k v :
  rowsWhere p m !! k = Some v <-> m !! k = Some v /\ p k v = true.
Proof. unfold rowsWhere. by rewrite map_lookup_filter_Some. Qed.

Lemma countWhere_nonneg p m : 0 <= countWhere p m.
Proof. unfold countWhere. lia. Qed.

Lemma countWhere_zero p m :
  countWhere p m = 0 <-> forall k v, m !! k = Some v -> p k v = false.
Proof.
  unfold countWhere.
  rewrite <- Nat2Z.inj_0, Nat2Z.inj_iff, map_size_empty_iff.
  unfold rowsWhere. rewrite map_empty_filter. unfold map_Forall.
  split; intros H k v Hk; specialize (H k v Hk); simpl in *.
  - by destruct (p k v).
  - by rewrite H.
Qed.

Lemma countWhere_pos p m :
  0 < countWhere p m <-> exists k v, m !! k = Some v /\ p k v = true.
Proof.
  pose proof (countWhere_nonneg p m) as Hn.
  pose proof (countWhere_zero p m) as Hz.
  split.
  - intros Hpos.
    destruct (decide (rowsWhere p m = ∅)) as [He|Hne].
    + unfold countWhere in Hpos. rewrite He, map_size_empty in Hpos. lia.
    + apply map_choose in Hne as (k & v & Hkv).
      apply rowsWhere_lookup in Hkv. eauto.
  - intros (k & v & Hk & Hp).
    destruct (decide (countWhere p m = 0)) as [H0|]; [|lia].
    rewrite Hz in H0. specialize (H0 k v Hk). congruence.
Qed.

Lemma firstWhere_None p m :
  firstWhere p m = None <-> forall k v, m !! k = Some v -> p k v = false.
Proof.
  unfold firstWhere. rewrite head_None.
  rewrite map_to_list_empty_iff. unfold rowsWhere.
  rewrite map_empty_filter. unfold map_Forall.
  split; intros H k v Hk; specialize (H k v Hk); simpl in *.
  - by destruct (p k v).
  - by rewrite H.
Qed.

Lemma firstWhere_Some p m k v :
  firstWhere p m = Some (k, v) -> m !! k = Some v /\ p k v = true.
Proof.
  unfold firstWhere. intros H. apply head_Some_elem_of in H.
  apply elem_of_map_to_list in H. by apply rowsWhere_lookup.
Qed.
End RowFacts.

(** ** The JavaScript map of aggregated picks *)

Lemma Map_set_keys m k v :
  Map_keys (Map_set m k v) =
  if bool_decide (k ∈ Map_keys m) then Map_keys m else Map_keys m ++ [k].
Proof.
  induction m as [|[k' v'] m IH].
  - done.
  - cbn [Map_set]. destruct (decide (k' = k)) as [->|Hne].
    + rewrite bool_decide_eq_true_2; [done | by left].
    + change (Map_keys ((k', v') :: Map_set m k v))
        with (k' :: Map_keys (Map_set m k v)).
      change (Map_keys ((k', v') :: m)) with (k' :: Map_keys m).
      rewrite IH.
      destruct (decide (k ∈ Map_keys m)) as [Hin|Hnin].
      * rewrite !bool_decide_eq_true_2; [done | right; exact Hin | done].
      * rewrite !bool_decide_eq_false_2; [done | | done].
        rewrite elem_of_cons. intros [Heq|Hk]; [by apply Hne | by apply Hnin].
Qed.

Lemma Map_set_NoDup m k v :
  NoDup (Map_keys m) -> NoDup (Map_keys (Map_set m k v)).
Proof.
  intros Hnd. rewrite Map_set_keys. case_bool_decide as Hin; [done|].
  apply NoDup_app. split_and!; [done | | apply NoDup_singleton].
  intros x Hx Hx'. apply list_elem_of_singleton in Hx'. by subst.
Qed.

Lemma aggregate_NoDup selections :
  NoDup (Map_keys (BookingsService.aggregate selections)).
Proof.
  unfold BookingsService.aggregate.
  assert (forall acc, NoDup (Map_keys acc) ->
    NoDup (Map_keys (fold_left
      (fun aggregateSelection selection =>
         Map_set aggregateSelection (gameId selection)
           (default 0 (Map_get aggregateSelection (gameId selection))
            + sel_quantity selection)) selections acc))) as H.
  { induction selections as [|x xs IH]; intros acc Hacc; simpl; [done|].
    apply IH. by apply Map_set_NoDup. }
  apply H. apply NoDup_nil_2.
Qed.

(** Every aggregated quantity is a sum of requested quantities, so at
    least 1 when each request asks for at least 1. *)
Lemma Map_set_Forall (P : Z -> Prop) m k v :
  Forall (fun kv => P kv.2) m -> P v ->
  Forall (fun kv => P kv.2) (Map_set m k v).
Proof.
  intros Hm Hv. induction m as [|[k' v'] m IH]; simpl.
  - by constructor.
  - inversion Hm; subst. destruct (decide (k' = k)); constructor; auto.
Qed.

Lemma Map_get_Forall (P : Z -> Prop) m k v :
  Forall (fun kv => P kv.2) m -> Map_get m k = Some v -> P v.
Proof.
  intros Hm. induction m as [|[k' v'] m IH]; simpl; [done|].
  inversion Hm; subst. destruct (decide (k' = k)); intros H; [|by apply IH].
  by injection H as <-.
Qed.

Lemma aggregate_positive selections :
  forallb (fun sel => 1 <=? sel_quantity sel) selections = true ->
  Forall (fun kv => 1 <= kv.2) (BookingsService.aggregate selections).
Proof.
  unfold BookingsService.aggregate. intros Hv.
  assert (forall acc, Forall (fun kv : uuid * Z => 1 <= kv.2) acc ->
    Forall (fun kv : uuid * Z => 1 <= kv.2) (fold_left
      (fun aggregateSelection selection =>
         Map_set aggregateSelection (gameId selection)
           (default 0 (Map_get aggregateSelection (gameId selection))
            + sel_quantity selection)) selections acc)) as H.
  { induction selections as [|x xs IH]; intros acc Hacc; simpl; [done|].
    simpl in Hv. apply andb_true_iff in Hv as [Hx Hxs].
    apply IH; [done|]. apply Z.leb_le in Hx.
    apply (Map_set_Forall (fun v => 1 <= v)); [done|].
    destruct (Map_get acc (gameId x)) as [v|] eqn:Hg; simpl; [|lia].
    pose proof (Map_get_Forall (fun v => 1 <= v) _ _ _ Hacc Hg). simpl in *.
    lia. }
  apply H. constructor.
Qed.

(** ** The loop over the aggregated picks *)

Lemma alter_as_insert {A} (f : A -> A) (m : gmap uuid A) i x :
  m !! i = Some x -> alter f i m = <[i := f x]> m.
Proof.
  intros Hi. apply map_eq. intros j. rewrite lookup_alter, lookup_insert.
  case_decide; subst; [by rewrite Hi | done].
Qed.

Lemma holdGame_run id g q w :
  BookingsService.holdGame id (g, q) w =
  let log := issued w ++ [BoardGameUpdateMany] in
  if sufficient (boardGames (db w)) (g, q) then
    bookingGame_create
      {| bookingId := id; boardGameId := g; quantity := q |}
      {| db := set_boardGames (decrementStock (boardGames (db w)) (g, q)) (db w);
         issued := log |}
  else (Throw (ConflictException MsgStockChanged), {| db := db w; issued := log |}).
Proof.
  unfold BookingsService.holdGame, bind, boardGame_updateMany_decrement,
    statement, sufficient, decrementStock. simpl.
  destruct (boardGames (db w) !! g) as [row|] eqn:Hg; simpl; [|done].
  destruct (q <=? stockAvailable row) eqn:Hq; simpl; [|done].
  by rewrite (alter_as_insert _ _ _ _ Hg).
Qed.

Lemma sufficient_decrement_ne games g q pick :
  pick.1 <> g ->
  sufficient (decrementStock games (g, q)) pick = sufficient games pick.
Proof.
  intros Hne. unfold sufficient, decrementStock. simpl.
  by rewrite lookup_alter_ne.
Qed.

(** The loop over the picks, when it completes: every pick found enough
    stock in its turn, each stock went down by the picked quantity and one
    hold row per pick was appended. *)
Lemma forEach_holdGame_ok id picks w w' :
  forEach picks (BookingsService.holdGame id) w = (Ok tt, w') ->
  covered (boardGames (db w)) picks
  /\ db w' = set_bookingGames (bookingGames (db w) ++ holdsFor id picks)
               (set_boardGames (foldl decrementStock (boardGames (db w)) picks)
                  (db w)).
Proof.
  revert w. induction picks as [|[g q] picks IH]; intros w; cbn [forEach].
  - intros [= <-]. split; [done|]. destruct w as [[]]; simpl.
    unfold set_bookingGames, set_boardGames; simpl. by rewrite app_nil_r.
  - unfold bind at 1. rewrite holdGame_run. cbn zeta.
    destruct (sufficient (boardGames (db w)) (g, q)) eqn:Hs; [|done].
    unfold bookingGame_create, statement at 1. simpl.
    case_bool_decide as Hpk; [done|].
    destruct (negb _); [done|]. simpl.
    intros Hrest. apply IH in Hrest as [Hc Hrest]. split; [done|].
    rewrite Hrest. simpl.
    unfold set_bookingGames, set_boardGames; simpl.
    by rewrite <- app_assoc.
Qed.

Lemma forallb_sufficient_decrement games g q picks :
  g ∉ Map_keys picks ->
  forallb (sufficient (decrementStock games (g, q))) picks =
  forallb (sufficient games) picks.
Proof.
  induction picks as [|p picks IH]; intros Hg; simpl; [done|].
  change (Map_keys (p :: picks)) with (p.1 :: Map_keys picks) in Hg.
  rewrite not_elem_of_cons in Hg. destruct Hg as [Hne Hg].
  rewrite IH by done. by rewrite sufficient_decrement_ne.
Qed.

(** The loop over the picks decides by the stock it finds: it completes
    when every pick is covered, and otherwise throws the conflict. *)
Lemma forEach_holdGame_run id picks w :
  NoDup (Map_keys picks) ->
  is_Some (bookings (db w) !! id) ->
  (forall h, h ∈ bookingGames (db w) -> bookingId h = id ->
             boardGameId h ∉ Map_keys picks) ->
  exists w',
    forEach picks (BookingsService.holdGame id) w =
    (if forallb (sufficient (boardGames (db w))) picks
     then Ok tt else Throw (ConflictException MsgStockChanged), w').
Proof.
  revert w. induction picks as [|[g q] picks IH]; intros w Hnd Hb Hh.
  - by exists w.
  - change (Map_keys ((g, q) :: picks)) with (g :: Map_keys picks) in *.
    apply NoDup_cons in Hnd as [Hg Hnd].
    cbn [forEach forallb]. unfold bind at 1. rewrite holdGame_run. cbn zeta.
    destruct (sufficient (boardGames (db w)) (g, q)) eqn:Hs; [|by eexists].
    unfold bookingGame_create, statement at 1. cbn [db issued bookingId
      boardGameId set_boardGames bookingGames bookings boardGames].
    rewrite bool_decide_eq_false_2.
    2:{ intros Hin. apply list_elem_of_fmap in Hin as (h & Hk & Hin).
        injection Hk as Hk1 Hk2. apply (Hh h Hin); [done|]. rewrite <- Hk2.
        by left. }
    rewrite (bool_decide_eq_true_2 _ Hb).
    rewrite bool_decide_eq_true_2.
    2:{ unfold decrementStock. rewrite lookup_alter. simpl.
        rewrite decide_True by done. unfold sufficient in Hs. simpl in Hs.
        destruct (boardGames (db w) !! g); [by eexists | done]. }
    cbn [negb andb].
    match goal with |- exists w', forEach _ _ ?w1 = _ =>
      destruct (IH w1) as [w' Hw'] end.
    + done.
    + done.
    + cbn [db bookingGames set_bookingGames]. intros h Hin Hid Hk.
      apply elem_of_app in Hin as [Hin|Hin].
      * apply (Hh h Hin Hid). by right.
      * apply list_elem_of_singleton in Hin. subst h. simpl in Hk. done.
    + cbn [db boardGames set_bookingGames set_boardGames] in Hw'.
      rewrite forallb_sufficient_decrement in Hw' by done. by exists w'.
Qed.

(** ** The transaction of [create] *)

Lemma bind_throwIf {B} c e (k : unit -> Prisma B) w :
  bind (throwIf c e) k w = if c then (Throw e, w) else k tt w.
Proof. by destruct c. Qed.

Lemma bind_query {A B} q (f : Store -> A) (k : A -> Prisma B) w :
  bind (query q f) k w =
  k (f (db w)) {| db := db w; issued := issued w ++ [q] |}.
Proof. done. Qed.

(** The application-level overlap check is at least as strict as the
    exclusion constraint of the table. *)
Lemma exclusion_subsumed user member_id dto s e (m : gmap uuid Booking) :
  countWhere (BookingsService.overlapWhere (dto_tableId dto) s e) m = 0 ->
  countWhere (exclusionConflict (newBooking user member_id dto s e)) m = 0.
Proof.
  rewrite !countWhere_zero. intros H k b Hk. specialize (H k b Hk).
  unfold BookingsService.overlapWhere in H. unfold exclusionConflict. simpl.
  destruct (bool_decide (status b <> CANCELLED)),
    (bool_decide (tableId b = dto_tableId dto)),
    (startAt b <? e), (s <? endAt b); simpl in *; congruence.
Qed.

Lemma createBody_overlap new_id user member_id dto s e picks w :
  0 < countWhere (BookingsService.overlapWhere (dto_tableId dto) s e)
        (bookings (db w)) ->
  BookingsService.createBody new_id user member_id dto s e picks w =
  (Throw (ConflictException MsgTableAlreadyBooked),
   {| db := db w; issued := issued w ++ [BookingCount] |}).
Proof.
  intros Hc. unfold BookingsService.createBody, booking_count.
  rewrite bind_query, bind_throwIf. cbn [db].
  by rewrite (proj2 (Z.ltb_lt _ _) Hc).
Qed.

Lemma createBody_ok new_id user member_id dto s e picks w r w' :
  BookingsService.createBody new_id user member_id dto s e picks w
  = (Ok r, w') ->
  countWhere (BookingsService.overlapWhere (dto_tableId dto) s e)
    (bookings (db w)) = 0
  /\ bookings (db w) !! new_id = None
  /\ s < e
  /\ covered (boardGames (db w)) picks
  /\ r = (new_id, newBooking user member_id dto s e)
  /\ db w' =
     set_bookingGames (bookingGames (db w) ++ holdsFor new_id picks)
       (set_boardGames (foldl decrementStock (boardGames (db w)) picks)
          (set_bookings
             (<[new_id := newBooking user member_id dto s e]>
                (bookings (db w)))
             (db w))).
Proof.
  unfold BookingsService.createBody, booking_count.
  rewrite bind_query, bind_throwIf. cbn [db].
  destruct (0 <? _) eqn:Hc; [done|]. apply Z.ltb_ge in Hc.
  pose proof (countWhere_nonneg
    (BookingsService.overlapWhere (dto_tableId dto) s e) (bookings (db w))).
  unfold bind at 1. unfold booking_create, statement at 1.
  fold (newBooking user member_id dto s e).
  cbn [db issued startAt endAt newBooking memberId tableId status].
  destruct (s <? e) eqn:Hse; [|done]. apply Z.ltb_lt in Hse.
  cbn [negb]. case_bool_decide as Hid; [done|].
  destruct (negb _); [done|].
  destruct (_ && _); [done|].
  unfold bind at 1.
  destruct (forEach picks _ _) as [[[]|ex] w1] eqn:Hloop; [|done].
  apply forEach_holdGame_ok in Hloop as [Hcov Hdb].
  cbn [db boardGames bookingGames set_bookings] in Hcov, Hdb.
  unfold bind, booking_findUniqueOrThrow, statement, ret.
  rewrite Hdb. cbn [db bookings set_bookingGames set_boardGames set_bookings].
  rewrite lookup_insert_eq. intros [= <- <-].
  cbn [db]. split_and!; try done.
  - lia.
  - by apply eq_None_not_Some.
Qed.

(** On a store where the slot is free and the insert is accepted, the
    transaction body commits exactly when every pick is covered by the
    stock it finds, and throws the stock conflict otherwise. *)
Lemma createBody_run new_id user member_id dto s e picks w :
  NoDup (Map_keys picks) ->
  (forall h, h ∈ bookingGames (db w) ->
             is_Some (bookings (db w) !! bookingId h)) ->
  countWhere (BookingsService.overlapWhere (dto_tableId dto) s e)
    (bookings (db w)) = 0 ->
  s < e ->
  bookings (db w) !! new_id = None ->
  is_Some (members (db w) !! member_id) ->
  is_Some (tables (db w) !! dto_tableId dto) ->
  exists w',
    BookingsService.createBody new_id user member_id dto s e picks w =
    (if forallb (sufficient (boardGames (db w))) picks
     then Ok (new_id, newBooking user member_id dto s e)
     else Throw (ConflictException MsgStockChanged), w').
Proof.
  intros Hnd Hfk Hc Hse Hid Hm Ht.
  unfold BookingsService.createBody, booking_count.
  rewrite bind_query, bind_throwIf. cbn [db]. rewrite Hc. cbn [Z.ltb Z.compare].
  unfold bind at 1. unfold booking_create, statement at 1.
  fold (newBooking user member_id dto s e).
  cbn [db issued startAt endAt newBooking memberId tableId status].
  rewrite (proj2 (Z.ltb_lt _ _) Hse). cbn [negb].
  rewrite bool_decide_eq_false_2 by (rewrite Hid; by intros [? ?]).
  rewrite (bool_decide_eq_true_2 _ Hm), (bool_decide_eq_true_2 _ Ht).
  cbn [negb andb].
  change {| memberId := member_id; tableId := dto_tableId dto; startAt := s;
            endAt := e; peopleCount := dto_peopleCount dto;
            status := CONFIRMED; createdBy := userId user |}
    with (newBooking user member_id dto s e).
  rewrite (exclusion_subsumed user member_id dto s e _ Hc).
  rewrite andb_false_r.
  unfold bind at 1.
  match goal with |- context [forEach picks _ ?w1] =>
    destruct (forEach_holdGame_run new_id picks w1) as [w2 Hloop] end.
  - done.
  - cbn [db bookings set_bookings]. rewrite lookup_insert_eq. by eexists.
  - cbn [db bookingGames set_bookings]. intros h Hin Hh.
    apply Hfk in Hin. rewrite Hh, Hid in Hin. by destruct Hin.
  - rewrite Hloop. cbn [db boardGames set_bookings].
    destruct (forallb _ picks) eqn:Hall; [|by eexists].
    apply forEach_holdGame_ok in Hloop as [_ Hdb].
    unfold bind, booking_findUniqueOrThrow, statement, ret.
    rewrite Hdb. cbn [db bookings set_bookingGames set_boardGames set_bookings].
    rewrite lookup_insert_eq. by eexists.
Qed.

(** ** [create] as a whole *)

Lemma resolveMemberId_readonly user requested :
  readonly (BookingsService.resolveMemberId user requested).
Proof.
  unfold BookingsService.resolveMemberId, member_findFirst, member_findUnique.
  destruct (decide (role user = MEMBER)).
  - apply readonly_bind; [auto with readonly|].
    intros [[mid m]|]; [|auto with readonly].
    destruct requested as [r|]; [|auto with readonly].
    destruct (decide (r <> mid)); auto with readonly.
  - destruct requested as [r|]; [|auto with readonly].
    apply readonly_bind; [auto with readonly|].
    intros [m|]; auto with readonly.
Qed.

Lemma checkGames_readonly picks : readonly (BookingsService.checkGames picks).
Proof.
  unfold BookingsService.checkGames, boardGame_findMany_active.
  destruct (0 <? _); [|auto with readonly].
  apply readonly_bind; [auto with readonly|]. intros games.
  apply readonly_bind; [auto with readonly|]. intros _.
  apply readonly_forEach. auto with readonly.
Qed.

(** What a completed [create] did, and that a rejected one did nothing. *)
Lemma create_effect cfg now new_id user dto w r w' :
  BookingsService.create cfg now new_id user dto w = (r, w') ->
  match r with
  | Throw _ => db w' = db w
  | Ok (id, b) =>
      exists s e member_id,
        let picks :=
          BookingsService.aggregate (default [] (dto_gameSelections dto)) in
        dto_startAt dto = Some s /\ dto_endAt dto = Some e
        /\ id = new_id /\ b = newBooking user member_id dto s e
        /\ countWhere (BookingsService.overlapWhere (dto_tableId dto) s e)
             (bookings (db w)) = 0
        /\ bookings (db w) !! new_id = None
        /\ s < e
        /\ covered (boardGames (db w)) picks
        /\ db w' =
           set_auditLogs
             (auditLogs (db w) ++
                [{| actorUserId := userId user; action := BOOKING_CREATE;
                    entityId := new_id |}])
             (set_bookingGames (bookingGames (db w) ++ holdsFor new_id picks)
                (set_boardGames
                   (foldl decrementStock (boardGames (db w)) picks)
                   (set_bookings
                      (<[new_id := newBooking user member_id dto s e]>
                         (bookings (db w)))
                      (db w))))
  end.
Proof.
  unfold BookingsService.create.
  destruct (dto_startAt dto) as [s|]; [|by intros [= <- <-]].
  destruct (dto_endAt dto) as [e|]; [|by intros [= <- <-]].
  cbn zeta. rewrite !bind_throwIf.
  destruct (negb (isValidSlotDuration _ _ _)); [by intros [= <- <-]|].
  destruct (negb (isWithinOpeningHours _ _ _ _ _)); [by intros [= <- <-]|].
  destruct (s <=? now); [by intros [= <- <-]|].
  unfold bind at 1.
  pose proof (resolveMemberId_readonly user (dto_memberId dto) w) as Hro.
  destruct (BookingsService.resolveMemberId _ _ w) as [[mid|ex] w1];
    simpl in Hro; [|by intros [= <- <-]].
  unfold tableEntity_findUnique. rewrite bind_query.
  destruct (tables (db w1) !! dto_tableId dto) as [table|];
    [|by intros [= <- <-]].
  rewrite !bind_throwIf.
  destruct (negb (table_isActive table)); [by intros [= <- <-]|].
  destruct (capacity table <? dto_peopleCount dto); [by intros [= <- <-]|].
  unfold booking_count. rewrite bind_query, bind_throwIf.
  destruct (maxFutureActiveBookings cfg <=? _); [by intros [= <- <-]|].
  set (picks := BookingsService.aggregate _).
  unfold bind at 1.
  match goal with |- context [BookingsService.checkGames picks ?w2] =>
    pose proof (checkGames_readonly picks w2) as Hro2;
    destruct (BookingsService.checkGames picks w2) as [[[]|ex] w3] end;
    simpl in Hro2; [|intros [= <- <-]; congruence].
  unfold bind at 1.
  destruct (transaction _ w3) as [[[id b]|ex] w4] eqn:Htx.
  - apply transaction_ok, createBody_ok in Htx
      as (Hc & Hid & Hse & Hcov & [= -> ->] & Hdb).
    unfold auditService_record, bind, statement, ret. cbn [fst db issued].
    intros [= <- <-]. cbn [db].
    rewrite Hro2, Hro in *.
    exists s, e, mid. cbn zeta. by rewrite Hdb.
  - apply transaction_throw in Htx. intros [= <- <-]. congruence.
Qed.

(** ** [cancel] *)

Lemma releaseGame_run h w :
  BookingsService.releaseGame h w =
  let log := issued w ++ [BoardGameUpdate] in
  match boardGames (db w) !! boardGameId h with
  | Some _ =>
      (Ok tt, {| db := set_boardGames (incrementStock (boardGames (db w)) h)
                         (db w);
                 issued := log |})
  | None => (Throw (PrismaError RecordNotFound), {| db := db w; issued := log |})
  end.
Proof.
  unfold BookingsService.releaseGame, bind, boardGame_update, statement,
    incrementStock, ret. cbn zeta.
  destruct (boardGames (db w) !! boardGameId h) as [g|] eqn:Hg; [|done].
  by rewrite (alter_as_insert _ _ _ _ Hg).
Qed.

Lemma incrementStock_dom games h k :
  is_Some (incrementStock games h !! k) <-> is_Some (games !! k).
Proof.
  unfold incrementStock. rewrite lookup_alter. case_decide; [|done].
  subst. by rewrite fmap_is_Some.
Qed.

Lemma forEach_releaseGame_ok held w w' :
  forEach held BookingsService.releaseGame w = (Ok tt, w') ->
  db w' = set_boardGames (foldl incrementStock (boardGames (db w)) held) (db w).
Proof.
  revert w. induction held as [|h held IH]; intros w; cbn [forEach].
  - intros [= <-]. by destruct w as [[]].
  - unfold bind at 1. rewrite releaseGame_run. cbn zeta.
    destruct (boardGames (db w) !! boardGameId h); [|done].
    intros Hrest. apply IH in Hrest. rewrite Hrest. by destruct w as [[]].
Qed.

Lemma forEach_releaseGame_run held w :
  (forall h, h ∈ held -> is_Some (boardGames (db w) !! boardGameId h)) ->
  exists w', forEach held BookingsService.releaseGame w = (Ok tt, w').
Proof.
  revert w. induction held as [|h held IH]; intros w Hfk; cbn [forEach].
  - by eexists.
  - unfold bind at 1. rewrite releaseGame_run. cbn zeta.
    destruct (Hfk h) as [g Hg]; [by left|]. rewrite Hg.
    apply IH. cbn [db boardGames set_boardGames]. intros h' Hin.
    apply incrementStock_dom. apply Hfk. by right.
Qed.

Lemma cancelBody_ok id held w b' w' :
  BookingsService.cancelBody id held w = (Ok b', w') ->
  exists b,
    bookings (db w) !! id = Some b /\ b' = set_status CANCELLED b
    /\ db w' =
       set_boardGames (foldl incrementStock (boardGames (db w)) held)
         (set_bookings (<[id := set_status CANCELLED b]> (bookings (db w)))
            (db w)).
Proof.
  unfold BookingsService.cancelBody, booking_update_status.
  unfold bind at 1, statement at 1.
  destruct (bookings (db w) !! id) as [b|]; [|done].
  rewrite bool_decide_eq_false_2 by (by intros H; apply H). cbn [andb].
  unfold bind at 1.
  destruct (forEach held _ _) as [[[]|ex] w1] eqn:Hloop; [|done].
  apply forEach_releaseGame_ok in Hloop. intros [= <- <-].
  exists b. by rewrite Hloop.
Qed.

Lemma cancelBody_run id held w b :
  bookings (db w) !! id = Some b ->
  (forall h, h ∈ held -> is_Some (boardGames (db w) !! boardGameId h)) ->
  exists w',
    BookingsService.cancelBody id held w = (Ok (set_status CANCELLED b), w').
Proof.
  intros Hb Hfk. unfold BookingsService.cancelBody, booking_update_status.
  unfold bind at 1, statement at 1. rewrite Hb.
  rewrite bool_decide_eq_false_2 by (by intros H; apply H). cbn [andb].
  unfold bind at 1.
  match goal with |- context [forEach held _ ?w1] =>
    destruct (forEach_releaseGame_run held w1) as [w2 Hloop] end; [done|].
  rewrite Hloop. by eexists.
Qed.

(** The ownership check of [cancel]. *)
Lemma ownerCheck_run user b w :
  let check : Prisma unit :=
    if decide (role user = MEMBER) then
      do member <- member_findFirst
           (fun id m =>
              bool_decide (id = memberId b)
              && bool_decide (member_userId m = userId user));
      throwIf (bool_decide (member = None)) (ForbiddenException MsgNotOwner)
    else ret tt in
  exists w1, db w1 = db w /\
    ((mayCancel user b (db w) /\ check w = (Ok tt, w1))
     \/ (~ mayCancel user b (db w)
         /\ check w = (Throw (ForbiddenException MsgNotOwner), w1))).
Proof.
  cbn zeta. unfold mayCancel. destruct (decide (role user = MEMBER)) as [Hr|Hr].
  - unfold member_findFirst. rewrite bind_query.
    destruct (firstWhere _ (members (db w))) as [[k m]|] eqn:Hf.
    + apply firstWhere_Some in Hf as [Hk Hp].
      apply andb_true_iff in Hp as [Hp1 Hp2].
      apply bool_decide_eq_true in Hp1, Hp2. subst k.
      eexists. split; [|left; split; [by eauto | done]]. done.
    + rewrite firstWhere_None in Hf.
      eexists. split; [|right; split; [|done]]; [done|].
      intros H. destruct (H Hr) as (m & Hm & Hu).
      specialize (Hf _ _ Hm). rewrite !bool_decide_eq_true_2 in Hf; done.
  - exists w. split; [done|]. left. by split.
Qed.

(** The complete behaviour of [cancel] on a store whose hold rows refer to
    existing games. *)
Lemma cancel_run cfg now user id w :
  (forall h, h ∈ holdsOf id (db w) ->
             is_Some (boardGames (db w) !! boardGameId h)) ->
  exists w',
    match bookings (db w) !! id with
    | None =>
        BookingsService.cancel cfg now user id w =
          (Throw (NotFoundException MsgBookingNotFound), w')
        /\ db w' = db w
    | Some b =>
        (~ mayCancel user b (db w)
         /\ BookingsService.cancel cfg now user id w =
              (Throw (ForbiddenException MsgNotOwner), w')
         /\ db w' = db w)
        \/ (mayCancel user b (db w) /\ status b = CANCELLED
            /\ BookingsService.cancel cfg now user id w =
                 (Throw (BadRequestException MsgAlreadyCancelled), w')
            /\ db w' = db w)
        \/ (mayCancel user b (db w) /\ status b <> CANCELLED
            /\ startAt b - cancellationHours cfg * 3600000 < now
            /\ BookingsService.cancel cfg now user id w =
                 (Throw (BadRequestException MsgCancellationWindow), w')
            /\ db w' = db w)
        \/ (mayCancel user b (db w) /\ status b <> CANCELLED
            /\ now <= startAt b - cancellationHours cfg * 3600000
            /\ BookingsService.cancel cfg now user id w =
                 (Ok (id, CANCELLED), w')
            /\ db w' = cancelled user id b (db w))
    end.
Proof.
  intros Hfk.
  destruct (BookingsService.cancel cfg now user id w) as [r w'] eqn:Hrun.
  exists w'. revert Hrun.
  unfold BookingsService.cancel, booking_findUnique.
  rewrite bind_query. cbn [db].
  destruct (bookings (db w) !! id) as [b|] eqn:Hb; [|by intros [= <- <-]].
  fold (holdsOf id (db w)).
  unfold bind at 1.
  set (w0 := {| db := db w; issued := issued w ++ [BookingFindUnique] |}).
  destruct (ownerCheck_run user b w0) as (w1 & Hdb1 & [[Hmay Hrun]|[Hmay Hrun]]);
    cbn zeta in Hrun; rewrite Hrun; cbn [db w0] in Hdb1, Hmay.
  2:{ intros [= <- <-]. left. by split_and!. }
  rewrite bind_throwIf.
  case_bool_decide as Hst.
  { intros [= <- <-]. right; left. by split_and!. }
  rewrite bind_throwIf.
  replace (startAt b - cancellationHours cfg * 60 * 60 * 1000)
    with (startAt b - cancellationHours cfg * 3600000) by lia.
  destruct (_ <? now) eqn:Hlate.
  { apply Z.ltb_lt in Hlate. intros [= <- <-]. right; right; left.
    by split_and!. }
  apply Z.ltb_ge in Hlate.
  unfold bind at 1.
  destruct (cancelBody_run id (holdsOf id (db w)) w1 b) as [w2 Hbody].
  { by rewrite Hdb1. }
  { intros h Hin. rewrite Hdb1. by apply Hfk. }
  assert (Htx : transaction
                  (BookingsService.cancelBody id (holdsOf id (db w))) w1
                = (Ok (set_status CANCELLED b), w2))
    by by apply transaction_ok.
  rewrite Htx. apply cancelBody_ok in Hbody as (b0 & Hb0 & _ & Hdb2).
  rewrite Hdb1, Hb in Hb0. injection Hb0 as <-.
  unfold auditService_record, bind, statement, ret. cbn [db issued status
    set_status].
  intros [= <- <-]. right; right; right. split_and!; try done.
  cbn [db]. rewrite Hdb2, Hdb1. done.
Qed.

(** What a completed [cancel] did, and that a rejected one did nothing. *)
Lemma cancel_effect cfg now user id w r w' :
  BookingsService.cancel cfg now user id w = (r, w') ->
  match r with
  | Throw _ => db w' = db w
  | Ok (id', st) =>
      exists b,
        bookings (db w) !! id = Some b /\ status b <> CANCELLED
        /\ id' = id /\ st = CANCELLED
        /\ db w' = cancelled user id b (db w)
  end.
Proof.
  unfold BookingsService.cancel, booking_findUnique.
  rewrite bind_query. cbn [db].
  destruct (bookings (db w) !! id) as [b|] eqn:Hb; [|by intros [= <- <-]].
  fold (holdsOf id (db w)).
  unfold bind at 1.
  set (w0 := {| db := db w; issued := issued w ++ [BookingFindUnique] |}).
  destruct (ownerCheck_run user b w0) as (w1 & Hdb1 & [[Hmay Hrun]|[Hmay Hrun]]);
    cbn zeta in Hrun; rewrite Hrun; cbn [db w0] in Hdb1, Hmay.
  2:{ by intros [= <- <-]. }
  rewrite bind_throwIf.
  case_bool_decide as Hst; [by intros [= <- <-]|].
  rewrite bind_throwIf.
  destruct (_ <? now) eqn:Hlate; [by intros [= <- <-]|].
  unfold bind at 1.
  destruct (transaction _ w1) as [[b'|ex] w2] eqn:Htx.
  - apply transaction_ok, cancelBody_ok in Htx as (b0 & Hb0 & -> & Hdb2).
    rewrite Hdb1, Hb in Hb0. injection Hb0 as <-.
    unfold auditService_record, bind, statement, ret. cbn [db issued status
      set_status].
    intros [= <- <-]. exists b. split_and!; try done.
    cbn [db]. by rewrite Hdb2, Hdb1.
  - apply transaction_throw in Htx. intros [= <- <-]. congruence.
Qed.

(** ** The catalogue operations *)

Lemma GamesController_create_effect new_id user dto w r w' :
  GamesController.create new_id user dto w = (r, w') ->
  match r with
  | Throw _ => db w' = db w
  | Ok id =>
      id = new_id
      /\ 0 <= cg_stockAvailable dto <= cg_stockTotal dto
      /\ boardGames (db w) !! new_id = None
      /\ db w' =
         set_auditLogs
           (auditLogs (db w) ++
              [{| actorUserId := userId user; action := GAME_CREATE;
                  entityId := new_id |}])
           (set_boardGames
              (<[new_id := {| stockTotal := cg_stockTotal dto;
                              stockAvailable := cg_stockAvailable dto;
                              game_isActive := default true (cg_isActive dto) |}]>
                 (boardGames (db w)))
              (db w))
  end.
Proof.
  unfold GamesController.create, GamesService.create.
  rewrite !bind_throwIf.
  destruct (negb (rolesAllow _ _)); [by intros [= <- <-]|].
  destruct (negb (validCreateGameDto dto)) eqn:Hv; [by intros [= <- <-]|].
  apply negb_false_iff, andb_true_iff in Hv as [Hv1 Hv2].
  apply Z.leb_le in Hv1, Hv2.
  destruct (_ <? _) eqn:Hs; [by intros [= <- <-]|]. apply Z.ltb_ge in Hs.
  unfold bind at 1, boardGame_create, statement at 1.
  case_bool_decide as Hid; [by intros [= <- <-]|].
  unfold auditService_record, bind, statement, ret. cbn [db issued].
  intros [= <- <-]. split_and!; try done; try lia.
  by apply eq_None_not_Some.
Qed.

Lemma GamesController_update_effect user id dto w r w' :
  GamesController.update user id dto w = (r, w') ->
  match r with
  | Throw _ => db w' = db w
  | Ok g' =>
      exists g,
        boardGames (db w) !! id = Some g
        /\ g' = GamesService.applyDto dto g
        /\ stockAvailable g' <= stockTotal g'
        /\ (0 <= stockAvailable g -> 0 <= stockAvailable g')
        /\ db w' =
           set_auditLogs
             (auditLogs (db w) ++
                [{| actorUserId := userId user; action := GAME_UPDATE;
                    entityId := id |}])
             (set_boardGames (<[id := g']> (boardGames (db w))) (db w))
  end.
Proof.
  unfold GamesController.update, GamesService.update.
  rewrite !bind_throwIf.
  destruct (negb (rolesAllow _ _)); [by intros [= <- <-]|].
  destruct (negb (validUpdateGameDto dto)) eqn:Hv; [by intros [= <- <-]|].
  apply negb_false_iff, andb_true_iff in Hv as [Hv1 Hv2].
  apply Z.leb_le in Hv1, Hv2.
  unfold boardGame_findUnique. rewrite bind_query. cbn [db].
  destruct (boardGames (db w) !! id) as [g|] eqn:Hg; [|by intros [= <- <-]].
  cbn zeta. rewrite bind_throwIf.
  destruct (_ <? _) eqn:Hs; [by intros [= <- <-]|]. apply Z.ltb_ge in Hs.
  unfold bind at 1, boardGame_update, statement at 1. cbn [db issued].
  rewrite Hg.
  unfold auditService_record, bind, statement, ret. cbn [db issued].
  intros [= <- <-]. exists g. split_and!; try done.
  intros Hg0. unfold GamesService.applyDto. cbn [stockAvailable].
  destruct (ug_stockAvailable dto); simpl in *; lia.
Qed.

Lemma BookingsController_create_effect cfg now new_id user dto w r w' :
  BookingsController.create cfg now new_id user dto w = (r, w') ->
  match r with
  | Throw _ => db w' = db w
  | Ok _ =>
      validCreateBookingDto dto = true
      /\ BookingsService.create cfg now new_id user dto w = (r, w')
  end.
Proof.
  unfold BookingsController.create. rewrite bind_throwIf.
  destruct (validCreateBookingDto dto); cbn [negb].
  - intros H. pose proof (create_effect _ _ _ _ _ _ _ _ H) as He.
    destruct r; [done | exact He].
  - by intros [= <- <-].
Qed.

(** ** No double booking *)

Lemma overlapWhere_true table_id s e k b :
  BookingsService.overlapWhere table_id s e k b = true <->
  tableId b = table_id /\ status b <> CANCELLED
  /\ overlap (startAt b) (endAt b) s e.
Proof.
  unfold BookingsService.overlapWhere, overlap.
  rewrite !andb_true_iff, !bool_decide_eq_true, !Z.ltb_lt. tauto.
Qed.

Lemma noDoubleBooking_same s s' :
  bookings s' = bookings s -> noDoubleBooking s -> noDoubleBooking s'.
Proof. unfold noDoubleBooking. intros ->. auto. Qed.

Lemma noDoubleBooking_insert s s' id row :
  noDoubleBooking s ->
  bookings s !! id = None ->
  countWhere
    (BookingsService.overlapWhere (tableId row) (startAt row) (endAt row))
    (bookings s) = 0 ->
  bookings s' = <[id := row]> (bookings s) ->
  noDoubleBooking s'.
Proof.
  intros Hinv Hid Hc Hs' i j b1 b2 Hi Hj Hne Ht H1 H2 Hov.
  rewrite countWhere_zero in Hc.
  rewrite Hs' in Hi, Hj.
  apply lookup_insert_Some in Hi as [[<- <-]|[Hni Hi]];
    apply lookup_insert_Some in Hj as [[<- <-]|[Hnj Hj]].
  - done.
  - specialize (Hc j b2 Hj).
    apply not_true_iff_false in Hc. apply Hc. apply overlapWhere_true.
    unfold overlap in *. split_and!; [done | done | lia | lia].
  - specialize (Hc i b1 Hi).
    apply not_true_iff_false in Hc. apply Hc. apply overlapWhere_true.
    split_and!; done.
  - by apply (Hinv i j b1 b2).
Qed.

Lemma noDoubleBooking_cancel s s' id b :
  noDoubleBooking s ->
  bookings s !! id = Some b ->
  bookings s' = <[id := set_status CANCELLED b]> (bookings s) ->
  noDoubleBooking s'.
Proof.
  intros Hinv Hid Hs' i j b1 b2 Hi Hj Hne Ht H1 H2 Hov.
  rewrite Hs' in Hi, Hj.
  apply lookup_insert_Some in Hi as [[<- <-]|[Hni Hi]]; [done|].
  apply lookup_insert_Some in Hj as [[<- <-]|[Hnj Hj]]; [done|].
  by apply (Hinv i j b1 b2).
Qed.

Lemma step_noDoubleBooking cfg op s :
  noDoubleBooking s -> noDoubleBooking (step cfg op s).
Proof.
  intros Hinv. destruct op as [now id user dto|now user id|id user dto|user id dto];
    unfold step, after.
  - destruct (BookingsController.create cfg now id user dto (fresh s))
      as [r w'] eqn:Hrun.
    apply BookingsController_create_effect in Hrun.
    destruct r as [[id' b]|ex]; cbn [snd].
    + destruct Hrun as [_ Hrun]. apply create_effect in Hrun
        as (st & e & mid & _ & _ & _ & _ & Hc & Hid & _ & _ & Hdb).
      cbn [db fresh] in *.
      eapply (noDoubleBooking_insert s _ id (newBooking user mid dto st e));
        [done | done | done |]. by rewrite Hdb.
    + eapply noDoubleBooking_same; [|done]. by rewrite Hrun.
  - destruct (BookingsController.cancel cfg now user id (fresh s))
      as [r w'] eqn:Hrun.
    apply cancel_effect in Hrun.
    destruct r as [[id' st]|ex]; cbn [snd].
    + destruct Hrun as (b & Hb & _ & _ & _ & Hdb). cbn [db fresh] in *.
      eapply (noDoubleBooking_cancel s _ id b); [done | done |].
      by rewrite Hdb.
    + eapply noDoubleBooking_same; [|done]. by rewrite Hrun.
  - destruct (GamesController.create id user dto (fresh s)) as [r w'] eqn:Hrun.
    apply GamesController_create_effect in Hrun.
    eapply noDoubleBooking_same; [|done]. cbn [snd].
    destruct r; [|by rewrite Hrun].
    destruct Hrun as (_ & _ & _ & ->). done.
  - destruct (GamesController.update user id dto (fresh s)) as [r w'] eqn:Hrun.
    apply GamesController_update_effect in Hrun.
    eapply noDoubleBooking_same; [|done]. cbn [snd].
    destruct r; [|by rewrite Hrun].
    destruct Hrun as (g & _ & _ & _ & _ & ->). done.
Qed.

Lemma run_noDoubleBooking cfg ops s :
  noDoubleBooking s -> noDoubleBooking (run cfg ops s).
Proof.
  unfold run. revert s. induction ops as [|op ops IH]; intros s Hinv; simpl.
  - done.
  - apply IH. by apply step_noDoubleBooking.
Qed.

(** C1. No double booking.  (1) Whatever requests are served, starting from
    a store in which no two live bookings of a table overlap (in
    particular one without bookings), no two distinct bookings of a table
    that are not cancelled ever overlap as half-open intervals.  (2) When
    the transaction of [create] finds a booking of the requested table
    that is not cancelled and overlaps the requested window, it throws the
    conflict and leaves the store as it was.  (3) A [create] that answers
    with a booking found no such row in the store. *)
Theorem C1_no_double_booking :
  (forall cfg ops s,
     noDoubleBooking s -> noDoubleBooking (run cfg ops s))
  /\ (forall cfg ops s,
        bookings s = ∅ -> noDoubleBooking (run cfg ops s))
  /\ (forall new_id user member_id dto s e picks w,
        (exists k b,
           bookings (db w) !! k = Some b /\ tableId b = dto_tableId dto
           /\ status b <> CANCELLED /\ overlap (startAt b) (endAt b) s e) ->
        exists w',
          transaction
            (BookingsService.createBody new_id user member_id dto s e picks) w
          = (Throw (ConflictException MsgTableAlreadyBooked), w')
          /\ db w' = db w)
  /\ (forall cfg now new_id user dto st r s e k b,
        answer (BookingsService.create cfg now new_id user dto) st = Ok r ->
        dto_startAt dto = Some s -> dto_endAt dto = Some e ->
        bookings st !! k = Some b -> tableId b = dto_tableId dto ->
        status b <> CANCELLED ->
        ~ overlap (startAt b) (endAt b) s e).
Proof.
  split_and!.
  - intros cfg ops s. apply run_noDoubleBooking.
  - intros cfg ops s Hs. apply run_noDoubleBooking.
    intros i j b1 b2 Hi. rewrite Hs, lookup_empty in Hi. done.
  - intros new_id user member_id dto s e picks w (k & b & Hk & Ht & Hst & Hov).
    assert (Hc : 0 < countWhere
                       (BookingsService.overlapWhere (dto_tableId dto) s e)
                       (bookings (db w))).
    { apply countWhere_pos. exists k, b. split; [done|].
      by apply overlapWhere_true. }
    eexists. unfold transaction.
    rewrite (createBody_overlap _ _ _ _ _ _ _ _ Hc). done.
  - intros cfg now new_id user dto st r s e k b Hans Hs He Hk Ht Hst Hov.
    unfold answer in Hans.
    destruct (BookingsService.create cfg now new_id user dto (fresh st))
      as [r' w'] eqn:Hrun. simpl in Hans. subst r'.
    apply create_effect in Hrun. destruct r as [id b'].
    destruct Hrun as (s' & e' & mid & Hs' & He' & _ & _ & Hc & _).
    rewrite Hs in Hs'. rewrite He in He'. injection Hs' as <-.
    injection He' as <-. cbn [db fresh] in Hc.
    rewrite countWhere_zero in Hc. specialize (Hc k b Hk).
    apply not_true_iff_false in Hc. apply Hc. by apply overlapWhere_true.
Qed.

Lemma C1_no_double_booking_witness :
  noDoubleBooking Sample.store
  /\ noDoubleBooking
       (run Sample.cfg [Sample.book1; Sample.book2; Sample.cancel1]
          Sample.store).
Proof.
  assert (H : noDoubleBooking Sample.store).
  { intros i j b1 b2 Hi. simpl in Hi. rewrite lookup_empty in Hi. done. }
  split; [exact H|].
  exact (proj1 C1_no_double_booking Sample.cfg
           [Sample.book1; Sample.book2; Sample.cancel1] Sample.store H).
Defined.

(** ** The fixed slot *)

(** C9. [isValidSlotDuration] answers true exactly when the end is the slot
    length after the start, to the millisecond; and a request whose
    interval has another length is rejected whatever else it carries:
    [create] throws the slot-duration error before it issues any database
    call, the controller answers with a bad request, and the store is left
    as it was. *)
Theorem C9_fixed_slot_exact :
  (forall startAt' endAt' slotMinutes,
     isValidSlotDuration startAt' endAt' slotMinutes = true
     <-> endAt' - startAt' = slotMinutes * 60000)
  /\ (forall cfg now new_id user dto st s e,
        dto_startAt dto = Some s -> dto_endAt dto = Some e ->
        e - s <> bookingSlotMinutes cfg * 60000 ->
        BookingsService.create cfg now new_id user dto (fresh st)
        = (Throw (BadRequestException MsgSlotDuration), fresh st)
        /\ (exists m,
              answer (BookingsController.create cfg now new_id user dto) st
              = Throw (BadRequestException m))
        /\ after (BookingsController.create cfg now new_id user dto) st = st).
Proof.
  split.
  - intros. apply isValidSlotDuration_spec.
  - intros cfg now new_id user dto st s e Hs He Hne.
    assert (Hsvc : BookingsService.create cfg now new_id user dto (fresh st)
                   = (Throw (BadRequestException MsgSlotDuration), fresh st)).
    { unfold BookingsService.create. rewrite Hs, He. cbn zeta.
      rewrite bind_throwIf.
      destruct (isValidSlotDuration s e (bookingSlotMinutes cfg)) eqn:Hv;
        [|done].
      apply isValidSlotDuration_spec in Hv. done. }
    split; [exact Hsvc|].
    unfold answer, after, BookingsController.create. rewrite bind_throwIf.
    destruct (negb (validCreateBookingDto dto)).
    + split; [by eexists | done].
    + rewrite Hsvc. split; [by eexists | done].
Qed.

Lemma C9_fixed_slot_exact_witness :
  BookingsService.create Sample.cfg 0 Sample.B1 Sample.alice
    (Sample.request (Sample.at_ 18 0) (Sample.at_ 19 0) 4 [])
    (fresh Sample.store)
  = (Throw (BadRequestException MsgSlotDuration), fresh Sample.store).
Proof.
  refine (proj1 (proj2 C9_fixed_slot_exact Sample.cfg 0 Sample.B1 Sample.alice
            (Sample.request (Sample.at_ 18 0) (Sample.at_ 19 0) 4 [])
            Sample.store (Sample.at_ 18 0) (Sample.at_ 19 0) _ _ _)).
  - reflexivity.
  - reflexivity.
  - vm_compute. discriminate.
Defined.

(** ** The opening hours *)

(** C10. [isWithinOpeningHours] answers false exactly when start and end
    fall on different local calendar days, or the start is strictly before
    [openHour]:00 of the start's day, or the end is strictly after
    [closeHour]:00 of that day; a start on the opening instant and an end
    on the closing instant are accepted.  For hours between 0 and 23 the
    two instants are on the start's day, that many hours after local
    midnight. *)
Theorem C10_opening_hours :
  (forall off startAt' endAt' openHour closeHour,
     isWithinOpeningHours off startAt' endAt' openHour closeHour = false
     <-> (localDay off startAt' <> localDay off endAt'
          \/ startAt' < setHours off startAt' openHour
          \/ setHours off startAt' closeHour < endAt'))
  /\ (forall off startAt' endAt' openHour closeHour,
        localDay off startAt' = localDay off endAt' ->
        (startAt' = setHours off startAt' openHour ->
         endAt' <= setHours off startAt' closeHour ->
         isWithinOpeningHours off startAt' endAt' openHour closeHour = true)
        /\ (setHours off startAt' openHour <= startAt' ->
            endAt' = setHours off startAt' closeHour ->
            isWithinOpeningHours off startAt' endAt' openHour closeHour
            = true))
  /\ (forall off t h,
        0 <= h < 24 ->
        localDay off (setHours off t h) = localDay off t
        /\ timeOfDay off (setHours off t h) = h * 3600000).
Proof.
  split_and!.
  - intros off s e o c.
    rewrite <- not_true_iff_false, isWithinOpeningHours_true_iff.
    destruct (decide (localDay off s = localDay off e)); [|tauto].
    split.
    + intros H. right. lia.
    + intros [H|H] (_ & H1 & H2); [done | lia].
  - intros off s e o c Hd. split.
    + intros H1 H2. apply isWithinOpeningHours_true_iff. lia.
    + intros H1 H2. apply isWithinOpeningHours_true_iff. lia.
  - intros off t h. apply setHours_same_day.
Qed.

Lemma C10_opening_hours_witness :
  isWithinOpeningHours 0 (Sample.at_ 15 0) (Sample.at_ 16 30) 15 23 = true
  /\ isWithinOpeningHours 0 (Sample.at_ 21 30) (Sample.at_ 23 0) 15 23 = true.
Proof.
  split.
  - refine (proj1 (proj1 (proj2 C10_opening_hours) 0 (Sample.at_ 15 0)
              (Sample.at_ 16 30) 15 23 _) _ _).
    + reflexivity.
    + reflexivity.
    + vm_compute. discriminate.
  - refine (proj2 (proj1 (proj2 C10_opening_hours) 0 (Sample.at_ 21 30)
              (Sample.at_ 23 0) 15 23 _) _ _).
    + reflexivity.
    + vm_compute. discriminate.
    + reflexivity.
Defined.

(** ** The availability lookup and the write path *)

Lemma busyWhere_true s e k b :
  TablesService.busyWhere s e k b = true <->
  (status b = PENDING \/ status b = CONFIRMED)
  /\ startAt b < e /\ endAt b > s.
Proof.
  unfold TablesService.busyWhere.
  rewrite !andb_true_iff, orb_true_iff, !bool_decide_eq_true, !Z.ltb_lt.
  assert (endAt b > s <-> s < endAt b) by lia. tauto.
Qed.

Lemma busyTable_iff st qs qe id :
  id ∈ (list_to_set
          (map (fun b : uuid * Booking => tableId b.2)
             (map_to_list
                (rowsWhere (TablesService.busyWhere qs qe) (bookings st))))
        : gset uuid)
  <-> exists k b,
        bookings st !! k = Some b /\ tableId b = id
        /\ TablesService.busyWhere qs qe k b = true.
Proof.
  rewrite elem_of_list_to_set, list_elem_of_fmap. split.
  - intros ([k b] & -> & Hb).
    apply elem_of_map_to_list, rowsWhere_lookup in Hb.
    exists k, b. tauto.
  - intros (k & b & Hk & <- & Hbusy). exists (k, b). split; [done|].
    by apply elem_of_map_to_list, rowsWhere_lookup.
Qed.

(** The answer of the lookup for a window: the active tables, each marked
    free unless a pending or confirmed booking of it overlaps the window. *)
Lemma memberAvailability_run st qs qe :
  exists rows w',
    TablesService.memberAvailability
      {| q_startAt := Some (Some qs); q_endAt := Some (Some qe) |} (fresh st)
    = (Ok rows, w')
    /\ db w' = st
    /\ forall id t av,
         (id, t, av) ∈ rows <->
         tables st !! id = Some t /\ table_isActive t = true
         /\ (av = false <->
             exists k b,
               bookings st !! k = Some b /\ tableId b = id
               /\ TablesService.busyWhere qs qe k b = true).
Proof.
  unfold TablesService.memberAvailability, tableEntity_findMany,
    booking_findMany.
  rewrite bind_query. cbn [q_startAt q_endAt]. rewrite bind_query.
  cbn [db fresh]. eexists _, _. split; [reflexivity|]. split; [done|].
  intros id t av. rewrite list_elem_of_fmap. split.
  - intros ([id' t'] & [= -> -> ->] & Hin). cbn [fst snd].
    apply elem_of_map_to_list, rowsWhere_lookup in Hin as [Ht Ha].
    split_and!; [done | done |].
    rewrite negb_false_iff, bool_decide_eq_true. apply busyTable_iff.
  - intros (Ht & Ha & Hav). exists (id, t). cbn [fst snd]. split.
    + do 2 f_equal. rewrite <- busyTable_iff in Hav.
      destruct av.
      * symmetry. apply negb_true_iff, bool_decide_eq_false.
        intros Hin. apply Hav in Hin. done.
      * symmetry. apply negb_false_iff, bool_decide_eq_true. by apply Hav.
    + by apply elem_of_map_to_list, rowsWhere_lookup.
Qed.

(** C3, as the code has it.  (1) For a query window the lookup answers
    with the active tables and leaves the store alone; a table is marked
    unavailable exactly when some booking of it with status PENDING or
    CONFIRMED has [startAt < query.end] and [endAt > query.start].
    (2) On every booking whose status is not COMPLETED this test and the
    overlap test of the [create] transaction give the same verdict.
    (3) On a COMPLETED booking they differ: the lookup never counts it,
    the transaction counts it whenever it overlaps the window. *)
Theorem C3_availability_agreement :
  (forall st qs qe,
     exists rows,
       answer (TablesService.memberAvailability
                 {| q_startAt := Some (Some qs); q_endAt := Some (Some qe) |})
              st = Ok rows
       /\ after (TablesService.memberAvailability
                   {| q_startAt := Some (Some qs);
                      q_endAt := Some (Some qe) |}) st = st
       /\ forall id t av,
            (id, t, av) ∈ rows <->
            tables st !! id = Some t /\ table_isActive t = true
            /\ (av = false <->
                exists k b,
                  bookings st !! k = Some b /\ tableId b = id
                  /\ (status b = PENDING \/ status b = CONFIRMED)
                  /\ startAt b < qe /\ endAt b > qs))
  /\ (forall qs qe k b,
        status b <> COMPLETED ->
        TablesService.busyWhere qs qe k b
        = BookingsService.overlapWhere (tableId b) qs qe k b)
  /\ (forall qs qe k b,
        status b = COMPLETED ->
        TablesService.busyWhere qs qe k b = false
        /\ (BookingsService.overlapWhere (tableId b) qs qe k b = true
            <-> startAt b < qe /\ endAt b > qs)).
Proof.
  split_and!.
  - intros st qs qe.
    destruct (memberAvailability_run st qs qe) as (rows & w' & Hrun & Hdb & Hrows).
    exists rows. unfold answer, after. rewrite Hrun. cbn [fst snd].
    split_and!; [done | done |].
    intros id t av. rewrite Hrows.
    setoid_rewrite busyWhere_true. tauto.
  - intros qs qe k b Hst.
    unfold TablesService.busyWhere, BookingsService.overlapWhere.
    rewrite (bool_decide_eq_true_2 (tableId b = tableId b)) by done.
    destruct (status b); try done; vm_compute; done.
  - intros qs qe k b Hst. split.
    + unfold TablesService.busyWhere. rewrite Hst. done.
    + rewrite overlapWhere_true. unfold overlap. rewrite Hst.
      split; [lia|]. intros [H1 H2]. split_and!; [done | done | lia | lia].
Qed.

Lemma C3_availability_agreement_witness :
  TablesService.busyWhere (Sample.at_ 18 30) (Sample.at_ 20 0) Sample.B1
    (set_status CONFIRMED Sample.completedBooking)
  = BookingsService.overlapWhere Sample.T1
      (Sample.at_ 18 30) (Sample.at_ 20 0) Sample.B1
      (set_status CONFIRMED Sample.completedBooking).
Proof.
  refine (proj1 (proj2 C3_availability_agreement) (Sample.at_ 18 30)
            (Sample.at_ 20 0) Sample.B1
            (set_status CONFIRMED Sample.completedBooking) _).
  vm_compute. discriminate.
Defined.

(** A completed booking of T1 from 18:00 to 19:30 and the window 18:30 to
    20:00: the two tests disagree on the booking, the lookup reports T1 as
    available, and the [create] transaction for that window throws the
    conflict. *)
Lemma C3_counterexample :
  TablesService.busyWhere (Sample.at_ 18 30) (Sample.at_ 20 0) Sample.B1
    Sample.completedBooking = false
  /\ BookingsService.overlapWhere (tableId Sample.completedBooking)
       (Sample.at_ 18 30) (Sample.at_ 20 0) Sample.B1
       Sample.completedBooking = true
  /\ answer (TablesService.memberAvailability
               {| q_startAt := Some (Some (Sample.at_ 18 30));
                  q_endAt := Some (Some (Sample.at_ 20 0)) |})
            Sample.storeWithCompleted
     = Ok [(Sample.T1, Sample.table4, true)]
  /\ answer (transaction
               (BookingsService.createBody Sample.B2 Sample.alice
                  Sample.aliceProfile
                  (Sample.request (Sample.at_ 18 30) (Sample.at_ 20 0) 4 [])
                  (Sample.at_ 18 30) (Sample.at_ 20 0) []))
            Sample.storeWithCompleted
     = Throw (ConflictException MsgTableAlreadyBooked).
Proof. vm_compute. split_and!; reflexivity. Qed.

(** ** The order of the checks in [create] *)

Lemma resolveMemberId_ok user requested st member_id w1 :
  BookingsService.resolveMemberId user requested (fresh st)
  = (Ok member_id, w1) ->
  db w1 = st
  /\ (issued w1 = [MemberFindFirst] \/ issued w1 = [MemberFindUnique]).
Proof.
  unfold BookingsService.resolveMemberId, member_findFirst, member_findUnique.
  destruct (decide (role user = MEMBER)).
  - rewrite bind_query. cbn [db fresh issued].
    destruct (firstWhere _ _) as [[mid m]|]; [|done].
    destruct requested as [r|].
    + destruct (decide (r <> mid)); [done|]. intros [= <- <-]. auto.
    + intros [= <- <-]. auto.
  - destruct requested as [r|]; [|done].
    rewrite bind_query. cbn [db fresh issued].
    destruct (members st !! r); [|done]. intros [= <- <-]. auto.
Qed.

Lemma bind_ok {A B} (m : Prisma A) (k : A -> Prisma B) w a w1 :
  m w = (Ok a, w1) -> bind m k w = k a w1.
Proof. intros H. unfold bind. by rewrite H. Qed.

(** C8, as the code has it.  The checks of [create] run in the order:
    payload validation, parseable dates, slot duration, opening hours,
    start in the future, then the member and the table are fetched, then
    capacity, then the count of active future bookings and the quota.  The
    first failing check decides the answer, each with its own message,
    whatever the later checks would say.  The checks up to "start in the
    future" fail before any database call is issued; the capacity check
    fails after two calls (member, table) and the quota check after
    three. *)
Theorem C8_rule_order cfg now new_id user dto st :
  let run := BookingsController.create cfg now new_id user dto (fresh st) in
  (validCreateBookingDto dto = false ->
   run = (Throw (BadRequestException MsgValidation), fresh st))
  /\ (validCreateBookingDto dto = true ->
      dto_startAt dto = None \/ dto_endAt dto = None ->
      run = (Throw (BadRequestException MsgInvalidDates), fresh st))
  /\ (forall s e,
        validCreateBookingDto dto = true ->
        dto_startAt dto = Some s -> dto_endAt dto = Some e ->
        (isValidSlotDuration s e (bookingSlotMinutes cfg) = false ->
         run = (Throw (BadRequestException MsgSlotDuration), fresh st))
        /\ (isValidSlotDuration s e (bookingSlotMinutes cfg) = true ->
            isWithinOpeningHours (localOffsetMs cfg) s e
              (bookingOpenHour cfg) (bookingCloseHour cfg) = false ->
            run = (Throw (BadRequestException MsgOpeningHours), fresh st))
        /\ (isValidSlotDuration s e (bookingSlotMinutes cfg) = true ->
            isWithinOpeningHours (localOffsetMs cfg) s e
              (bookingOpenHour cfg) (bookingCloseHour cfg) = true ->
            s <= now ->
            run = (Throw (BadRequestException MsgNotFuture), fresh st))
        /\ (forall member_id w1 table,
              isValidSlotDuration s e (bookingSlotMinutes cfg) = true ->
              isWithinOpeningHours (localOffsetMs cfg) s e
                (bookingOpenHour cfg) (bookingCloseHour cfg) = true ->
              now < s ->
              BookingsService.resolveMemberId user (dto_memberId dto)
                (fresh st) = (Ok member_id, w1) ->
              tables st !! dto_tableId dto = Some table ->
              table_isActive table = true ->
              (capacity table < dto_peopleCount dto ->
               exists q,
                 run = (Throw (BadRequestException MsgCapacity),
                        {| db := st; issued := [q; TableFindUnique] |}))
              /\ (dto_peopleCount dto <= capacity table ->
                  maxFutureActiveBookings cfg
                  <= countWhere
                       (BookingsService.activeFutureWhere member_id now)
                       (bookings st) ->
                  exists q,
                    run = (Throw (BadRequestException MsgQuota),
                           {| db := st;
                              issued := [q; TableFindUnique;
                                         BookingCount] |})))).
Proof.
  cbn zeta. unfold BookingsController.create. rewrite bind_throwIf.
  split_and!.
  - by intros ->.
  - intros -> Hd. cbn [negb]. unfold BookingsService.create.
    destruct Hd as [-> | ->]; [done|]. by destruct (dto_startAt dto).
  - intros s e -> Hs He. cbn [negb]. unfold BookingsService.create.
    rewrite Hs, He. cbn zeta. rewrite !bind_throwIf.
    split_and!.
    + by intros ->.
    + by intros -> ->.
    + intros -> -> Hnow. cbn [negb].
      by rewrite (proj2 (Z.leb_le _ _) Hnow).
    + intros mid w1 table -> -> Hnow Hm Ht Ha. cbn [negb].
      rewrite (proj2 (Z.leb_gt _ _) Hnow).
      rewrite (bind_ok _ _ _ _ _ Hm).
      apply resolveMemberId_ok in Hm as [Hdb Hq].
      unfold tableEntity_findUnique. rewrite !bind_query. cbn beta.
      rewrite Hdb, Ht.
      rewrite !bind_throwIf. rewrite Ha. cbn [negb].
      split.
      * intros Hcap. rewrite (proj2 (Z.ltb_lt _ _) Hcap).
        destruct Hq as [-> | ->]; by eexists.
      * intros Hcap Hquota. rewrite (proj2 (Z.ltb_ge _ _) Hcap).
        unfold booking_count. rewrite bind_query, bind_throwIf.
        cbn [db]. rewrite (proj2 (Z.leb_le _ _) Hquota).
        destruct Hq as [-> | ->]; by eexists.
Qed.

Lemma C8_rule_order_witness :
  exists q,
    BookingsController.create Sample.cfg 0 Sample.B1 Sample.alice
      (Sample.request (Sample.at_ 18 0) (Sample.at_ 19 30) 5 [])
      (fresh Sample.store)
    = (Throw (BadRequestException MsgCapacity),
       {| db := Sample.store; issued := [q; TableFindUnique] |}).
Proof.
  refine (proj1 (proj2 (proj2 (proj2
            (proj2 (proj2 (C8_rule_order Sample.cfg 0 Sample.B1 Sample.alice
                             (Sample.request (Sample.at_ 18 0)
                                (Sample.at_ 19 30) 5 [])
                             Sample.store))
               (Sample.at_ 18 0) (Sample.at_ 19 30) _ _ _)))
            Sample.aliceProfile
            {| db := Sample.store; issued := [MemberFindFirst] |}
            Sample.table4 _ _ _ _ _ _) _).
  all: reflexivity.
Defined.

(** A party of five for T1, which seats four: the request is turned down
    for capacity after the member and the table have been read from the
    database; the same request against a store where T1 seats six is
    accepted.  The capacity check is therefore not evaluated before any
    database call. *)
Lemma C8_counterexample :
  BookingsService.create Sample.cfg 0 Sample.B1 Sample.alice
    (Sample.request (Sample.at_ 18 0) (Sample.at_ 19 30) 5 [])
    (fresh Sample.store)
  = (Throw (BadRequestException MsgCapacity),
     {| db := Sample.store; issued := [MemberFindFirst; TableFindUnique] |})
  /\ answer (BookingsService.create Sample.cfg 0 Sample.B1 Sample.alice
               (Sample.request (Sample.at_ 18 0) (Sample.at_ 19 30) 5 []))
            Sample.storeSix
     = Ok (Sample.B1,
           newBooking Sample.alice Sample.aliceProfile
             (Sample.request (Sample.at_ 18 0) (Sample.at_ 19 30) 5 [])
             (Sample.at_ 18 0) (Sample.at_ 19 30)).
Proof. split; vm_compute; reflexivity. Qed.

(** ** The conditional decrement *)

Lemma sufficient_true games g q :
  sufficient games (g, q) = true <->
  exists row, games !! g = Some row /\ stockAvailable row >= q.
Proof.
  unfold sufficient. cbn [fst snd]. destruct (games !! g) as [row|].
  - rewrite Z.leb_le. split.
    + intros H. exists row. split; [done | lia].
    + intros (row' & [= <-] & H). lia.
  - split; [done | by intros (row & H & _)].
Qed.

Lemma updateMany_run g q w :
  boardGame_updateMany_decrement g q q w =
  let log := issued w ++ [BoardGameUpdateMany] in
  if sufficient (boardGames (db w)) (g, q)
  then (Ok 1, {| db := set_boardGames (decrementStock (boardGames (db w)) (g, q))
                         (db w);
                 issued := log |})
  else (Ok 0, {| db := db w; issued := log |}).
Proof.
  unfold boardGame_updateMany_decrement, statement, sufficient, decrementStock.
  cbn [fst snd]. destruct (boardGames (db w) !! g) as [row|] eqn:Hg; [|done].
  destruct (q <=? stockAvailable row); [|done]. cbn zeta.
  by rewrite (alter_as_insert _ _ _ _ Hg).
Qed.

Lemma forallb_sufficient_false games picks :
  forallb (sufficient games) picks = false <->
  exists pick, pick ∈ picks /\ sufficient games pick = false.
Proof.
  induction picks as [|p picks IH]; simpl.
  - split; [done|]. intros (pick & Hin & _). by apply elem_of_nil in Hin.
  - rewrite andb_false_iff, IH. split.
    + intros [H|(pick & Hin & H)].
      * exists p. split; [by left | done].
      * exists pick. split; [by right | done].
    + intros (pick & Hin & H). apply elem_of_cons in Hin as [->|Hin].
      * by left.
      * right. by exists pick.
Qed.

(** C4.  (1) The decrement of [create] changes the game row exactly when
    the row exists with at least the requested quantity available, and
    then lowers the stock by that quantity; otherwise it changes no row
    and the loop throws the stock conflict.  (2) A transaction of [create]
    that throws leaves the store as it found it, and so does a [create]
    that throws.  (3) With the slot free and the insert accepted, if the
    stock found at commit time does not cover one of the aggregated picks
    (it moved since the advisory check), the transaction throws the stock
    conflict and the store is unchanged: no booking row for the new id, no
    new hold row, every stock as before. *)
Theorem C4_conditional_decrement_atomic :
  (forall g q w,
     (sufficient (boardGames (db w)) (g, q) = true <->
      exists row, boardGames (db w) !! g = Some row /\ stockAvailable row >= q)
     /\ (sufficient (boardGames (db w)) (g, q) = true ->
         exists w',
           boardGame_updateMany_decrement g q q w = (Ok 1, w')
           /\ boardGames (db w') !! g
              = (fun row => set_stockAvailable (stockAvailable row - q) row)
                  <$> boardGames (db w) !! g)
     /\ (sufficient (boardGames (db w)) (g, q) = false ->
         forall id,
         exists w',
           boardGame_updateMany_decrement g q q w = (Ok 0, w')
           /\ db w' = db w
           /\ BookingsService.holdGame id (g, q) w
              = (Throw (ConflictException MsgStockChanged), w')))
  /\ (forall new_id user member_id dto s e picks w ex w',
        transaction
          (BookingsService.createBody new_id user member_id dto s e picks) w
        = (Throw ex, w') ->
        db w' = db w)
  /\ (forall cfg now new_id user dto st ex,
        answer (BookingsService.create cfg now new_id user dto) st = Throw ex ->
        after (BookingsService.create cfg now new_id user dto) st = st)
  /\ (forall new_id user member_id dto s e selections w pick,
        let picks := BookingsService.aggregate selections in
        (forall h, h ∈ bookingGames (db w) ->
                   is_Some (bookings (db w) !! bookingId h)) ->
        countWhere (BookingsService.overlapWhere (dto_tableId dto) s e)
          (bookings (db w)) = 0 ->
        s < e ->
        bookings (db w) !! new_id = None ->
        is_Some (members (db w) !! member_id) ->
        is_Some (tables (db w) !! dto_tableId dto) ->
        pick ∈ picks ->
        sufficient (boardGames (db w)) pick = false ->
        exists w',
          transaction
            (BookingsService.createBody new_id user member_id dto s e picks) w
          = (Throw (ConflictException MsgStockChanged), w')
          /\ db w' = db w
          /\ bookings (db w') !! new_id = None).
Proof.
  split_and!.
  - intros g q w. split_and!.
    + apply sufficient_true.
    + intros Hs. rewrite updateMany_run, Hs. cbn zeta. eexists.
      split; [done|]. cbn [db boardGames set_boardGames].
      unfold decrementStock. cbn [fst snd]. rewrite lookup_alter.
      by rewrite decide_True.
    + intros Hs id. rewrite holdGame_run, updateMany_run, Hs. cbn zeta.
      by eexists.
  - intros new_id user member_id dto s e picks w ex w'.
    apply transaction_throw.
  - intros cfg now new_id user dto st ex. unfold answer, after.
    destruct (BookingsService.create cfg now new_id user dto (fresh st))
      as [r w'] eqn:Hrun. cbn [fst snd]. intros ->.
    by apply create_effect in Hrun.
  - intros new_id user member_id dto s e selections w pick picks
      Hfk Hc Hse Hid Hm Ht Hin Hs.
    destruct (createBody_run new_id user member_id dto s e picks w)
      as [w1 Hrun]; try done.
    { apply aggregate_NoDup. }
    assert (Hall : forallb (sufficient (boardGames (db w))) picks = false).
    { apply forallb_sufficient_false. by exists pick. }
    rewrite Hall in Hrun.
    unfold transaction. rewrite Hrun. eexists. by split_and!.
Qed.

Lemma C4_conditional_decrement_atomic_witness :
  exists w',
    transaction
      (BookingsService.createBody Sample.B1 Sample.alice Sample.aliceProfile
         (Sample.request (Sample.at_ 18 0) (Sample.at_ 19 30) 4 Sample.oneCatan)
         (Sample.at_ 18 0) (Sample.at_ 19 30)
         (BookingsService.aggregate Sample.oneCatan))
      (fresh Sample.storeSoldOut)
    = (Throw (ConflictException MsgStockChanged), w')
    /\ db w' = Sample.storeSoldOut
    /\ bookings (db w') !! Sample.B1 = None.
Proof.
  refine (proj2 (proj2 (proj2 C4_conditional_decrement_atomic))
            Sample.B1 Sample.alice Sample.aliceProfile
            (Sample.request (Sample.at_ 18 0) (Sample.at_ 19 30) 4
               Sample.oneCatan)
            (Sample.at_ 18 0) (Sample.at_ 19 30) Sample.oneCatan
            (fresh Sample.storeSoldOut) (Sample.catan, 1)
            _ _ _ _ _ _ _ _).
  - intros h Hin. by apply elem_of_nil in Hin.
  - reflexivity.
  - reflexivity.
  - reflexivity.
  - by eexists.
  - by eexists.
  - by left.
  - reflexivity.
Defined.

(** ** Giving the held copies back *)

Lemma foldl_incrementStock_other games held g :
  g ∉ map boardGameId held ->
  foldl incrementStock games held !! g = games !! g.
Proof.
  revert games. induction held as [|h held IH]; intros games Hg; [done|].
  cbn [foldl]. cbn [map] in Hg. apply not_elem_of_cons in Hg as [Hne Hg].
  rewrite IH by done. unfold incrementStock. by rewrite lookup_alter_ne.
Qed.

Lemma foldl_incrementStock_held games held h :
  NoDup (map boardGameId held) -> h ∈ held ->
  foldl incrementStock games held !! boardGameId h
  = (fun row => set_stockAvailable (stockAvailable row + quantity h) row)
      <$> games !! boardGameId h.
Proof.
  revert games. induction held as [|h0 held IH]; intros games Hnd Hin.
  - by apply elem_of_nil in Hin.
  - cbn [map] in Hnd. apply NoDup_cons in Hnd as [Hh0 Hnd].
    cbn [foldl]. apply elem_of_cons in Hin as [->|Hin].
    + rewrite foldl_incrementStock_other by done.
      unfold incrementStock. rewrite lookup_alter. by rewrite decide_True.
    + rewrite IH by done. unfold incrementStock.
      rewrite lookup_alter_ne; [done|].
      intros Heq. apply Hh0. rewrite Heq. apply list_elem_of_fmap. eauto.
Qed.

Lemma foldl_incrementStock_dom games held g :
  is_Some (foldl incrementStock games held !! g) <-> is_Some (games !! g).
Proof.
  revert games. induction held as [|h held IH]; intros games; [done|].
  cbn [foldl]. rewrite IH. apply incrementStock_dom.
Qed.

Lemma holdsOf_elem id st h :
  h ∈ holdsOf id st <-> h ∈ bookingGames st /\ bookingId h = id.
Proof. unfold holdsOf. rewrite list_elem_of_filter. tauto. Qed.

(** A booking holds each game in one row at most. *)
Lemma holdsOf_NoDup id st :
  NoDup (map holdKey (bookingGames st)) ->
  NoDup (map boardGameId (holdsOf id st)).
Proof.
  unfold holdsOf. induction (bookingGames st) as [|h hs IH]; intros Hnd.
  - constructor.
  - cbn [map] in Hnd. apply NoDup_cons in Hnd as [Hh Hnd].
    rewrite filter_cons. case_decide as Hid; [|by apply IH].
    cbn [map]. apply NoDup_cons. split; [|by apply IH].
    intros Hin. apply list_elem_of_fmap in Hin as (h' & Hg & Hin').
    apply list_elem_of_filter in Hin' as [Hid' Hin'].
    apply Hh. apply list_elem_of_fmap. exists h'. split; [|done].
    unfold holdKey. by rewrite Hid, Hid', Hg.
Qed.

(** [cancel] on a booking that is already cancelled. *)
Lemma cancel_twice cfg now user id st b :
  bookings st !! id = Some b -> status b = CANCELLED ->
  exists ex,
    answer (BookingsService.cancel cfg now user id) st = Throw ex
    /\ after (BookingsService.cancel cfg now user id) st = st
    /\ (mayCancel user b st -> ex = BadRequestException MsgAlreadyCancelled).
Proof.
  intros Hb Hst. unfold answer, after.
  destruct (BookingsService.cancel cfg now user id (fresh st)) as [r w'] eqn:Hrun.
  pose proof (cancel_effect _ _ _ _ _ _ _ Hrun) as Heff.
  destruct r as [[id' st']|ex].
  { destruct Heff as (b' & Hb' & Hne & _). cbn [db fresh] in Hb'.
    rewrite Hb in Hb'. injection Hb' as <-. done. }
  exists ex. cbn [fst snd]. split_and!; [done | done |].
  intros Hmay. revert Hrun.
  unfold BookingsService.cancel, booking_findUnique.
  rewrite bind_query. cbn [db fresh]. rewrite Hb.
  unfold bind at 1.
  set (w0 := {| db := st; issued := issued (fresh st) ++ [BookingFindUnique] |}).
  destruct (ownerCheck_run user b w0) as (w1 & Hdb1 & [[_ Hc]|[Hn _]]);
    [|done].
  cbn zeta in Hc. rewrite Hc. rewrite bind_throwIf.
  rewrite bool_decide_eq_true_2 by done. by intros [= <- _].
Qed.

(** The outcome of [cancel] for an actor who may cancel a live booking
    depends on the clock alone. *)
Lemma cancel_by_clock cfg now user id st b :
  (forall h, h ∈ holdsOf id st -> is_Some (boardGames st !! boardGameId h)) ->
  bookings st !! id = Some b -> status b <> CANCELLED -> mayCancel user b st ->
  (startAt b - cancellationHours cfg * 3600000 < now
   /\ answer (BookingsService.cancel cfg now user id) st
      = Throw (BadRequestException MsgCancellationWindow)
   /\ after (BookingsService.cancel cfg now user id) st = st)
  \/ (now <= startAt b - cancellationHours cfg * 3600000
      /\ answer (BookingsService.cancel cfg now user id) st
         = Ok (id, CANCELLED)
      /\ after (BookingsService.cancel cfg now user id) st
         = cancelled user id b st).
Proof.
  intros Hfk Hb Hst Hmay.
  destruct (cancel_run cfg now user id (fresh st) Hfk) as [w' Hrun].
  cbn [db fresh] in Hrun. rewrite Hb in Hrun. unfold answer, after.
  destruct Hrun as [(Hn & _)|[(_ & Hc & _)|[(_ & _ & Hlate & -> & Hdb)
                                          |(_ & _ & Hearly & -> & Hdb)]]];
    try done.
  - left. done.
  - right. done.
Qed.

(** C5.  On a store that respects the keys of [booking_games], let an
    actor who may do so cancel a live booking in time.  The request is
    accepted; the booking becomes CANCELLED; for every hold row of the
    booking the stock of its game goes up by exactly the held quantity and
    nothing else about the game changes; the stock of every other game is
    as before.  Any later [cancel] of the same booking is rejected, with
    the already-cancelled error for an actor who may cancel it, and changes
    nothing: the stock is given back once. *)
Theorem C5_cancel_reverses_once cfg now user id st b :
  holdsWellFormed st ->
  bookings st !! id = Some b -> status b <> CANCELLED -> mayCancel user b st ->
  now <= startAt b - cancellationHours cfg * 3600000 ->
  let st' := after (BookingsService.cancel cfg now user id) st in
  answer (BookingsService.cancel cfg now user id) st = Ok (id, CANCELLED)
  /\ bookings st' !! id = Some (set_status CANCELLED b)
  /\ (forall h, h ∈ holdsOf id st ->
        exists row,
          boardGames st !! boardGameId h = Some row
          /\ boardGames st' !! boardGameId h
             = Some (set_stockAvailable
                       (stockAvailable row + quantity h) row))
  /\ (forall g, (forall h, h ∈ holdsOf id st -> boardGameId h <> g) ->
        boardGames st' !! g = boardGames st !! g)
  /\ (forall now' user',
        exists ex,
          answer (BookingsService.cancel cfg now' user' id) st' = Throw ex
          /\ after (BookingsService.cancel cfg now' user' id) st' = st'
          /\ (mayCancel user' b st ->
              ex = BadRequestException MsgAlreadyCancelled)).
Proof.
  intros [Hpk Hfk] Hb Hst Hmay Hnow. cbn zeta.
  assert (Hfk' : forall h, h ∈ holdsOf id st ->
                           is_Some (boardGames st !! boardGameId h)).
  { intros h Hin. apply holdsOf_elem in Hin as [Hin _]. by apply Hfk. }
  destruct (cancel_by_clock cfg now user id st b Hfk' Hb Hst Hmay)
    as [(Hlate & _)|(_ & Hans & Haft)]; [lia|].
  rewrite Haft. unfold cancelled.
  cbn [bookings boardGames set_auditLogs set_boardGames set_bookings].
  split_and!.
  - done.
  - by rewrite lookup_insert_eq.
  - intros h Hin. destruct (Hfk' h Hin) as [row Hrow]. exists row.
    split; [done|].
    rewrite (foldl_incrementStock_held _ _ h); [by rewrite Hrow | | done].
    by apply holdsOf_NoDup.
  - intros g Hg. apply foldl_incrementStock_other.
    intros Hin. apply list_elem_of_fmap in Hin as (h & -> & Hin).
    by apply (Hg h).
  - intros now' user'.
    destruct (cancel_twice cfg now' user' id
                (set_auditLogs
                   (auditLogs st ++
                      [{| actorUserId := userId user;
                          action := BOOKING_CANCEL; entityId := id |}])
                   (set_boardGames
                      (foldl incrementStock (boardGames st) (holdsOf id st))
                      (set_bookings
                         (<[id := set_status CANCELLED b]> (bookings st)) st)))
                (set_status CANCELLED b))
      as (ex & Hans' & Haft' & Hex).
    + cbn [bookings set_auditLogs set_boardGames set_bookings].
      by rewrite lookup_insert_eq.
    + done.
    + exists ex. split_and!; [done | done |].
      intros Hmay'. apply Hex. intros Hr. destruct (Hmay' Hr) as (m & Hm & Hu).
      exists m. done.
Qed.

Lemma Sample_booked_wf : holdsWellFormed Sample.booked.
Proof.
  split.
  - vm_compute. apply NoDup_singleton.
  - intros h Hin. vm_compute in Hin.
    apply list_elem_of_singleton in Hin. subst h. split; by eexists.
Defined.

Lemma Sample_alice_mayCancel : mayCancel Sample.alice Sample.booking1 Sample.booked.
Proof. intros _. eexists. split; reflexivity. Defined.

Lemma C5_cancel_reverses_once_witness :
  answer (BookingsService.cancel Sample.cfg (Sample.at_ 15 0) Sample.alice
            Sample.B1) Sample.booked
  = Ok (Sample.B1, CANCELLED).
Proof.
  refine (proj1 (C5_cancel_reverses_once Sample.cfg (Sample.at_ 15 0)
                   Sample.alice Sample.B1 Sample.booked Sample.booking1
                   Sample_booked_wf _ _ Sample_alice_mayCancel _)).
  - reflexivity.
  - vm_compute. discriminate.
  - vm_compute. discriminate.
Defined.

(** ** The cancellation cutoff *)

(** C7.  For an actor who may cancel an existing booking that is not
    cancelled, the request is rejected exactly when the clock is strictly
    past [startAt] minus [cancellationHours] hours, and then with the
    cancellation-window error and no change; at the deadline instant or
    before, it is accepted and the booking becomes CANCELLED.  With a
    cutoff of 2 hours, a request one hour before the start is rejected and
    a request three hours before is accepted. *)
Theorem C7_cancellation_cutoff cfg user id st b :
  (forall h, h ∈ holdsOf id st -> is_Some (boardGames st !! boardGameId h)) ->
  bookings st !! id = Some b -> status b <> CANCELLED -> mayCancel user b st ->
  let deadline := startAt b - cancellationHours cfg * 3600000 in
  (forall now,
     (exists ex,
        answer (BookingsService.cancel cfg now user id) st = Throw ex)
     <-> deadline < now)
  /\ (forall now,
        deadline < now ->
        answer (BookingsService.cancel cfg now user id) st
        = Throw (BadRequestException MsgCancellationWindow)
        /\ after (BookingsService.cancel cfg now user id) st = st)
  /\ (forall now,
        now <= deadline ->
        answer (BookingsService.cancel cfg now user id) st = Ok (id, CANCELLED)
        /\ status
             <$> bookings (after (BookingsService.cancel cfg now user id) st)
                 !! id
           = Some CANCELLED)
  /\ (cancellationHours cfg = 2 ->
      answer (BookingsService.cancel cfg (startAt b - 1 * 3600000) user id) st
      = Throw (BadRequestException MsgCancellationWindow)
      /\ answer (BookingsService.cancel cfg (startAt b - 3 * 3600000) user id)
           st
         = Ok (id, CANCELLED)).
Proof.
  intros Hfk Hb Hst Hmay. cbn zeta.
  assert (Hlate : forall now,
            startAt b - cancellationHours cfg * 3600000 < now ->
            answer (BookingsService.cancel cfg now user id) st
            = Throw (BadRequestException MsgCancellationWindow)
            /\ after (BookingsService.cancel cfg now user id) st = st).
  { intros now Hnow.
    destruct (cancel_by_clock cfg now user id st b Hfk Hb Hst Hmay)
      as [(_ & Hans & Haft)|(Hle & _)]; [done | lia]. }
  assert (Hearly : forall now,
            now <= startAt b - cancellationHours cfg * 3600000 ->
            answer (BookingsService.cancel cfg now user id) st
            = Ok (id, CANCELLED)
            /\ status
                 <$> bookings
                       (after (BookingsService.cancel cfg now user id) st)
                     !! id
               = Some CANCELLED).
  { intros now Hnow.
    destruct (cancel_by_clock cfg now user id st b Hfk Hb Hst Hmay)
      as [(Hlt & _)|(_ & Hans & Haft)]; [lia|].
    split; [done|]. rewrite Haft. unfold cancelled.
    cbn [bookings set_auditLogs set_boardGames set_bookings].
    by rewrite lookup_insert_eq. }
  split_and!.
  - intros now. split.
    + intros [ex Hex].
      destruct (Z.lt_ge_cases (startAt b - cancellationHours cfg * 3600000) now)
        as [Hlt|Hge]; [done|].
      destruct (Hearly now Hge) as [Hans _]. congruence.
    + intros Hlt. destruct (Hlate now Hlt) as [Hans _]. by eexists.
  - exact Hlate.
  - exact Hearly.
  - intros Hcut. split.
    + apply Hlate. lia.
    + apply Hearly. lia.
Qed.

Lemma C7_cancellation_cutoff_witness :
  answer (BookingsService.cancel Sample.cfg
            (startAt Sample.booking1 - 1 * 3600000) Sample.alice Sample.B1)
         Sample.booked
  = Throw (BadRequestException MsgCancellationWindow)
  /\ answer (BookingsService.cancel Sample.cfg
               (startAt Sample.booking1 - 3 * 3600000) Sample.alice Sample.B1)
            Sample.booked
     = Ok (Sample.B1, CANCELLED).
Proof.
  refine (proj2 (proj2 (proj2
            (C7_cancellation_cutoff Sample.cfg Sample.alice Sample.B1
               Sample.booked Sample.booking1 _ _ _ Sample_alice_mayCancel)))
            _).
  - intros h Hin. apply holdsOf_elem in Hin as [Hin _].
    by apply Sample_booked_wf.
  - reflexivity.
  - vm_compute. discriminate.
  - reflexivity.
Defined.

(** ** Hold rows after a cancellation *)

(** C6, as the code has it.  A [cancel] that is accepted leaves every row
    of [booking_games] in place: the booking keeps the hold rows it had.
    In the same transaction the booking becomes CANCELLED and the stock of
    each held game is raised by the quantity of the booking's hold rows. *)
Theorem C6_holds_kept_on_cancel cfg now user id st r :
  answer (BookingsService.cancel cfg now user id) st = Ok r ->
  let st' := after (BookingsService.cancel cfg now user id) st in
  bookingGames st' = bookingGames st
  /\ holdsOf id st' = holdsOf id st
  /\ (exists b,
        bookings st !! id = Some b /\ status b <> CANCELLED
        /\ bookings st' !! id = Some (set_status CANCELLED b))
  /\ boardGames st' = foldl incrementStock (boardGames st) (holdsOf id st).
Proof.
  unfold answer, after.
  destruct (BookingsService.cancel cfg now user id (fresh st)) as [r' w'] eqn:Hrun.
  cbn [fst snd]. intros ->. apply cancel_effect in Hrun.
  destruct r as [id' s']. destruct Hrun as (b & Hb & Hst & _ & _ & Hdb).
  cbn [db fresh] in *. cbn zeta. rewrite Hdb. unfold cancelled, holdsOf.
  cbn [bookings boardGames bookingGames set_auditLogs set_boardGames
       set_bookings].
  split_and!; try done.
  exists b. split_and!; [done | done |]. by rewrite lookup_insert_eq.
Qed.

Lemma C6_holds_kept_on_cancel_witness :
  bookingGames
    (after (BookingsService.cancel Sample.cfg (Sample.at_ 15 0) Sample.alice
              Sample.B1) Sample.booked)
  = bookingGames Sample.booked.
Proof.
  refine (proj1 (C6_holds_kept_on_cancel Sample.cfg (Sample.at_ 15 0)
                   Sample.alice Sample.B1 Sample.booked
                   (Sample.B1, CANCELLED) _)).
  reflexivity.
Defined.

(** Alice books T1 with one copy of the game and cancels three hours
    before the start: the cancellation is accepted, the booking is
    CANCELLED, and its hold row is still in [booking_games]. *)
Lemma C6_counterexample :
  answer (BookingsService.cancel Sample.cfg (Sample.at_ 15 0) Sample.alice
            Sample.B1) Sample.booked
  = Ok (Sample.B1, CANCELLED)
  /\ status
       <$> bookings (run Sample.cfg [Sample.book1; Sample.cancel1] Sample.store)
           !! Sample.B1
     = Some CANCELLED
  /\ holdsOf Sample.B1
       (run Sample.cfg [Sample.book1; Sample.cancel1] Sample.store)
     = [{| bookingId := Sample.B1; boardGameId := Sample.catan;
           quantity := 1 |}].
Proof. split_and!; vm_compute; reflexivity. Qed.

(** ** The stock bound *)

Lemma foldl_decrementStock_bound (P : BoardGame -> Prop) games picks :
  (forall g q, P g -> 1 <= q <= stockAvailable g ->
               P (set_stockAvailable (stockAvailable g - q) g)) ->
  covered games picks ->
  Forall (fun kv : uuid * Z => 1 <= kv.2) picks ->
  (forall id g, games !! id = Some g -> P g) ->
  forall id g, foldl decrementStock games picks !! id = Some g -> P g.
Proof.
  intros HP. revert games.
  induction picks as [|[k q] picks IH]; intros games Hcov Hpos Hinv; [done|].
  cbn [foldl]. destruct Hcov as [Hs Hcov]. inversion Hpos; subst.
  apply IH; [done | done |].
  intros id g. unfold decrementStock. cbn [fst snd]. rewrite lookup_alter.
  case_decide as Hid; [|by apply Hinv]. subst id.
  unfold sufficient in Hs. cbn [fst snd] in Hs.
  destruct (games !! k) as [g0|] eqn:Hg0; [|done].
  intros [= <-]. apply HP; [by eapply Hinv|].
  apply Z.leb_le in Hs. simpl in *. lia.
Qed.

Lemma foldl_incrementStock_nonneg games held :
  Forall (fun h => 1 <= quantity h) held ->
  (forall id g, games !! id = Some g -> 0 <= stockAvailable g) ->
  forall id g,
    foldl incrementStock games held !! id = Some g -> 0 <= stockAvailable g.
Proof.
  revert games. induction held as [|h held IH]; intros games Hpos Hinv; [done|].
  cbn [foldl]. inversion Hpos; subst. apply IH; [done|].
  intros id g. unfold incrementStock. rewrite lookup_alter.
  case_decide as Hid; [|by apply Hinv]. subst id.
  destruct (games !! boardGameId h) as [g0|] eqn:Hg0; [|done].
  intros [= <-]. apply Hinv in Hg0. simpl. lia.
Qed.

(** Every request other than a cancellation keeps [0 <= stockAvailable <=
    stockTotal] for every game. *)
Lemma step_stockBounded cfg op s :
  isCancel op = false -> stockBounded s -> stockBounded (step cfg op s).
Proof.
  intros Hop Hinv.
  destruct op as [now id user dto|now user id|id user dto|user id dto];
    [| done | |]; unfold step, after.
  - destruct (BookingsController.create cfg now id user dto (fresh s))
      as [r w'] eqn:Hrun.
    apply BookingsController_create_effect in Hrun.
    destruct r as [[id' b]|ex]; cbn [snd]; [|by rewrite Hrun].
    destruct Hrun as [Hv Hrun]. apply create_effect in Hrun
      as (st & e & mid & _ & _ & _ & _ & _ & _ & _ & Hcov & Hdb).
    cbn [db fresh] in *. rewrite Hdb. unfold stockBounded.
    cbn [boardGames set_auditLogs set_bookingGames set_boardGames].
    apply andb_true_iff in Hv as [_ Hv].
    apply (foldl_decrementStock_bound stockBound (boardGames s)
             (BookingsService.aggregate (default [] (dto_gameSelections dto))));
      [| done | by apply aggregate_positive | done].
    unfold stockBound. intros g q Hg Hq. simpl. lia.
  - destruct (GamesController.create id user dto (fresh s)) as [r w'] eqn:Hrun.
    apply GamesController_create_effect in Hrun. cbn [snd].
    destruct r; [|by rewrite Hrun].
    destruct Hrun as (_ & Hb & _ & ->). cbn [db fresh].
    intros k g. cbn [boardGames set_auditLogs set_boardGames].
    rewrite lookup_insert. case_decide; [|by apply Hinv].
    intros [= <-]. done.
  - destruct (GamesController.update user id dto (fresh s)) as [r w'] eqn:Hrun.
    apply GamesController_update_effect in Hrun. cbn [snd].
    destruct r as [g'|]; [|by rewrite Hrun].
    destruct Hrun as (g & Hg & _ & Hle & Hnn & ->). cbn [db fresh] in *.
    intros k g0. cbn [boardGames set_auditLogs set_boardGames].
    rewrite lookup_insert. case_decide; [|by apply Hinv].
    intros [= <-]. apply Hinv in Hg. unfold stockBound in *. lia.
Qed.

(** No request ever makes a stock negative. *)
Lemma step_stockNonneg cfg op s : stockNonneg s -> stockNonneg (step cfg op s).
Proof.
  intros [Hg Hh].
  destruct op as [now id user dto|now user id|id user dto|user id dto];
    unfold step, after.
  - destruct (BookingsController.create cfg now id user dto (fresh s))
      as [r w'] eqn:Hrun.
    apply BookingsController_create_effect in Hrun.
    destruct r as [[id' b]|ex]; cbn [snd]; [|by rewrite Hrun].
    destruct Hrun as [Hv Hrun]. apply create_effect in Hrun
      as (st & e & mid & _ & _ & _ & _ & _ & _ & _ & Hcov & Hdb).
    cbn [db fresh] in *. rewrite Hdb.
    apply andb_true_iff in Hv as [_ Hv]. apply aggregate_positive in Hv.
    split; cbn [boardGames bookingGames set_auditLogs set_bookingGames
                set_boardGames].
    + apply (foldl_decrementStock_bound (fun g => 0 <= stockAvailable g)
               (boardGames s)
               (BookingsService.aggregate
                  (default [] (dto_gameSelections dto))));
        [| done | done | done].
      intros g q _ Hq. simpl. lia.
    + intros h Hin. apply elem_of_app in Hin as [Hin|Hin]; [by apply Hh|].
      unfold holdsFor in Hin. apply list_elem_of_fmap in Hin as (p & -> & Hp).
      rewrite Forall_forall in Hv. by apply Hv.
  - destruct (BookingsController.cancel cfg now user id (fresh s))
      as [r w'] eqn:Hrun.
    apply cancel_effect in Hrun.
    destruct r as [[id' st]|ex]; cbn [snd]; [|by rewrite Hrun].
    destruct Hrun as (b & _ & _ & _ & _ & ->). cbn [db fresh].
    split; unfold cancelled;
      cbn [boardGames bookingGames set_auditLogs set_boardGames set_bookings];
      [|done].
    apply foldl_incrementStock_nonneg; [|done].
    apply Forall_forall. intros h Hin. apply holdsOf_elem in Hin as [Hin _].
    by apply Hh.
  - destruct (GamesController.create id user dto (fresh s)) as [r w'] eqn:Hrun.
    apply GamesController_create_effect in Hrun. cbn [snd].
    destruct r; [|by rewrite Hrun].
    destruct Hrun as (_ & Hb & _ & ->). cbn [db fresh].
    split; cbn [boardGames bookingGames set_auditLogs set_boardGames]; [|done].
    intros k g. rewrite lookup_insert. case_decide; [|by apply Hg].
    intros [= <-]. simpl. lia.
  - destruct (GamesController.update user id dto (fresh s)) as [r w'] eqn:Hrun.
    apply GamesController_update_effect in Hrun. cbn [snd].
    destruct r as [g'|]; [|by rewrite Hrun].
    destruct Hrun as (g & Hg0 & _ & Hle & Hnn & ->). cbn [db fresh] in *.
    split; cbn [boardGames bookingGames set_auditLogs set_boardGames]; [|done].
    intros k g0. rewrite lookup_insert. case_decide; [|by apply Hg].
    intros [= <-]. apply Hnn. by eapply Hg.
Qed.

Lemma run_stockNonneg cfg ops s : stockNonneg s -> stockNonneg (run cfg ops s).
Proof.
  unfold run. revert s. induction ops as [|op ops IH]; intros s Hinv; simpl.
  - done.
  - apply IH. by apply step_stockNonneg.
Qed.

(** C2.  The bound [0 <= stockAvailable <= stockTotal] does not survive
    every operation.  The game has one copy, all of it available; the
    bound holds.  Alice books with the copy (stock 0), staff set the
    available stock back to 1 (accepted: 1 <= 1); the bound still holds.
    Alice cancels in time: the cancellation adds the held copy without
    looking at the total, and the game ends with 2 copies available out
    of 1. *)
Theorem C2_stock_bound_broken_by_cancel :
  stockBounded Sample.store
  /\ stockBounded (run Sample.cfg [Sample.book1; Sample.restock] Sample.store)
  /\ boardGames
       (run Sample.cfg [Sample.book1; Sample.restock; Sample.cancel1]
          Sample.store) !! Sample.catan
     = Some {| stockTotal := 1; stockAvailable := 2; game_isActive := true |}
  /\ ~ stockBounded
         (run Sample.cfg [Sample.book1; Sample.restock; Sample.cancel1]
            Sample.store).
Proof.
  assert (H0 : stockBounded Sample.store).
  { intros id g. unfold Sample.store. cbn [boardGames].
    intros Hg. apply lookup_singleton_Some in Hg as [_ <-].
    unfold stockBound. simpl. lia. }
  split_and!.
  - exact H0.
  - change (run Sample.cfg [Sample.book1; Sample.restock] Sample.store)
      with (step Sample.cfg Sample.restock
              (step Sample.cfg Sample.book1 Sample.store)).
    by do 2 (apply step_stockBounded; [done|]).
  - vm_compute. reflexivity.
  - intros H. specialize (H Sample.catan _ ltac:(vm_compute; reflexivity)).
    unfold stockBound in H. simpl in H. lia.
Qed.

(** ** The keys of [booking_games] hold in every reachable store *)

Lemma foldl_decrementStock_dom games picks g :
  is_Some (foldl decrementStock games picks !! g) <-> is_Some (games !! g).
Proof.
  revert games. induction picks as [|p picks IH]; intros games; [done|].
  cbn [foldl]. rewrite IH. unfold decrementStock. rewrite lookup_alter.
  case_decide; [|done]. subst. by rewrite fmap_is_Some.
Qed.

Lemma covered_exists games picks p :
  covered games picks -> p ∈ picks -> is_Some (games !! p.1).
Proof.
  revert games. induction picks as [|p0 picks IH]; intros games Hcov Hin.
  - by apply elem_of_nil in Hin.
  - destruct Hcov as [Hs Hcov]. apply elem_of_cons in Hin as [->|Hin].
    + unfold sufficient in Hs. destruct (games !! p0.1); [by eexists | done].
    + apply (IH _ Hcov) in Hin. unfold decrementStock in Hin.
      rewrite lookup_alter in Hin. case_decide as He; [|done].
      rewrite fmap_is_Some in Hin. by rewrite <- He.
Qed.

Lemma step_holdsWellFormed cfg op s :
  holdsWellFormed s -> holdsWellFormed (step cfg op s).
Proof.
  intros [Hpk Hfk].
  destruct op as [now id user dto|now user id|id user dto|user id dto];
    unfold step, after.
  - destruct (BookingsController.create cfg now id user dto (fresh s))
      as [r w'] eqn:Hrun.
    apply BookingsController_create_effect in Hrun.
    destruct r as [[id' b]|ex]; cbn [snd]; [|by rewrite Hrun].
    destruct Hrun as [_ Hrun]. apply create_effect in Hrun
      as (st & e & mid & _ & _ & _ & _ & _ & Hid & _ & Hcov & Hdb).
    cbn [db fresh] in *. rewrite Hdb.
    set (picks := BookingsService.aggregate _) in *.
    split; cbn [boardGames bookings bookingGames set_auditLogs
                set_bookingGames set_boardGames set_bookings].
    + rewrite map_app. apply NoDup_app. split_and!; [done | |].
      * intros k Hk Hk'.
        apply list_elem_of_fmap in Hk as (h & -> & Hh).
        apply list_elem_of_fmap in Hk' as (h' & Hkey & Hh').
        unfold holdsFor in Hh'.
        apply list_elem_of_fmap in Hh' as (p & -> & Hp).
        injection Hkey as Hb _. cbn in Hb.
        destruct (Hfk h Hh) as [[x Hx] _]. rewrite Hb, Hid in Hx. done.
      * unfold holdsFor. rewrite <- list_fmap_compose.
        pose proof (aggregate_NoDup (default [] (dto_gameSelections dto)))
          as Hnd. fold picks in Hnd. unfold Map_keys in Hnd.
        revert Hnd. generalize picks. intros l.
        induction l as [|p l IHl]; intros Hnd; [constructor|].
        cbn [map fmap list_fmap] in *. apply NoDup_cons in Hnd as [Hp Hnd].
        apply NoDup_cons. split; [|by apply IHl].
        intros Hin. apply list_elem_of_fmap in Hin as (p' & Hkey & Hp').
        injection Hkey as Hg. apply Hp. rewrite Hg.
        apply list_elem_of_fmap. eauto.
    + intros h Hin. apply elem_of_app in Hin as [Hin|Hin].
      * destruct (Hfk h Hin) as [Hb Hg]. split.
        -- rewrite lookup_insert. case_decide; [by eexists | done].
        -- by apply foldl_decrementStock_dom.
      * unfold holdsFor in Hin.
        apply list_elem_of_fmap in Hin as (p & -> & Hp). cbn. split.
        -- rewrite lookup_insert_eq. by eexists.
        -- apply foldl_decrementStock_dom. by eapply covered_exists.
  - destruct (BookingsController.cancel cfg now user id (fresh s))
      as [r w'] eqn:Hrun.
    apply cancel_effect in Hrun.
    destruct r as [[id' st]|ex]; cbn [snd]; [|by rewrite Hrun].
    destruct Hrun as (b & Hb & _ & _ & _ & ->). cbn [db fresh] in *.
    split; unfold cancelled;
      cbn [boardGames bookings bookingGames set_auditLogs set_boardGames
           set_bookings]; [done|].
    intros h Hin. destruct (Hfk h Hin) as [Hbk Hg]. split.
    + rewrite lookup_insert. case_decide; [by eexists | done].
    + by apply foldl_incrementStock_dom.
  - destruct (GamesController.create id user dto (fresh s)) as [r w'] eqn:Hrun.
    apply GamesController_create_effect in Hrun. cbn [snd].
    destruct r; [|by rewrite Hrun].
    destruct Hrun as (_ & _ & _ & ->). cbn [db fresh].
    split; cbn [boardGames bookings bookingGames set_auditLogs set_boardGames];
      [done|].
    intros h Hin. destruct (Hfk h Hin) as [Hbk Hg]. split; [done|].
    rewrite lookup_insert. case_decide; [by eexists | done].
  - destruct (GamesController.update user id dto (fresh s)) as [r w'] eqn:Hrun.
    apply GamesController_update_effect in Hrun. cbn [snd].
    destruct r as [g'|]; [|by rewrite Hrun].
    destruct Hrun as (g & _ & _ & _ & _ & ->). cbn [db fresh] in *.
    split; cbn [boardGames bookings bookingGames set_auditLogs set_boardGames];
      [done|].
    intros h Hin. destruct (Hfk h Hin) as [Hbk Hg]. split; [done|].
    rewrite lookup_insert. case_decide; [by eexists | done].
Qed.

Lemma run_holdsWellFormed cfg ops s :
  holdsWellFormed s -> holdsWellFormed (run cfg ops s).
Proof.
  unfold run. revert s. induction ops as [|op ops IH]; intros s Hinv; simpl.
  - done.
  - apply IH. by apply step_holdsWellFormed.
Qed.

(** * Further properties of the services *)

(** ** Aggregation of the game selections *)

Lemma Map_get_set m k v k' :
  Map_get (Map_set m k v) k' = if decide (k = k') then Some v else Map_get m k'.
Proof.
  induction m as [|[k0 v0] m IH]; cbn [Map_set Map_get].
  - destruct (decide (k = k')); done.
  - destruct (decide (k0 = k)) as [->|Hne]; cbn [Map_get].
    + destruct (decide (k = k')); done.
    + destruct (decide (k0 = k')) as [->|Hne'].
      * by rewrite decide_False by done.
      * done.
Qed.

Lemma aggregate_fold_get selections acc g :
  Map_get
    (fold_left
       (fun aggregateSelection selection =>
          Map_set aggregateSelection (gameId selection)
            (default 0 (Map_get aggregateSelection (gameId selection))
             + sel_quantity selection))
       selections acc) g
  = match Map_get acc g with
    | Some v => Some (v + requestedQty g selections)
    | None =>
        if bool_decide (g ∈ map gameId selections)
        then Some (requestedQty g selections) else None
    end.
Proof.
  revert acc. induction selections as [|sel sels IH]; intros acc.
  - cbn [fold_left requestedQty foldr map].
    destruct (Map_get acc g); [f_equal; lia|].
    rewrite bool_decide_eq_false_2; [done | apply not_elem_of_nil].
  - cbn [fold_left]. rewrite IH, Map_get_set.
    cbn [requestedQty foldr map].
    fold (requestedQty g sels).
    destruct (decide (gameId sel = g)) as [Hg|Hg].
    all: cbv iota beta; try rewrite Hg.
    + destruct (Map_get acc g) as [v|]; cbn [default from_option id].
      * f_equal. lia.
      * by rewrite bool_decide_eq_true_2 by (by left).
    + destruct (Map_get acc g) as [v|]; [done|].
      destruct (decide (g ∈ map gameId sels)) as [Hin|Hnin].
      * rewrite !bool_decide_eq_true_2; [done | by right | done].
      * rewrite !bool_decide_eq_false_2; [done | | done].
        rewrite elem_of_cons. intros [Heq|Hin]; [by apply Hg | by apply Hnin].
Qed.

Lemma Map_get_keys m k : is_Some (Map_get m k) <-> k ∈ Map_keys m.
Proof.
  induction m as [|[k0 v0] m IH]; cbn [Map_get Map_keys map fst].
  - rewrite elem_of_nil. split; [by intros [? ?] | done].
  - rewrite elem_of_cons. destruct (decide (k0 = k)) as [->|Hne].
    + split; [by left | by eexists].
    + rewrite IH. unfold Map_keys. split; [by right|].
      intros [Heq|Hin]; [by subst | done].
Qed.

Lemma aggregate_get selections g :
  Map_get (BookingsService.aggregate selections) g
  = if bool_decide (g ∈ map gameId selections)
    then Some (requestedQty g selections) else None.
Proof. unfold BookingsService.aggregate. by rewrite aggregate_fold_get. Qed.

(** X1.  The aggregated map of a request has one entry per distinct game
    id of the selections, and the entry of a game is the sum of the
    quantities of all selections that name it; a game the request does
    not name has no entry. *)
Theorem aggregate_sums_per_game selections :
  NoDup (Map_keys (BookingsService.aggregate selections))
  /\ (forall g,
        g ∈ Map_keys (BookingsService.aggregate selections)
        <-> g ∈ map gameId selections)
  /\ (forall g,
        Map_get (BookingsService.aggregate selections) g
        = if bool_decide (g ∈ map gameId selections)
          then Some (requestedQty g selections) else None).
Proof.
  assert (Hget : forall g,
            Map_get (BookingsService.aggregate selections) g
            = if bool_decide (g ∈ map gameId selections)
              then Some (requestedQty g selections) else None).
  { intros g. unfold BookingsService.aggregate.
    by rewrite aggregate_fold_get. }
  split_and!; [apply aggregate_NoDup | | exact Hget].
  intros g. rewrite <- Map_get_keys, Hget.
  case_bool_decide as Hin; split; done.
Qed.

(** ** Whose booking it is *)

Lemma firstWhere_profile user member_id st :
  profileOf user member_id st ->
  exists m,
    firstWhere (fun (_ : uuid) m => bool_decide (member_userId m = userId user))
      (members st) = Some (member_id, m).
Proof.
  intros [(m & Hm & Hu) Huniq].
  destruct (firstWhere _ (members st)) as [[k m']|] eqn:Hf.
  - apply firstWhere_Some in Hf as [Hk Hp]. apply bool_decide_eq_true in Hp.
    rewrite (Huniq k m' Hk Hp). by eexists.
  - rewrite firstWhere_None in Hf. specialize (Hf _ _ Hm).
    by rewrite bool_decide_eq_true_2 in Hf.
Qed.

(** X2.  [resolveMemberId] never writes.  A member with no profile is
    refused; a member with a profile books for that profile, and naming
    any other member id is refused.  Staff and administrators must name a
    member id, which must exist, and then book for it. *)
Theorem resolveMemberId_outcomes user requested st :
  after (BookingsService.resolveMemberId user requested) st = st
  /\ (role user = MEMBER ->
      (forall k m, members st !! k = Some m ->
                   member_userId m <> userId user) ->
      answer (BookingsService.resolveMemberId user requested) st
      = Throw (ForbiddenException MsgProfileMissing))
  /\ (forall member_id,
        role user = MEMBER -> profileOf user member_id st ->
        answer (BookingsService.resolveMemberId user requested) st
        = match requested with
          | None => Ok member_id
          | Some r => if decide (r = member_id) then Ok member_id
                      else Throw (ForbiddenException MsgMemberMismatch)
          end)
  /\ (role user <> MEMBER ->
      answer (BookingsService.resolveMemberId user requested) st
      = match requested with
        | None => Throw (BadRequestException MsgMemberIdRequired)
        | Some r =>
            match members st !! r with
            | Some _ => Ok r
            | None => Throw (NotFoundException MsgMemberNotFound)
            end
        end).
Proof.
  split_and!.
  - unfold after. apply resolveMemberId_readonly.
  - intros Hr Hnone. unfold answer, BookingsService.resolveMemberId,
      member_findFirst.
    rewrite decide_True by done. rewrite bind_query. cbn [db fresh].
    assert (Hf : firstWhere
                   (fun (_ : uuid) m =>
                      bool_decide (member_userId m = userId user))
                   (members st) = None).
    { apply firstWhere_None. intros k m Hk.
      apply bool_decide_eq_false. by eapply Hnone. }
    by rewrite Hf.
  - intros mid Hr Hprof. unfold answer, BookingsService.resolveMemberId,
      member_findFirst.
    rewrite decide_True by done. rewrite bind_query. cbn [db fresh].
    destruct (firstWhere_profile user mid st Hprof) as [m Hf]. rewrite Hf.
    destruct requested as [r|]; [|done].
    destruct (decide (r = mid)) as [->|Hne].
    + by rewrite decide_False by (by intros H; apply H).
    + by rewrite decide_True by done.
  - intros Hr. unfold answer, BookingsService.resolveMemberId,
      member_findUnique.
    rewrite decide_False by done.
    destruct requested as [r|]; [|done].
    rewrite bind_query. cbn [db fresh].
    by destruct (members st !! r).
Qed.

Lemma resolveMemberId_outcomes_witness :
  answer (BookingsService.resolveMemberId Sample.alice (Some Sample.T2))
    Sample.store
  = Throw (ForbiddenException MsgMemberMismatch).
Proof.
  refine (proj1 (proj2 (proj2
            (resolveMemberId_outcomes Sample.alice (Some Sample.T2)
               Sample.store)))
            Sample.aliceProfile _ _).
  - reflexivity.
  - split.
    + eexists. split; reflexivity.
    + intros k m Hk _. unfold Sample.store in Hk. cbn [members] in Hk.
      apply lookup_singleton_Some in Hk as [<- _]. reflexivity.
Defined.

(** ** The two time rules together *)

Lemma localDay_shift off s d :
  localDay off (s + d) = localDay off s
  <-> 0 <= timeOfDay off s + d < 86400000.
Proof.
  unfold localDay, timeOfDay, DAY_IN_MS, MINUTES_IN_MS.
  change (24 * 60 * (60 * 1000)) with 86400000.
  pose proof (Z.div_mod (s + off) 86400000 ltac:(lia)) as Hs.
  pose proof (Z.mod_pos_bound (s + off) 86400000 ltac:(lia)) as Hr.
  set (q := (s + off) `div` 86400000) in *.
  set (r := (s + off) `mod` 86400000) in *.
  replace (s + d + off) with (q * 86400000 + (r + d)) by lia.
  split.
  - intros Hq.
    pose proof (Z.div_mod (q * 86400000 + (r + d)) 86400000 ltac:(lia)) as He.
    pose proof (Z.mod_pos_bound (q * 86400000 + (r + d)) 86400000 ltac:(lia)).
    rewrite Hq in He. lia.
  - intros Hd. rewrite Z.div_add_l by lia. rewrite (Z.div_small (r + d)); lia.
Qed.

(** X3.  A request passes both time rules exactly when it ends one slot
    after it starts, it starts at or after [openHour]:00 local time, and
    one slot after the start is still on the same local day and not after
    [closeHour]:00.  In particular a booking that would end at midnight or
    later is refused whatever the closing hour. *)
Theorem time_rules_bookable_starts off s e slot openHour closeHour :
  (isValidSlotDuration s e slot = true
   /\ isWithinOpeningHours off s e openHour closeHour = true)
  <-> (e = s + slot * 60000
       /\ openHour * 3600000 <= timeOfDay off s
       /\ timeOfDay off s + slot * 60000 <= closeHour * 3600000
       /\ 0 <= timeOfDay off s + slot * 60000 < 86400000).
Proof.
  rewrite isValidSlotDuration_spec, isWithinOpeningHours_true_iff.
  rewrite setHours_le_iff.
  assert (Hclose : forall d,
            s + d <= setHours off s closeHour
            <-> timeOfDay off s + d <= closeHour * 3600000).
  { intros d. unfold setHours, timeOfDay, localDay, DAY_IN_MS, HOUR_IN_MS,
      MINUTES_IN_MS.
    change (24 * 60 * (60 * 1000)) with 86400000.
    change (60 * (60 * 1000)) with 3600000.
    pose proof (Z.div_mod (s + off) 86400000 ltac:(lia)). lia. }
  split.
  - intros (He & Hday & Hopen & Hend).
    assert (e = s + slot * 60000) as -> by lia.
    apply Hclose in Hend. symmetry in Hday. apply localDay_shift in Hday.
    lia.
  - intros (-> & Hopen & Hend & Hday).
    split_and!; [lia | | done | by apply Hclose].
    symmetry. by apply localDay_shift.
Qed.

(** ** The advisory stock check *)

Lemma Map_get_elem m k v :
  NoDup (Map_keys m) -> (k, v) ∈ m -> Map_get m k = Some v.
Proof.
  induction m as [|[k0 v0] m IH]; intros Hnd Hin.
  - by apply elem_of_nil in Hin.
  - change (Map_keys ((k0, v0) :: m)) with (k0 :: Map_keys m) in Hnd.
    apply NoDup_cons in Hnd as [Hk0 Hnd]. cbn [Map_get].
    apply elem_of_cons in Hin as [[= -> ->]|Hin].
    + by rewrite decide_True.
    + rewrite decide_False; [by apply IH|].
      intros ->. apply Hk0. unfold Map_keys. apply list_elem_of_fmap.
      by exists (k, v).
Qed.

Lemma forEach_throwIf {A} (xs : list A) (c : A -> bool) e w :
  forEach xs (fun x => throwIf (c x) e) w
  = (if forallb (fun x => negb (c x)) xs then Ok tt else Throw e, w).
Proof.
  induction xs as [|x xs IH]; cbn [forEach forallb]; [done|].
  rewrite bind_throwIf. destruct (c x); [done|]. by rewrite IH.
Qed.

(** The active games among the keys of the picks. *)
Lemma activeGames_all picks games :
  NoDup (Map_keys picks) ->
  length
    (map_to_list
       (rowsWhere (fun id g => bool_decide (id ∈ Map_keys picks)
                               && game_isActive g) games))
  = length picks
  <-> forall k, k ∈ Map_keys picks ->
        exists g, games !! k = Some g /\ game_isActive g = true.
Proof.
  intros Hnd.
  set (F := rowsWhere _ games).
  assert (HF : forall k g, F !! k = Some g <->
                 games !! k = Some g /\ k ∈ Map_keys picks
                 /\ game_isActive g = true).
  { intros k g. unfold F. rewrite rowsWhere_lookup, andb_true_iff,
      bool_decide_eq_true. tauto. }
  assert (Hsub : dom F ⊆ (list_to_set (Map_keys picks) : gset uuid)).
  { intros k Hk. apply elem_of_dom in Hk as [g Hg]. apply HF in Hg.
    apply elem_of_list_to_set. tauto. }
  assert (Hlen : length picks
                 = size (list_to_set (Map_keys picks) : gset uuid)).
  { rewrite size_list_to_set by done. unfold Map_keys.
    by rewrite length_map. }
  rewrite length_map_to_list, <- size_dom, Hlen. split.
  - intros Hsize k Hk.
    assert (Heq : dom F = (list_to_set (Map_keys picks) : gset uuid)).
    { apply set_subseteq_size_eq; [done | lia]. }
    assert (Hin : k ∈ dom F) by (rewrite Heq; by apply elem_of_list_to_set).
    apply elem_of_dom in Hin as [g Hg]. apply HF in Hg. exists g. tauto.
  - intros Hall. f_equal. apply set_eq. intros k. split; [apply Hsub|].
    intros Hk. apply elem_of_list_to_set in Hk.
    destruct (Hall k Hk) as (g & Hg & Ha).
    apply elem_of_dom. exists g. by apply HF.
Qed.

(** The advisory check passes exactly when every aggregated pick names an
    active game with enough copies available. *)
Lemma checkGames_ok_iff picks w :
  NoDup (Map_keys picks) ->
  (BookingsService.checkGames picks w).1 = Ok tt <-> stocked (db w) picks.
Proof.
  intros Hnd. unfold BookingsService.checkGames, stocked.
  destruct picks as [|p0 picks'] eqn:Hp.
  { cbn. split; [|done]. intros _ pick Hin. by apply elem_of_nil in Hin. }
  rewrite <- Hp in *. clear Hp p0 picks'.
  destruct (0 <? Z.of_nat (length picks)) eqn:Hlen.
  2:{ apply Z.ltb_ge in Hlen. destruct picks; [|simpl in Hlen; lia].
      split; [|done]. intros _ pick Hin. by apply elem_of_nil in Hin. }
  unfold boardGame_findMany_active. rewrite bind_query, bind_throwIf.
  cbn [db].
  set (games := map_to_list _).
  assert (Hgames : forall k g, (k, g) ∈ games <->
            boardGames (db w) !! k = Some g /\ k ∈ Map_keys picks
            /\ game_isActive g = true).
  { intros k g. unfold games. rewrite elem_of_map_to_list, rowsWhere_lookup,
      andb_true_iff, bool_decide_eq_true. tauto. }
  pose proof (activeGames_all picks (boardGames (db w)) Hnd) as Hall.
  fold games in Hall.
  destruct (Nat.eqb (length games) (length picks)) eqn:Heq; cbn [negb].
  - apply Nat.eqb_eq in Heq. rewrite forEach_throwIf. cbn [fst].
    pose proof (proj1 Hall Heq) as Hact. clear Heq. rename Hact into Heq.
    split.
    + intros Hloop pick Hin.
      destruct (forallb _ games) eqn:Hfa; [|done].
      rewrite forallb_forall in Hfa.
      destruct pick as [k q]. cbn [fst snd].
      destruct (Heq k) as (g & Hg & Ha).
      { unfold Map_keys. apply list_elem_of_fmap. by exists (k, q). }
      exists g. split_and!; [done | done |].
      assert (Hkg : (k, g) ∈ games).
      { apply Hgames. split_and!; [done | | done].
        unfold Map_keys. apply list_elem_of_fmap. by exists (k, q). }
      apply list_elem_of_In, Hfa in Hkg. cbn [fst snd] in Hkg.
      rewrite (Map_get_elem _ _ _ Hnd Hin) in Hkg. cbn in Hkg.
      apply negb_true_iff, Z.ltb_ge in Hkg. done.
    + intros Hst.
      assert (Hfa : forallb
                (fun x : uuid * BoardGame =>
                   negb (stockAvailable x.2
                         <? default 0 (Map_get picks x.1))) games = true).
      { apply forallb_forall. intros [k g] Hin.
        apply list_elem_of_In, Hgames in Hin as (Hg & Hk & Ha).
        unfold Map_keys in Hk. apply list_elem_of_fmap in Hk as ([k' q] & -> & Hq).
        cbn [fst snd] in *.
        destruct (Hst (k', q) Hq) as (g' & Hg' & _ & Hle). cbn [fst snd] in *.
        rewrite Hg in Hg'. injection Hg' as <-.
        rewrite (Map_get_elem _ _ _ Hnd Hq). cbn.
        apply negb_true_iff, Z.ltb_ge. done. }
      by rewrite Hfa.
  - apply Nat.eqb_neq in Heq. cbn [fst]. split; [done|].
    intros Hst. exfalso. apply Heq. apply (proj2 Hall).
    intros k Hk. unfold Map_keys in Hk.
    apply list_elem_of_fmap in Hk as ([k' q] & -> & Hq).
    destruct (Hst (k', q) Hq) as (g & Hg & Ha & _). eauto.
Qed.

(** ** When [create] accepts *)

Lemma stocked_sufficient st picks :
  stocked st picks -> forallb (sufficient (boardGames st)) picks = true.
Proof.
  intros Hst. apply forallb_forall. intros [k q] Hin.
  apply list_elem_of_In in Hin. destruct (Hst _ Hin) as (g & Hg & _ & Hle).
  cbn [fst snd] in *. unfold sufficient. cbn [fst snd]. rewrite Hg.
  by apply Z.leb_le.
Qed.

Lemma resolveMemberId_member user requested w member_id w1 :
  BookingsService.resolveMemberId user requested w = (Ok member_id, w1) ->
  is_Some (members (db w) !! member_id).
Proof.
  unfold BookingsService.resolveMemberId, member_findFirst, member_findUnique.
  destruct (decide (role user = MEMBER)).
  - rewrite bind_query.
    destruct (firstWhere _ _) as [[mid m]|] eqn:Hf; [|done].
    apply firstWhere_Some in Hf as [Hk _].
    destruct requested as [r|].
    + destruct (decide (r <> mid)); [done|]. intros [= <- <-]. by eexists.
    + intros [= <- <-]. by eexists.
  - destruct requested as [r|]; [|done].
    rewrite bind_query.
    destruct (members (db w) !! r) eqn:Hr; [|done].
    intros [= <- <-]. by eexists.
Qed.

Lemma no_overlap_count st table_id s e :
  (forall k b, bookings st !! k = Some b -> tableId b = table_id ->
               status b <> CANCELLED ->
               ~ overlap (startAt b) (endAt b) s e) ->
  countWhere (BookingsService.overlapWhere table_id s e) (bookings st) = 0.
Proof.
  intros H. apply countWhere_zero. intros k b Hk.
  apply not_true_iff_false. rewrite overlapWhere_true.
  intros (Ht & Hst & Hov). by eapply H.
Qed.

(** X4.  On a store that respects the keys of [booking_games], a request
    that passes every check (parseable dates, exact slot, opening hours,
    start in the future, a resolved member, an active table large enough,
    the quota not reached, every picked game active with enough copies, no
    live booking of the table overlapping, a fresh id) is accepted: the
    answer is the new booking in status CONFIRMED, and the store gains
    that booking, one hold row per aggregated pick, the decrements of the
    picked stocks and one audit record, and nothing else. *)
Theorem create_accepts cfg now new_id user dto st s e member_id table :
  let picks :=
    BookingsService.aggregate (default [] (dto_gameSelections dto)) in
  holdsWellFormed st ->
  dto_startAt dto = Some s -> dto_endAt dto = Some e ->
  e - s = bookingSlotMinutes cfg * 60000 -> 0 < bookingSlotMinutes cfg ->
  isWithinOpeningHours (localOffsetMs cfg) s e
    (bookingOpenHour cfg) (bookingCloseHour cfg) = true ->
  now < s ->
  answer (BookingsService.resolveMemberId user (dto_memberId dto)) st
  = Ok member_id ->
  tables st !! dto_tableId dto = Some table -> table_isActive table = true ->
  dto_peopleCount dto <= capacity table ->
  countWhere (BookingsService.activeFutureWhere member_id now) (bookings st)
  < maxFutureActiveBookings cfg ->
  stocked st picks ->
  (forall k b, bookings st !! k = Some b -> tableId b = dto_tableId dto ->
               status b <> CANCELLED ->
               ~ overlap (startAt b) (endAt b) s e) ->
  bookings st !! new_id = None ->
  answer (BookingsService.create cfg now new_id user dto) st
  = Ok (new_id, newBooking user member_id dto s e)
  /\ after (BookingsService.create cfg now new_id user dto) st
     = set_auditLogs
         (auditLogs st ++
            [{| actorUserId := userId user; action := BOOKING_CREATE;
                entityId := new_id |}])
         (set_bookingGames (bookingGames st ++ holdsFor new_id picks)
            (set_boardGames (foldl decrementStock (boardGames st) picks)
               (set_bookings
                  (<[new_id := newBooking user member_id dto s e]>
                     (bookings st))
                  st))).
Proof.
  intros picks [Hpk Hfk] Hs He Hslot Hpos Hopen Hfut Hmem Htab Hact Hcap
    Hquota Hstock Hfree Hid.
  assert (Hans : answer (BookingsService.create cfg now new_id user dto) st
                 = Ok (new_id, newBooking user member_id dto s e)).
  { unfold answer, BookingsService.create. rewrite Hs, He. cbn zeta.
    rewrite !bind_throwIf.
    rewrite (proj2 (isValidSlotDuration_spec s e _) Hslot), Hopen.
    cbn [negb]. rewrite (proj2 (Z.leb_gt _ _) Hfut).
    unfold answer in Hmem.
    pose proof (resolveMemberId_readonly user (dto_memberId dto) (fresh st))
      as Hro.
    destruct (BookingsService.resolveMemberId user (dto_memberId dto)
                (fresh st)) as [r w1] eqn:Hres.
    cbn [fst snd] in Hmem, Hro. subst r.
    rewrite (bind_ok _ _ _ _ _ Hres).
    apply resolveMemberId_member in Hres. cbn [db fresh] in Hres, Hro.
    unfold tableEntity_findUnique. rewrite bind_query. cbn beta.
    rewrite Hro, Htab. rewrite !bind_throwIf. rewrite Hact. cbn [negb].
    rewrite (proj2 (Z.ltb_ge _ _) Hcap).
    unfold booking_count. rewrite bind_query, bind_throwIf. cbn [db].
    rewrite (proj2 (Z.leb_gt _ _) Hquota). cbn zeta. fold picks.
    match goal with |- context [bind (BookingsService.checkGames picks) _ ?w2] =>
      pose proof (checkGames_readonly picks w2) as Hro2;
      pose proof (proj2 (checkGames_ok_iff picks w2
                           (aggregate_NoDup _)) Hstock) as Hck;
      destruct (BookingsService.checkGames picks w2) as [r3 w3] eqn:Hchk end.
    cbn [fst snd db] in Hck, Hro2. subst r3.
    rewrite (bind_ok _ _ _ _ _ Hchk).
    destruct (createBody_run new_id user member_id dto s e picks w3)
      as [w4 Hbody].
    - apply aggregate_NoDup.
    - rewrite Hro2. intros h Hin. by apply Hfk.
    - rewrite Hro2. by apply no_overlap_count.
    - lia.
    - by rewrite Hro2.
    - by rewrite Hro2.
    - rewrite Hro2, Htab. by eexists.
    - rewrite Hro2, (stocked_sufficient st picks Hstock) in Hbody.
      assert (Htx : transaction
                      (BookingsService.createBody new_id user member_id dto
                         s e picks) w3
                    = (Ok (new_id, newBooking user member_id dto s e), w4))
        by by apply transaction_ok.
      rewrite (bind_ok _ _ _ _ _ Htx). done. }
  split; [exact Hans|].
  unfold answer, after in *.
  destruct (BookingsService.create cfg now new_id user dto (fresh st))
    as [r w'] eqn:Hrun. cbn [fst snd] in *. subst r.
  apply create_effect in Hrun
    as (s' & e' & mid' & Hs' & He' & _ & Hb & _ & _ & _ & _ & Hdb).
  rewrite Hs in Hs'. rewrite He in He'. injection Hs' as <-.
  injection He' as <-.
  assert (mid' = member_id) as ->.
  { unfold newBooking in Hb. by injection Hb. }
  exact Hdb.
Qed.

Lemma Sample_store_wf : holdsWellFormed Sample.store.
Proof.
  split.
  - apply NoDup_nil_2.
  - intros h Hin. by apply elem_of_nil in Hin.
Defined.

Lemma create_accepts_witness :
  answer (BookingsService.create Sample.cfg 0 Sample.B1 Sample.alice
            (Sample.request (Sample.at_ 18 0) (Sample.at_ 19 30) 4
               Sample.oneCatan)) Sample.store
  = Ok (Sample.B1, Sample.booking1).
Proof.
  refine (proj1 (create_accepts Sample.cfg 0 Sample.B1 Sample.alice
                   (Sample.request (Sample.at_ 18 0) (Sample.at_ 19 30) 4
                      Sample.oneCatan)
                   Sample.store (Sample.at_ 18 0) (Sample.at_ 19 30)
                   Sample.aliceProfile Sample.table4
                   Sample_store_wf _ _ _ _ _ _ _ _ _ _ _ _ _ _)).
  all: try reflexivity.
  - intros pick Hin. vm_compute in Hin.
    apply list_elem_of_singleton in Hin. subst pick.
    eexists. split_and!; [reflexivity | reflexivity |].
    vm_compute. discriminate.
  - intros k b Hk. unfold Sample.store in Hk. cbn [bookings] in Hk.
    by rewrite lookup_empty in Hk.
Defined.

(** ** What [create] never answers *)

Lemma resolveMemberId_throws user requested w ex w1 :
  BookingsService.resolveMemberId user requested w = (Throw ex, w1) ->
  ex = ForbiddenException MsgProfileMissing
  \/ ex = ForbiddenException MsgMemberMismatch
  \/ ex = BadRequestException MsgMemberIdRequired
  \/ ex = NotFoundException MsgMemberNotFound.
Proof.
  unfold BookingsService.resolveMemberId, member_findFirst, member_findUnique.
  destruct (decide (role user = MEMBER)).
  - rewrite bind_query.
    destruct (firstWhere _ _) as [[mid m]|]; [|intros [= <- _]; auto].
    destruct requested as [r|]; [|done].
    destruct (decide (r <> mid)); [|done]. intros [= <- _]. auto.
  - destruct requested as [r|]; [|intros [= <- _]; auto].
    rewrite bind_query.
    destruct (members (db w) !! r); [done|]. intros [= <- _]. auto.
Qed.

Lemma checkGames_throws picks w ex w1 :
  BookingsService.checkGames picks w = (Throw ex, w1) ->
  ex = BadRequestException MsgGamesUnavailable
  \/ ex = BadRequestException MsgInsufficientStock.
Proof.
  unfold BookingsService.checkGames, boardGame_findMany_active.
  destruct (0 <? _); [|done].
  rewrite bind_query, bind_throwIf.
  destruct (negb _); [intros [= <- _]; auto|].
  rewrite forEach_throwIf. destruct (forallb _ _); [done|].
  intros [= <- _]. auto.
Qed.

(** X5.  Served from a store that respects the keys of [booking_games],
    with a fresh id and a positive slot length, [create] never answers
    with the stock conflict of the conditional decrement nor with a
    database fault: once the advisory check has passed, the decrements of
    the same request find the stock they need, and the insert is accepted
    by every constraint of the schema.  The only conflict it can report is
    the table being taken. *)
Theorem create_never_stock_conflict cfg now new_id user dto st ex :
  holdsWellFormed st -> bookings st !! new_id = None ->
  0 < bookingSlotMinutes cfg ->
  answer (BookingsService.create cfg now new_id user dto) st = Throw ex ->
  ex <> ConflictException MsgStockChanged
  /\ (forall f, ex <> PrismaError f)
  /\ (forall m, ex = ConflictException m -> m = MsgTableAlreadyBooked).
Proof.
  intros [Hpk Hfk] Hid Hpos. unfold answer.
  destruct (BookingsService.create cfg now new_id user dto (fresh st))
    as [r w'] eqn:Hrun. cbn [fst]. intros ->. revert Hrun.
  unfold BookingsService.create.
  destruct (dto_startAt dto) as [s|]; [|by intros [= <- _]].
  destruct (dto_endAt dto) as [e|]; [|by intros [= <- _]].
  cbn zeta. rewrite !bind_throwIf.
  destruct (isValidSlotDuration _ _ _) eqn:Hslot; cbn [negb];
    [|by intros [= <- _]].
  apply isValidSlotDuration_spec in Hslot.
  destruct (negb (isWithinOpeningHours _ _ _ _ _)); [by intros [= <- _]|].
  destruct (s <=? now); [by intros [= <- _]|].
  unfold bind at 1.
  pose proof (resolveMemberId_readonly user (dto_memberId dto) (fresh st))
    as Hro.
  destruct (BookingsService.resolveMemberId _ _ (fresh st))
    as [[mid|ex1] w1] eqn:Hres; cbn [snd fresh db] in Hro.
  2:{ intros [= <- _]. apply resolveMemberId_throws in Hres.
      destruct Hres as [-> | [-> | [-> | ->]]]; by split_and!. }
  apply resolveMemberId_member in Hres. cbn [db fresh] in Hres.
  unfold tableEntity_findUnique. rewrite bind_query. rewrite Hro.
  destruct (tables st !! dto_tableId dto) as [table|] eqn:Htab;
    [|by intros [= <- _]].
  rewrite !bind_throwIf.
  destruct (negb (table_isActive table)); [by intros [= <- _]|].
  destruct (capacity table <? dto_peopleCount dto); [by intros [= <- _]|].
  unfold booking_count. rewrite bind_query, bind_throwIf.
  destruct (maxFutureActiveBookings cfg <=? _); [by intros [= <- _]|].
  cbn zeta. set (picks := BookingsService.aggregate _).
  unfold bind at 1.
  match goal with |- context [BookingsService.checkGames picks ?w2] =>
    pose proof (checkGames_readonly picks w2) as Hro2;
    pose proof (proj1 (checkGames_ok_iff picks w2 (aggregate_NoDup _)))
      as Hck;
    destruct (BookingsService.checkGames picks w2) as [[[]|ex3] w3] eqn:Hchk
  end; cbn [fst snd db] in Hck, Hro2.
  2:{ intros [= <- _]. apply checkGames_throws in Hchk.
      destruct Hchk as [-> | ->]; by split_and!. }
  specialize (Hck eq_refl).
  unfold bind at 1.
  destruct (Z.eq_dec
              (countWhere
                 (BookingsService.overlapWhere (dto_tableId dto) s e)
                 (bookings st)) 0) as [Hc|Hc].
  - destruct (createBody_run new_id user mid dto s e picks w3) as [w4 Hbody].
    + apply aggregate_NoDup.
    + rewrite Hro2. intros h Hin. by apply Hfk.
    + by rewrite Hro2.
    + lia.
    + by rewrite Hro2.
    + by rewrite Hro2.
    + rewrite Hro2, Htab. by eexists.
    + rewrite Hro2, (stocked_sufficient st picks Hck) in Hbody.
      unfold transaction. rewrite Hbody.
      unfold auditService_record, bind, statement, ret. done.
  - pose proof (countWhere_nonneg
                  (BookingsService.overlapWhere (dto_tableId dto) s e)
                  (bookings st)).
    unfold transaction.
    rewrite createBody_overlap by (rewrite Hro2; lia).
    intros [= <- _]. split_and!; [done | done |]. by intros m [= <-].
Qed.

Lemma create_never_stock_conflict_witness :
  ConflictException MsgTableAlreadyBooked <> ConflictException MsgStockChanged.
Proof.
  refine (proj1 (create_never_stock_conflict Sample.cfg 0 Sample.B2
                   Sample.alice
                   (Sample.request (Sample.at_ 18 30) (Sample.at_ 20 0) 4 [])
                   Sample.booked (ConflictException MsgTableAlreadyBooked)
                   Sample_booked_wf _ _ _)).
  - reflexivity.
  - reflexivity.
  - reflexivity.
Defined.

(** ** Who may cancel, and in which order [cancel] refuses *)

(** X6.  [cancel] answers not-found for an unknown booking.  A member who
    does not own the booking is refused as such whatever the state of the
    booking and the clock; staff and administrators may cancel any
    booking.  For an actor who may cancel, a booking that is already
    cancelled is refused as such whatever the clock.  None of these
    refusals changes the store. *)
Theorem cancel_refusals cfg now user id st :
  (bookings st !! id = None ->
   answer (BookingsService.cancel cfg now user id) st
   = Throw (NotFoundException MsgBookingNotFound)
   /\ after (BookingsService.cancel cfg now user id) st = st)
  /\ (forall b,
        bookings st !! id = Some b ->
        (~ mayCancel user b st ->
         answer (BookingsService.cancel cfg now user id) st
         = Throw (ForbiddenException MsgNotOwner)
         /\ after (BookingsService.cancel cfg now user id) st = st)
        /\ (mayCancel user b st -> status b = CANCELLED ->
            answer (BookingsService.cancel cfg now user id) st
            = Throw (BadRequestException MsgAlreadyCancelled)
            /\ after (BookingsService.cancel cfg now user id) st = st)
        /\ (role user <> MEMBER -> mayCancel user b st)).
Proof.
  split.
  - intros Hb. unfold answer, after, BookingsService.cancel,
      booking_findUnique.
    rewrite bind_query. cbn [db fresh]. by rewrite Hb.
  - intros b Hb. split_and!.
    + intros Hno. unfold answer, after.
      destruct (BookingsService.cancel cfg now user id (fresh st))
        as [r w'] eqn:Hrun.
      pose proof (cancel_effect _ _ _ _ _ _ _ Hrun) as Heff.
      revert Hrun. unfold BookingsService.cancel, booking_findUnique.
      rewrite bind_query. cbn [db fresh]. rewrite Hb.
      unfold bind at 1.
      set (w0 := {| db := st;
                    issued := issued (fresh st) ++ [BookingFindUnique] |}).
      destruct (ownerCheck_run user b w0)
        as (w1 & Hdb1 & [[Hmay _]|[_ Hrun]]); [done|].
      cbn zeta in Hrun. rewrite Hrun. intros [= <- <-]. done.
    + intros Hmay Hst.
      destruct (cancel_twice cfg now user id st b Hb Hst)
        as (ex & Hans & Haft & Hex).
      rewrite Hans, Haft, (Hex Hmay). done.
    + intros Hr Hm. done.
Qed.

Lemma cancel_refusals_witness :
  answer (BookingsService.cancel Sample.cfg 0
            {| userId := 11%positive; role := MEMBER |} Sample.B1)
         Sample.booked
  = Throw (ForbiddenException MsgNotOwner).
Proof.
  refine (proj1 (proj1 (proj2 (cancel_refusals Sample.cfg 0
                   {| userId := 11%positive; role := MEMBER |} Sample.B1
                   Sample.booked) Sample.booking1 _) _)).
  - reflexivity.
  - intros H. destruct (H eq_refl) as (m & Hm & Hu).
    vm_compute in Hm. injection Hm as <-. discriminate Hu.
Defined.

(** ** Updating a game *)



(** ** Who can change the catalogue *)

Lemma sameCatalogue_refl m : sameCatalogue m m.
Proof. intros id. by destruct (m !! id). Qed.

Lemma sameCatalogue_trans m1 m2 m3 :
  sameCatalogue m1 m2 -> sameCatalogue m2 m3 -> sameCatalogue m1 m3.
Proof.
  intros H12 H23 id. specialize (H12 id). specialize (H23 id).
  destruct (m1 !! id), (m2 !! id), (m3 !! id); try done.
  destruct H12, H23. split; congruence.
Qed.

Lemma sameCatalogue_alter m k (f : BoardGame -> BoardGame) :
  (forall g, stockTotal (f g) = stockTotal g
             /\ game_isActive (f g) = game_isActive g) ->
  sameCatalogue m (alter f k m).
Proof.
  intros Hf id. rewrite lookup_alter. case_decide as Hk.
  - subst. destruct (m !! id); cbn; [apply Hf | done].
  - by destruct (m !! id).
Qed.

Lemma sameCatalogue_decrement m picks :
  sameCatalogue m (foldl decrementStock m picks).
Proof.
  revert m. induction picks as [|p picks IH]; intros m.
  - apply sameCatalogue_refl.
  - cbn [foldl]. eapply sameCatalogue_trans; [|apply IH].
    apply sameCatalogue_alter. done.
Qed.

Lemma sameCatalogue_increment m held :
  sameCatalogue m (foldl incrementStock m held).
Proof.
  revert m. induction held as [|h held IH]; intros m.
  - apply sameCatalogue_refl.
  - cbn [foldl]. eapply sameCatalogue_trans; [|apply IH].
    apply sameCatalogue_alter. done.
Qed.

Lemma member_refused_catalogue user :
  role user = MEMBER -> rolesAllow [STAFF; ADMIN] user = false.
Proof.
  intros Hr. unfold rolesAllow. apply bool_decide_eq_false. rewrite Hr.
  intros Hin. apply elem_of_cons in Hin as [Hin|Hin]; [done|].
  apply list_elem_of_singleton in Hin. done.
Qed.

Lemma step_sameCatalogue cfg op s :
  notByStaff op -> sameCatalogue (boardGames s) (boardGames (step cfg op s)).
Proof.
  intros Hop.
  destruct op as [now id user dto|now user id|id user dto|user id dto];
    unfold step, after.
  - destruct (BookingsController.create cfg now id user dto (fresh s))
      as [r w'] eqn:Hrun.
    apply BookingsController_create_effect in Hrun.
    destruct r as [[id' b]|ex]; cbn [snd];
      [|rewrite Hrun; apply sameCatalogue_refl].
    destruct Hrun as [_ Hrun]. apply create_effect in Hrun
      as (st & e & mid & _ & _ & _ & _ & _ & _ & _ & _ & Hdb).
    cbn [db fresh] in *. rewrite Hdb.
    cbn [boardGames set_auditLogs set_bookingGames set_boardGames].
    apply sameCatalogue_decrement.
  - destruct (BookingsController.cancel cfg now user id (fresh s))
      as [r w'] eqn:Hrun.
    apply cancel_effect in Hrun.
    destruct r as [[id' st]|ex]; cbn [snd];
      [|rewrite Hrun; apply sameCatalogue_refl].
    destruct Hrun as (b & _ & _ & _ & _ & ->). unfold cancelled.
    cbn [db fresh boardGames set_auditLogs set_boardGames].
    apply sameCatalogue_increment.
  - cbn in Hop. unfold GamesController.create. rewrite bind_throwIf.
    rewrite (member_refused_catalogue user Hop). cbn [negb snd db fresh].
    apply sameCatalogue_refl.
  - cbn in Hop. unfold GamesController.update. rewrite bind_throwIf.
    rewrite (member_refused_catalogue user Hop). cbn [negb snd db fresh].
    apply sameCatalogue_refl.
Qed.

(** X8.  Only staff and administrators change the catalogue.  A catalogue
    request by a member is refused by the role guard and writes nothing;
    and over any sequence of bookings, cancellations and catalogue
    requests by members, the store keeps the same games with the same
    total stock and the same active flag: only the available copies
    move. *)
Theorem catalogue_only_changed_by_staff :
  (forall new_id id user cdto udto st,
     role user = MEMBER ->
     GamesController.create new_id user cdto (fresh st)
     = (Throw (ForbiddenException MsgInsufficientRole), fresh st)
     /\ GamesController.update user id udto (fresh st)
        = (Throw (ForbiddenException MsgInsufficientRole), fresh st))
  /\ (forall cfg ops st,
        Forall notByStaff ops ->
        sameCatalogue (boardGames st) (boardGames (run cfg ops st))).
Proof.
  split.
  - intros new_id id user cdto udto st Hr.
    unfold GamesController.create, GamesController.update.
    rewrite !bind_throwIf, (member_refused_catalogue user Hr). done.
  - intros cfg ops. unfold run.
    induction ops as [|op ops IH]; intros st Hops; cbn [fold_left].
    + apply sameCatalogue_refl.
    + inversion Hops; subst.
      eapply sameCatalogue_trans; [by apply (step_sameCatalogue cfg op)|].
      by apply IH.
Qed.

Lemma catalogue_only_changed_by_staff_witness :
  sameCatalogue (boardGames Sample.store)
    (boardGames
       (run Sample.cfg
          [Sample.book1; Sample.cancel1;
           OpGameUpdate Sample.alice Sample.catan
             {| ug_stockTotal := Some 9; ug_stockAvailable := Some 9;
                ug_isActive := None |}]
          Sample.store)).
Proof.
  refine (proj2 catalogue_only_changed_by_staff Sample.cfg _ Sample.store _).
  repeat constructor.
Defined.

(** ** What [GET /tables] shows *)

Lemma memberAvailability_readonly query :
  readonly (TablesService.memberAvailability query).
Proof.
  unfold TablesService.memberAvailability, tableEntity_findMany,
    booking_findMany.
  apply readonly_bind; [auto with readonly|]. intros tables.
  destruct (q_startAt query) as [[s|]|], (q_endAt query) as [[e|]|];
    auto with readonly.
  apply readonly_bind; auto with readonly.
Qed.

Lemma memberAvailability_active query st rows :
  answer (TablesService.memberAvailability query) st = Ok rows ->
  forall id t av,
    (id, t, av) ∈ rows ->
    tables st !! id = Some t /\ table_isActive t = true.
Proof.
  unfold answer, TablesService.memberAvailability, tableEntity_findMany,
    booking_findMany.
  rewrite bind_query. cbn [db fresh].
  assert (Hact : forall (f : uuid * TableEntity -> bool) id t av,
            (id, t, av)
            ∈ map (fun table => (table.1, table.2, f table))
                (map_to_list
                   (rowsWhere (fun (_ : uuid) t => table_isActive t)
                      (tables st))) ->
            tables st !! id = Some t /\ table_isActive t = true).
  { intros f id t av Hin.
    apply list_elem_of_fmap in Hin as ([id' t'] & [= -> -> _] & Hin).
    by apply elem_of_map_to_list, rowsWhere_lookup in Hin. }
  destruct (q_startAt query) as [[s|]|], (q_endAt query) as [[e|]|];
    try done.
  all: try (intros [= <-]; apply (Hact (fun _ => true))).
  rewrite bind_query. cbn [fst]. intros [= <-]. intros id t av Hin.
  eapply Hact. exact Hin.
Qed.

(** X9.  [GET /tables] never writes.  Staff and administrators get every
    table, active or not.  A member gets only active tables: without a
    complete window each of them is reported available; with a window
    that does not parse the request is refused as a bad request. *)
Theorem tables_list_views user query st :
  after (TablesService.list user query) st = st
  /\ (role user <> MEMBER ->
      exists tables',
        answer (TablesService.list user query) st = Ok (inr tables')
        /\ forall id t, (id, t) ∈ tables' <-> tables st !! id = Some t)
  /\ (role user = MEMBER ->
      (forall rows,
         answer (TablesService.list user query) st = Ok rows ->
         exists rows',
           rows = inl rows'
           /\ forall id t av,
                (id, t, av) ∈ rows' ->
                tables st !! id = Some t /\ table_isActive t = true)
      /\ (q_startAt query = None \/ q_endAt query = None ->
          exists rows',
            answer (TablesService.list user query) st = Ok (inl rows')
            /\ forall id t av,
                 (id, t, av) ∈ rows' <->
                 tables st !! id = Some t /\ table_isActive t = true
                 /\ av = true)
      /\ (q_startAt query = Some None /\ is_Some (q_endAt query)
          \/ is_Some (q_startAt query) /\ q_endAt query = Some None ->
          answer (TablesService.list user query) st
          = Throw (BadRequestException MsgBadInterval))).
Proof.
  split_and!.
  - unfold after, TablesService.list.
    destruct (decide (role user = MEMBER)).
    + apply readonly_bind; [apply memberAvailability_readonly|].
      auto with readonly.
    + unfold tableEntity_findMany. apply readonly_bind; auto with readonly.
  - intros Hr. unfold answer, TablesService.list, tableEntity_findMany.
    rewrite decide_False by done. rewrite bind_query. cbn [db fresh fst ret].
    eexists. split; [reflexivity|]. intros id t.
    rewrite elem_of_map_to_list, rowsWhere_lookup. tauto.
  - intros Hr. unfold answer, TablesService.list.
    rewrite decide_True by done. unfold bind.
    pose proof (memberAvailability_active query st) as Hact.
    unfold answer in Hact.
    destruct (TablesService.memberAvailability query (fresh st))
      as [[rows'|ex] w'] eqn:Hrun; cbn [fst] in *.
    + split_and!.
      * intros rows [= <-]. exists rows'. split; [done|]. by apply Hact.
      * intros Hnone. exists rows'. split; [done|].
        revert Hrun. unfold TablesService.memberAvailability,
          tableEntity_findMany. rewrite bind_query. cbn [db fresh].
        assert (Hrows : forall id t av,
                  (id, t, av)
                  ∈ map (fun table : uuid * TableEntity =>
                           (table.1, table.2, true))
                      (map_to_list
                         (rowsWhere (fun (_ : uuid) t => table_isActive t)
                            (tables st)))
                  <-> tables st !! id = Some t /\ table_isActive t = true
                      /\ av = true).
        { intros id t av. rewrite list_elem_of_fmap. split.
          - intros ([id' t'] & [= -> -> ->] & Hin).
            apply elem_of_map_to_list, rowsWhere_lookup in Hin. tauto.
          - intros (Ht & Ha & ->). exists (id, t). split; [done|].
            by apply elem_of_map_to_list, rowsWhere_lookup. }
        destruct Hnone as [-> | ->].
        -- intros [= <- _]. exact Hrows.
        -- destruct (q_startAt query); intros [= <- _]; exact Hrows.
      * intros Hbad. revert Hrun.
        unfold TablesService.memberAvailability, tableEntity_findMany.
        rewrite bind_query.
        destruct Hbad as [[-> [x ->]]|[[x ->] ->]]; [done|].
        by destruct x.
    + split_and!.
      * done.
      * intros Hnone. revert Hrun.
        unfold TablesService.memberAvailability, tableEntity_findMany.
        rewrite bind_query. destruct Hnone as [-> | ->]; [done|].
        by destruct (q_startAt query).
      * intros Hbad. revert Hrun.
        unfold TablesService.memberAvailability, tableEntity_findMany,
          booking_findMany.
        rewrite bind_query.
        destruct Hbad as [[-> [x ->]]|[[x ->] ->]].
        -- by intros [= <- _].
        -- destruct x; by intros [= <- _].
Qed.

Lemma tables_list_views_witness :
  exists tables',
    answer (TablesService.list Sample.staff
              {| q_startAt := None; q_endAt := None |}) Sample.store
    = Ok (inr tables')
    /\ forall id t, (id, t) ∈ tables' <-> tables Sample.store !! id = Some t.
Proof.
  refine (proj1 (proj2 (tables_list_views Sample.staff
                          {| q_startAt := None; q_endAt := None |}
                          Sample.store)) _).
  discriminate.
Defined.

(** ** The lookup as a forecast of [create] *)

(** X10.  If the availability lookup reports a table as unavailable for a
    window, the transaction of any [create] for that table and window,
    run on the same bookings, throws the table conflict and writes
    nothing.  If it reports the table as available and the store holds no
    COMPLETED booking, the overlap check of the transaction finds no
    row. *)
Theorem unavailable_means_conflict st qs qe rows id t :
  answer (TablesService.memberAvailability
            {| q_startAt := Some (Some qs); q_endAt := Some (Some qe) |}) st
  = Ok rows ->
  ((id, t, false) ∈ rows ->
   forall new_id user member_id dto picks w,
     db w = st -> dto_tableId dto = id ->
     exists w',
       transaction
         (BookingsService.createBody new_id user member_id dto qs qe picks) w
       = (Throw (ConflictException MsgTableAlreadyBooked), w')
       /\ db w' = st)
  /\ ((id, t, true) ∈ rows ->
      (forall k b, bookings st !! k = Some b -> status b <> COMPLETED) ->
      countWhere (BookingsService.overlapWhere id qs qe) (bookings st) = 0).
Proof.
  intros Hans.
  destruct (memberAvailability_run st qs qe) as (rows' & w0 & Hrun & _ & Hrows).
  unfold answer in Hans. rewrite Hrun in Hans. cbn [fst] in Hans.
  injection Hans as ->. split.
  - intros Hin new_id user member_id dto picks w Hdb Htab.
    apply Hrows in Hin as (_ & _ & Hbusy).
    destruct (proj1 Hbusy eq_refl) as (k & b & Hk & Hid & Hb).
    apply busyWhere_true in Hb as (Hst & H1 & H2).
    assert (Hc : 0 < countWhere
                       (BookingsService.overlapWhere (dto_tableId dto) qs qe)
                       (bookings (db w))).
    { apply countWhere_pos. exists k, b. rewrite Hdb, Htab. split; [done|].
      apply overlapWhere_true. split_and!; [done | |].
      - destruct Hst as [-> | ->]; done.
      - unfold overlap. lia. }
    eexists. unfold transaction.
    rewrite (createBody_overlap _ _ _ _ _ _ _ _ Hc). done.
  - intros Hin Hnc. apply Hrows in Hin as (_ & _ & Hbusy).
    apply countWhere_zero. intros k b Hk.
    apply not_true_iff_false. intros Hov.
    apply overlapWhere_true in Hov as (Ht & Hst & [H1 H2]).
    assert (true = false) as Habs; [|done].
    apply Hbusy. exists k, b. split_and!; [done | done |].
    apply busyWhere_true. specialize (Hnc k b Hk).
    split_and!; [|done | lia].
    destruct (status b); auto; done.
Qed.

Lemma unavailable_means_conflict_witness :
  exists w',
    transaction
      (BookingsService.createBody Sample.B2 Sample.alice Sample.aliceProfile
         (Sample.request (Sample.at_ 18 30) (Sample.at_ 20 0) 4 [])
         (Sample.at_ 18 30) (Sample.at_ 20 0) []) (fresh Sample.booked)
    = (Throw (ConflictException MsgTableAlreadyBooked), w')
    /\ db w' = Sample.booked.
Proof.
  refine (proj1 (unavailable_means_conflict Sample.booked
                   (Sample.at_ 18 30) (Sample.at_ 20 0)
                   [(Sample.T1, Sample.table4, false)]
                   Sample.T1 Sample.table4 _) _
            Sample.B2 Sample.alice Sample.aliceProfile
            (Sample.request (Sample.at_ 18 30) (Sample.at_ 20 0) 4 [])
            [] (fresh Sample.booked) _ _).
  - vm_compute. reflexivity.
  - by left.
  - reflexivity.
  - reflexivity.
Defined.

(** ** The life of a booking row *)

Lemma step_bookings cfg op s :
  bookings (step cfg op s) = bookings s
  \/ (exists id row,
        bookings s !! id = None /\ status row = CONFIRMED
        /\ bookings (step cfg op s) = <[id := row]> (bookings s))
  \/ (exists id b,
        bookings s !! id = Some b /\ status b <> CANCELLED
        /\ bookings (step cfg op s)
           = <[id := set_status CANCELLED b]> (bookings s)).
Proof.
  destruct op as [now id user dto|now user id|id user dto|user id dto];
    unfold step, after.
  - destruct (BookingsController.create cfg now id user dto (fresh s))
      as [r w'] eqn:Hrun.
    apply BookingsController_create_effect in Hrun.
    destruct r as [[id' b]|ex]; cbn [snd]; [|left; by rewrite Hrun].
    destruct Hrun as [_ Hrun]. apply create_effect in Hrun
      as (st & e & mid & _ & _ & _ & _ & _ & Hid & _ & _ & Hdb).
    cbn [db fresh] in *. right; left.
    exists id, (newBooking user mid dto st e). rewrite Hdb. done.
  - destruct (BookingsController.cancel cfg now user id (fresh s))
      as [r w'] eqn:Hrun.
    apply cancel_effect in Hrun.
    destruct r as [[id' st]|ex]; cbn [snd]; [|left; by rewrite Hrun].
    destruct Hrun as (b & Hb & Hst & _ & _ & ->). cbn [db fresh] in *.
    right; right. exists id, b. done.
  - destruct (GamesController.create id user dto (fresh s)) as [r w'] eqn:Hrun.
    apply GamesController_create_effect in Hrun. cbn [snd]. left.
    destruct r; [|by rewrite Hrun]. by destruct Hrun as (_ & _ & _ & ->).
  - destruct (GamesController.update user id dto (fresh s)) as [r w'] eqn:Hrun.
    apply GamesController_update_effect in Hrun. cbn [snd]. left.
    destruct r; [|by rewrite Hrun].
    by destruct Hrun as (g & _ & _ & _ & _ & ->).
Qed.

Lemma evolves_trans b1 b2 b3 :
  evolves b1 b2 -> evolves b2 b3 -> evolves b1 b3.
Proof.
  intros [->|[H1 ->]] [->|[H2 ->]].
  - by left.
  - by right.
  - by right.
  - done.
Qed.

Lemma step_evolves cfg op s id b :
  bookings s !! id = Some b ->
  exists b', bookings (step cfg op s) !! id = Some b' /\ evolves b b'.
Proof.
  intros Hb.
  destruct (step_bookings cfg op s)
    as [->|[(k & row & Hk & _ & ->)|(k & b0 & Hk & Hst & ->)]].
  - exists b. split; [done | by left].
  - exists b. split; [|by left].
    rewrite lookup_insert_ne; [done|]. intros ->. congruence.
  - destruct (decide (k = id)) as [->|Hne].
    + rewrite Hb in Hk. injection Hk as <-.
      exists (set_status CANCELLED b). rewrite lookup_insert_eq.
      split; [done | by right].
    + exists b. rewrite lookup_insert_ne by done. split; [done | by left].
Qed.

(** X11.  Booking rows are never deleted by any request and only their
    status ever changes: a booking present in a store is present after
    any sequence of requests, with the same member, table, interval, party
    size and creator; its status is the same or has become CANCELLED; and
    a booking that is CANCELLED stays exactly as it is. *)
Theorem booking_rows_only_get_cancelled cfg ops st id b :
  bookings st !! id = Some b ->
  exists b',
    bookings (run cfg ops st) !! id = Some b'
    /\ evolves b b'
    /\ memberId b' = memberId b /\ tableId b' = tableId b
    /\ startAt b' = startAt b /\ endAt b' = endAt b
    /\ peopleCount b' = peopleCount b /\ createdBy b' = createdBy b
    /\ (status b = CANCELLED -> b' = b).
Proof.
  intros Hb.
  assert (Hev : exists b', bookings (run cfg ops st) !! id = Some b'
                           /\ evolves b b').
  { unfold run. revert st b Hb.
    induction ops as [|op ops IH]; intros st b Hb; cbn [fold_left].
    - exists b. split; [done | by left].
    - destruct (step_evolves cfg op st id b Hb) as (b1 & Hb1 & He1).
      destruct (IH _ _ Hb1) as (b2 & Hb2 & He2).
      exists b2. split; [done|]. by eapply evolves_trans. }
  destruct Hev as (b' & Hb' & Hev). exists b'.
  split_and!; try done; destruct Hev as [->|[Hst ->]]; try done.
Qed.

Lemma booking_rows_only_get_cancelled_witness :
  exists b',
    bookings (run Sample.cfg [Sample.restock; Sample.cancel1; Sample.book2]
                Sample.booked) !! Sample.B1 = Some b'
    /\ evolves Sample.booking1 b'.
Proof.
  destruct (booking_rows_only_get_cancelled Sample.cfg
              [Sample.restock; Sample.cancel1; Sample.book2]
              Sample.booked Sample.B1 Sample.booking1 eq_refl)
    as (b' & Hb' & Hev & _).
  exists b'. split; [exact Hb' | exact Hev].
Defined.

(** ** The statuses that are ever written *)

Lemma step_onlyConfirmedOrCancelled cfg op s :
  onlyConfirmedOrCancelled s -> onlyConfirmedOrCancelled (step cfg op s).
Proof.
  intros Hinv k b.
  destruct (step_bookings cfg op s)
    as [->|[(i & row & Hi & Hst & ->)|(i & b0 & Hi & Hst & ->)]].
  - apply Hinv.
  - rewrite lookup_insert. case_decide; [|apply Hinv].
    intros [= <-]. by left.
  - rewrite lookup_insert. case_decide; [|apply Hinv].
    intros [= <-]. by right.
Qed.

(** X12.  No request writes the status PENDING or COMPLETED: a booking is
    created CONFIRMED and can only become CANCELLED.  So from a store
    whose bookings are all CONFIRMED or CANCELLED every store that is
    reached is of that kind, and on such a store the availability lookup
    and the overlap check of [create] agree: a listed table is reported
    unavailable for a window exactly when the check finds an overlapping
    row. *)
Theorem only_confirmed_or_cancelled_written cfg ops st :
  onlyConfirmedOrCancelled st ->
  onlyConfirmedOrCancelled (run cfg ops st)
  /\ forall qs qe rows id t av,
       answer (TablesService.memberAvailability
                 {| q_startAt := Some (Some qs); q_endAt := Some (Some qe) |})
              (run cfg ops st) = Ok rows ->
       (id, t, av) ∈ rows ->
       (av = false
        <-> 0 < countWhere (BookingsService.overlapWhere id qs qe)
                  (bookings (run cfg ops st))).
Proof.
  intros Hinv.
  assert (Hrun : onlyConfirmedOrCancelled (run cfg ops st)).
  { unfold run. revert st Hinv.
    induction ops as [|op ops IH]; intros st Hinv; cbn [fold_left]; [done|].
    apply IH. by apply step_onlyConfirmedOrCancelled. }
  split; [exact Hrun|].
  intros qs qe rows id t av Hans Hin.
  destruct (memberAvailability_run (run cfg ops st) qs qe)
    as (rows' & w0 & Hrun' & _ & Hrows).
  unfold answer in Hans. rewrite Hrun' in Hans. cbn [fst] in Hans.
  injection Hans as ->. apply Hrows in Hin as (_ & _ & Hbusy).
  rewrite Hbusy, countWhere_pos.
  split; intros (k & b & Hk & Hrest); exists k, b; (split; [done|]).
  - destruct Hrest as [Hid Hb]. apply busyWhere_true in Hb as (Hst & H1 & H2).
    apply overlapWhere_true. split_and!; [done | |].
    + destruct Hst as [-> | ->]; done.
    + unfold overlap. lia.
  - apply overlapWhere_true in Hrest as (Hid & Hst & [H1 H2]).
    split; [done|]. apply busyWhere_true.
    split_and!; [|done | lia].
    destruct (Hrun k b Hk) as [-> | Hc]; [by right | done].
Qed.

Lemma only_confirmed_or_cancelled_written_witness :
  onlyConfirmedOrCancelled
    (run Sample.cfg [Sample.book1; Sample.cancel1; Sample.book2] Sample.store).
Proof.
  refine (proj1 (only_confirmed_or_cancelled_written Sample.cfg
                   [Sample.book1; Sample.cancel1; Sample.book2]
                   Sample.store _)).
  intros k b Hk. unfold Sample.store in Hk. cbn [bookings] in Hk.
  by rewrite lookup_empty in Hk.
Defined.

(** ** Conservation of the copies *)

Lemma qtyWhere_app p l1 l2 :
  qtyWhere p (l1 ++ l2) = qtyWhere p l1 + qtyWhere p l2.
Proof.
  induction l1 as [|h l1 IH]; cbn [qtyWhere foldr app]; [done|].
  fold (qtyWhere p (l1 ++ l2)). fold (qtyWhere p l1).
  rewrite IH. destruct (p h); lia.
Qed.

Lemma qtyWhere_ext p q l :
  (forall h, h ∈ l -> p h = q h) -> qtyWhere p l = qtyWhere q l.
Proof.
  induction l as [|h l IH]; intros Hpq; cbn [qtyWhere foldr]; [done|].
  fold (qtyWhere p l). fold (qtyWhere q l).
  rewrite (Hpq h) by (by left). rewrite IH; [done|].
  intros h' Hin. apply Hpq. by right.
Qed.

Lemma qtyWhere_split p q l :
  qtyWhere p l
  = qtyWhere (fun h => p h && q h) l + qtyWhere (fun h => p h && negb (q h)) l.
Proof.
  induction l as [|h l IH]; cbn [qtyWhere foldr]; [done|].
  fold (qtyWhere p l). fold (qtyWhere (fun h => p h && q h) l).
  fold (qtyWhere (fun h => p h && negb (q h)) l).
  rewrite IH. destruct (p h), (q h); cbn; lia.
Qed.

Lemma qtyWhere_filter p (Q : BookingGame -> Prop) `{!forall h, Decision (Q h)} l :
  qtyWhere p (filter Q l) = qtyWhere (fun h => p h && bool_decide (Q h)) l.
Proof.
  induction l as [|h l IH]; [done|].
  rewrite filter_cons. cbn [qtyWhere foldr].
  fold (qtyWhere (fun h => p h && bool_decide (Q h)) l).
  destruct (decide (Q h)) as [HQ|HQ].
  - cbn [qtyWhere foldr]. fold (qtyWhere p (filter Q l)). rewrite IH.
    rewrite (bool_decide_eq_true_2 _ HQ). by rewrite andb_true_r.
  - rewrite IH, (bool_decide_eq_false_2 _ HQ). by rewrite andb_false_r.
Qed.

Lemma decrementStock_available games picks id g :
  stockAvailable <$> (foldl decrementStock games picks !! g)
  = (fun row => stockAvailable row
                - qtyWhere (fun h => bool_decide (boardGameId h = g))
                    (holdsFor id picks))
      <$> (games !! g).
Proof.
  revert games. induction picks as [|[k q] picks IH]; intros games.
  - cbn. destruct (games !! g); cbn; [f_equal; lia | done].
  - cbn [foldl holdsFor map qtyWhere foldr boardGameId quantity fst snd].
    fold (holdsFor id picks).
    fold (qtyWhere (fun h => bool_decide (boardGameId h = g))
            (holdsFor id picks)).
    rewrite IH. unfold decrementStock. cbn [fst snd].
    rewrite lookup_alter. case_bool_decide as Hk.
    + subst k. rewrite decide_True by done.
      destruct (games !! g); cbn; [f_equal; lia | done].
    + rewrite decide_False by done. done.
Qed.

Lemma incrementStock_available games held g :
  stockAvailable <$> (foldl incrementStock games held !! g)
  = (fun row => stockAvailable row
                + qtyWhere (fun h => bool_decide (boardGameId h = g)) held)
      <$> (games !! g).
Proof.
  revert games. induction held as [|h held IH]; intros games.
  - cbn. destruct (games !! g); cbn; [f_equal; lia | done].
  - cbn [foldl qtyWhere foldr].
    fold (qtyWhere (fun h => bool_decide (boardGameId h = g)) held).
    rewrite IH. unfold incrementStock. rewrite lookup_alter.
    case_bool_decide as Hk.
    + rewrite decide_True by done. rewrite Hk.
      destruct (games !! g); cbn; [f_equal; lia | done].
    + rewrite decide_False by done. done.
Qed.

(** A booking or a cancellation moves copies between "available" and "held
    by a live booking" and neither creates nor loses any. *)
Lemma step_accounted cfg op s g :
  holdsWellFormed s -> notByStaff op ->
  accounted (step cfg op s) g = accounted s g.
Proof.
  intros [Hpk Hfk] Hop.
  destruct op as [now id user dto|now user id|id user dto|user id dto];
    unfold step, after.
  - destruct (BookingsController.create cfg now id user dto (fresh s))
      as [r w'] eqn:Hrun.
    apply BookingsController_create_effect in Hrun.
    destruct r as [[id' b]|ex]; cbn [snd]; [|by rewrite Hrun].
    destruct Hrun as [_ Hrun]. apply create_effect in Hrun
      as (st & e & mid & _ & _ & _ & _ & _ & Hid & _ & _ & Hdb).
    cbn [db fresh] in *. rewrite Hdb.
    set (picks := BookingsService.aggregate _) in *.
    unfold accounted, heldLive.
    cbn [boardGames bookingGames set_auditLogs set_bookingGames
         set_boardGames].
    rewrite qtyWhere_app.
    assert (Hold : qtyWhere
              (fun h => bool_decide (boardGameId h = g)
                        && liveBooking
                             (set_auditLogs
                                (auditLogs s ++
                                   [{| actorUserId := userId user;
                                       action := BOOKING_CREATE;
                                       entityId := id |}])
                                (set_bookingGames
                                   (bookingGames s ++ holdsFor id picks)
                                   (set_boardGames
                                      (foldl decrementStock (boardGames s)
                                         picks)
                                      (set_bookings
                                         (<[id := newBooking user mid dto
                                                    st e]> (bookings s))
                                         s))))
                             (bookingId h))
              (bookingGames s)
            = qtyWhere (fun h => bool_decide (boardGameId h = g)
                                 && liveBooking s (bookingId h))
                (bookingGames s)).
    { apply qtyWhere_ext. intros h Hin. f_equal.
      unfold liveBooking. cbn [bookings set_auditLogs set_bookingGames
        set_boardGames set_bookings].
      rewrite lookup_insert_ne; [done|]. intros Heq.
      destruct (Hfk h Hin) as [[x Hx] _]. rewrite <- Heq in Hx. congruence. }
    assert (Hnew : qtyWhere
              (fun h => bool_decide (boardGameId h = g)
                        && liveBooking
                             (set_auditLogs
                                (auditLogs s ++
                                   [{| actorUserId := userId user;
                                       action := BOOKING_CREATE;
                                       entityId := id |}])
                                (set_bookingGames
                                   (bookingGames s ++ holdsFor id picks)
                                   (set_boardGames
                                      (foldl decrementStock (boardGames s)
                                         picks)
                                      (set_bookings
                                         (<[id := newBooking user mid dto
                                                    st e]> (bookings s))
                                         s))))
                             (bookingId h))
              (holdsFor id picks)
            = qtyWhere (fun h => bool_decide (boardGameId h = g))
                (holdsFor id picks)).
    { apply qtyWhere_ext. intros h Hin. unfold holdsFor in Hin.
      apply list_elem_of_fmap in Hin as (p & -> & _).
      unfold liveBooking. cbn [bookingId bookings set_auditLogs
        set_bookingGames set_boardGames set_bookings].
      rewrite lookup_insert_eq. cbn. by rewrite andb_true_r. }
    rewrite Hold, Hnew.
    pose proof (decrementStock_available (boardGames s) picks id g) as Hd.
    destruct (foldl decrementStock (boardGames s) picks !! g) as [row'|],
      (boardGames s !! g) as [row|]; cbn in Hd |- *; try done.
    injection Hd as Hd. f_equal. lia.
  - destruct (BookingsController.cancel cfg now user id (fresh s))
      as [r w'] eqn:Hrun.
    apply cancel_effect in Hrun.
    destruct r as [[id' st]|ex]; cbn [snd]; [|by rewrite Hrun].
    destruct Hrun as (b & Hb & Hst & _ & _ & ->). cbn [db fresh] in *.
    unfold accounted, heldLive, cancelled.
    cbn [boardGames bookingGames set_auditLogs set_boardGames set_bookings].
    pose proof (incrementStock_available (boardGames s) (holdsOf id s) g)
      as Hi.
    unfold holdsOf in Hi at 2. rewrite qtyWhere_filter in Hi.
    rewrite (qtyWhere_split
               (fun h => bool_decide (boardGameId h = g)
                         && liveBooking s (bookingId h))
               (fun h => bool_decide (bookingId h = id))
               (bookingGames s)).
    assert (Hmine : qtyWhere
              (fun h => bool_decide (boardGameId h = g)
                        && liveBooking s (bookingId h)
                        && bool_decide (bookingId h = id)) (bookingGames s)
            = qtyWhere
                (fun h => bool_decide (boardGameId h = g)
                          && bool_decide (bookingId h = id))
                (bookingGames s)).
    { apply qtyWhere_ext. intros h _. cbn beta.
      destruct (decide (bookingId h = id)) as [Hh|Hh].
      - rewrite Hh. unfold liveBooking. rewrite Hb.
        rewrite (bool_decide_eq_true_2 _ Hst). by rewrite andb_true_r.
      - rewrite (bool_decide_eq_false_2 _ Hh). by rewrite !andb_false_r. }
    assert (Hrest : qtyWhere
              (fun h => bool_decide (boardGameId h = g)
                        && liveBooking
                             (set_auditLogs
                                (auditLogs s ++
                                   [{| actorUserId := userId user;
                                       action := BOOKING_CANCEL;
                                       entityId := id |}])
                                (set_boardGames
                                   (foldl incrementStock (boardGames s)
                                      (holdsOf id s))
                                   (set_bookings
                                      (<[id := set_status CANCELLED b]>
                                         (bookings s)) s)))
                             (bookingId h)) (bookingGames s)
            = qtyWhere
                (fun h => bool_decide (boardGameId h = g)
                          && liveBooking s (bookingId h)
                          && negb (bool_decide (bookingId h = id)))
                (bookingGames s)).
    { apply qtyWhere_ext. intros h _. cbn beta. unfold liveBooking.
      cbn [bookings set_auditLogs set_boardGames set_bookings].
      rewrite lookup_insert.
      destruct (decide (bookingId h = id)) as [Hh|Hh].
      - rewrite decide_True by done. rewrite (bool_decide_eq_true_2 _ Hh).
        cbn. by rewrite !andb_false_r.
      - rewrite decide_False by done.
        rewrite (bool_decide_eq_false_2 _ Hh). by rewrite andb_true_r. }
    rewrite Hmine, Hrest.
    destruct (foldl incrementStock (boardGames s) (holdsOf id s) !! g)
      as [row'|], (boardGames s !! g) as [row|]; cbn in Hi |- *; try done.
    injection Hi as Hi. f_equal. lia.
  - cbn in Hop. unfold GamesController.create. rewrite bind_throwIf.
    by rewrite (member_refused_catalogue user Hop).
  - cbn in Hop. unfold GamesController.update. rewrite bind_throwIf.
    by rewrite (member_refused_catalogue user Hop).
Qed.

Lemma qtyWhere_nonneg p l :
  (forall h, h ∈ l -> 1 <= quantity h) -> 0 <= qtyWhere p l.
Proof.
  induction l as [|h l IH]; intros Hq; cbn [qtyWhere foldr]; [done|].
  fold (qtyWhere p l).
  assert (0 <= qtyWhere p l) by (apply IH; intros h' Hin; apply Hq; by right).
  pose proof (Hq h ltac:(by left)). destruct (p h); lia.
Qed.

Lemma run_accounted cfg ops st g :
  holdsWellFormed st -> Forall notByStaff ops ->
  accounted (run cfg ops st) g = accounted st g.
Proof.
  unfold run. revert st.
  induction ops as [|op ops IH]; intros st Hwf Hops; cbn [fold_left]; [done|].
  inversion Hops; subst.
  rewrite IH; [|by apply step_holdsWellFormed | done].
  by apply step_accounted.
Qed.

(** X13.  Copies are conserved.  On a store that respects the keys of
    [booking_games], over any sequence of bookings and cancellations (and
    catalogue requests by members, which are refused), the number of
    available copies of a game plus the copies held by bookings that are
    not cancelled never changes.  Hence, if at the start no stock is
    negative, every hold is for at least one copy and available plus held
    copies do not exceed the total, then [0 <= stockAvailable <=
    stockTotal] holds for every game throughout. *)
Theorem copies_conserved cfg ops st :
  holdsWellFormed st -> Forall notByStaff ops ->
  (forall g, accounted (run cfg ops st) g = accounted st g)
  /\ (stockNonneg st ->
      (forall g row, boardGames st !! g = Some row ->
                     stockAvailable row + heldLive st g <= stockTotal row) ->
      stockBounded (run cfg ops st)).
Proof.
  intros Hwf Hops. split.
  - intros g. by apply run_accounted.
  - intros Hnn Hcap g row' Hrow'.
    pose proof (run_stockNonneg cfg ops st Hnn) as [Hnn1 Hnn2].
    pose proof (run_accounted cfg ops st g Hwf Hops) as Hacc.
    assert (Hcat : sameCatalogue (boardGames st)
                     (boardGames (run cfg ops st))).
    { clear -Hops. unfold run. revert st.
      induction ops as [|op ops IH]; intros st; cbn [fold_left].
      - apply sameCatalogue_refl.
      - inversion Hops; subst.
        eapply sameCatalogue_trans; [by apply (step_sameCatalogue cfg op)|].
        by apply IH. }
    specialize (Hcat g). unfold accounted in Hacc.
    rewrite Hrow' in Hacc, Hcat.
    destruct (boardGames st !! g) as [row|] eqn:Hrow; [|done].
    cbn in Hacc. injection Hacc as Hacc. destruct Hcat as [Htot _].
    specialize (Hcap g row Hrow). specialize (Hnn1 g row' Hrow').
    assert (0 <= heldLive (run cfg ops st) g).
    { unfold heldLive. by apply qtyWhere_nonneg. }
    unfold stockBound. lia.
Qed.

Lemma copies_conserved_witness :
  stockBounded
    (run Sample.cfg [Sample.book1; Sample.book2; Sample.cancel1] Sample.store).
Proof.
  refine (proj2 (copies_conserved Sample.cfg
                   [Sample.book1; Sample.book2; Sample.cancel1]
                   Sample.store Sample_store_wf _) _ _).
  - repeat constructor.
  - split.
    + intros id g Hg. unfold Sample.store in Hg. cbn [boardGames] in Hg.
      apply lookup_singleton_Some in Hg as [_ <-]. cbn. lia.
    + intros h Hin. by apply elem_of_nil in Hin.
  - intros g row Hg. unfold Sample.store in Hg. cbn [boardGames] in Hg.
    apply lookup_singleton_Some in Hg as [_ <-]. cbn. lia.
Defined.

(** ** All or nothing, and the audit trail *)

Lemma step_audit cfg op s :
  (accepted cfg op s = false -> step cfg op s = s)
  /\ (accepted cfg op s = true ->
      auditLogs (step cfg op s) = auditLogs s ++ [auditOf op])
  /\ tables (step cfg op s) = tables s
  /\ members (step cfg op s) = members s.
Proof.
  destruct op as [now id user dto|now user id|id user dto|user id dto];
    unfold step, after, accepted, answer, auditOf.
  - destruct (BookingsController.create cfg now id user dto (fresh s))
      as [r w'] eqn:Hrun.
    apply BookingsController_create_effect in Hrun.
    destruct r as [[id' b]|ex]; cbn [fst snd isOk].
    + destruct Hrun as [_ Hrun]. apply create_effect in Hrun
        as (st & e & mid & _ & _ & _ & _ & _ & _ & _ & _ & Hdb).
      cbn [db fresh] in *. rewrite Hdb. by split_and!.
    + cbn [db fresh] in Hrun. rewrite Hrun. by split_and!.
  - destruct (BookingsController.cancel cfg now user id (fresh s))
      as [r w'] eqn:Hrun.
    apply cancel_effect in Hrun.
    destruct r as [[id' st]|ex]; cbn [fst snd isOk].
    + destruct Hrun as (b & _ & _ & _ & _ & ->). by split_and!.
    + cbn [db fresh] in Hrun. rewrite Hrun. by split_and!.
  - destruct (GamesController.create id user dto (fresh s)) as [r w'] eqn:Hrun.
    apply GamesController_create_effect in Hrun.
    destruct r as [id'|ex]; cbn [fst snd isOk].
    + destruct Hrun as (_ & _ & _ & ->). by split_and!.
    + cbn [db fresh] in Hrun. rewrite Hrun. by split_and!.
  - destruct (GamesController.update user id dto (fresh s)) as [r w'] eqn:Hrun.
    apply GamesController_update_effect in Hrun.
    destruct r as [g'|ex]; cbn [fst snd isOk].
    + destruct Hrun as (g & _ & _ & _ & _ & ->). by split_and!.
    + cbn [db fresh] in Hrun. rewrite Hrun. by split_and!.
Qed.

(** X14.  Requests are all or nothing and leave a trail.  A request that
    is answered with an exception leaves the whole store as it was.  A
    request that is accepted appends exactly one audit record, naming the
    actor, the action and the row.  Over any sequence of requests the
    audit log only grows at its end, by at most one record per request. *)
Theorem requests_all_or_nothing cfg :
  (forall op s, accepted cfg op s = false -> step cfg op s = s)
  /\ (forall op s,
        accepted cfg op s = true ->
        auditLogs (step cfg op s) = auditLogs s ++ [auditOf op])
  /\ (forall ops s,
        exists tail,
          auditLogs (run cfg ops s) = auditLogs s ++ tail
          /\ (length tail <= length ops)%nat).
Proof.
  split_and!.
  - intros op s. apply step_audit.
  - intros op s. apply step_audit.
  - intros ops. unfold run.
    induction ops as [|op ops IH]; intros s; cbn [fold_left].
    + exists []. by rewrite app_nil_r.
    + destruct (IH (step cfg op s)) as (tail & Htail & Hlen).
      destruct (accepted cfg op s) eqn:Hacc.
      * exists (auditOf op :: tail). rewrite Htail.
        rewrite (proj1 (proj2 (step_audit cfg op s)) Hacc).
        rewrite <- app_assoc. split; [done|]. cbn. lia.
      * exists tail. rewrite Htail.
        rewrite (proj1 (step_audit cfg op s) Hacc). split; [done|].
        cbn. lia.
Qed.

Lemma requests_all_or_nothing_witness :
  step Sample.cfg Sample.book2 Sample.booked = Sample.booked.
Proof.
  refine (proj1 (requests_all_or_nothing Sample.cfg) Sample.book2
            Sample.booked _).
  reflexivity.
Defined.

(** X15.  No booking, cancellation or catalogue request ever changes a
    table or a member profile: after any sequence of them the two tables
    are what they were. *)
Theorem tables_and_members_untouched cfg ops st :
  tables (run cfg ops st) = tables st
  /\ members (run cfg ops st) = members st.
Proof.
  unfold run. revert st.
  induction ops as [|op ops IH]; intros st; cbn [fold_left]; [done|].
  destruct (IH (step cfg op st)) as [-> ->].
  destruct (step_audit cfg op st) as (_ & _ & -> & ->). done.
Qed.

(** ** What [GET /bookings] shows *)

Lemma list_run user query st :
  BookingsService.list user query (fresh st)
  = (Ok (merge_sort startsBefore
           (map_to_list
              (rowsWhere (BookingsService.listWhere user query st)
                 (bookings st)))),
     {| db := st; issued := [BookingFindMany] |}).
Proof. done. Qed.

Lemma list_rows user query st id b :
  (id, b) ∈ merge_sort startsBefore
              (map_to_list
                 (rowsWhere (BookingsService.listWhere user query st)
                    (bookings st)))
  <-> bookings st !! id = Some b
      /\ BookingsService.listWhere user query st id b = true.
Proof.
  rewrite merge_sort_Permutation.
  by rewrite elem_of_map_to_list, rowsWhere_lookup.
Qed.

(** X16.  [GET /bookings] never writes and answers in ascending order of
    start.  A member sees only bookings of a member profile tied to the
    own account, and a member id in the query makes no difference to what
    a member sees.  Staff and administrators see every booking that passes
    the filters given; with no filter, every booking. *)
Theorem bookings_list_scope user query st :
  after (BookingsService.list user query) st = st
  /\ exists rows,
       answer (BookingsService.list user query) st = Ok rows
       /\ Sorted startsBefore rows
       /\ (role user = MEMBER ->
           (forall id b,
              (id, b) ∈ rows ->
              bookings st !! id = Some b
              /\ exists m, members st !! memberId b = Some m
                           /\ member_userId m = userId user)
           /\ (forall other,
                 answer (BookingsService.list user
                           {| bq_status := bq_status query;
                              bq_from := bq_from query;
                              bq_to := bq_to query;
                              bq_memberId := other;
                              bq_tableId := bq_tableId query |}) st
                 = Ok rows))
       /\ (role user <> MEMBER ->
           (forall id b,
              (id, b) ∈ rows <->
              bookings st !! id = Some b
              /\ (forall v, bq_status query = Some v -> status b = v)
              /\ (forall v, bq_tableId query = Some v -> tableId b = v)
              /\ (forall v, bq_memberId query = Some v -> memberId b = v)
              /\ (forall v, bq_from query = Some v -> v <= startAt b)
              /\ (forall v, bq_to query = Some v -> startAt b <= v))).
Proof.
  split; [done|].
  eexists. split; [unfold answer; by rewrite list_run|].
  split_and!.
  - assert (Htot : Total startsBefore).
    { intros x y. unfold startsBefore. lia. }
    apply (Sorted_merge_sort startsBefore).
  - intros Hr. split.
    + intros id b Hin. apply list_rows in Hin as [Hb Hw].
      split; [done|]. unfold BookingsService.listWhere in Hw.
      rewrite !andb_true_iff in Hw. destruct Hw as [_ Hm].
      rewrite decide_True in Hm by done.
      destruct (members st !! memberId b) as [m|]; [|done].
      apply bool_decide_eq_true in Hm. by exists m.
    + intros other. unfold answer. rewrite list_run. cbn [fst].
      do 3 f_equal. unfold rowsWhere. apply map_filter_ext.
      intros id b _. cbn [fst snd]. unfold BookingsService.listWhere.
      cbn [bq_status bq_from bq_to bq_memberId bq_tableId].
      by rewrite !decide_True by done.
  - intros Hr id b. rewrite list_rows. unfold BookingsService.listWhere.
    rewrite !decide_False by done. rewrite andb_true_r.
    rewrite !andb_true_iff.
    assert (Heq : forall {A} `{EqDecision A} (f : option A) (x : A),
              BookingsService.whereEq f x = true
              <-> forall v, f = Some v -> x = v).
    { intros A ? f x. unfold BookingsService.whereEq.
      destruct f as [v|]; [|by split].
      rewrite bool_decide_eq_true. split.
      - by intros -> v' [= <-].
      - intros H. by apply H. }
    rewrite !Heq.
    assert (Hdates :
      (if bool_decide (is_Some (bq_from query))
          || bool_decide (is_Some (bq_to query))
       then match bq_from query with
            | Some from => from <=? startAt b
            | None => true
            end
            && match bq_to query with
               | Some to => startAt b <=? to
               | None => true
               end
       else true) = true
      <-> (forall v, bq_from query = Some v -> v <= startAt b)
          /\ (forall v, bq_to query = Some v -> startAt b <= v)).
    { destruct (bq_from query) as [f|], (bq_to query) as [t|]; cbn.
      - rewrite andb_true_iff, !Z.leb_le. split.
        + intros [H1 H2]. split; intros v [= <-]; done.
        + intros [H1 H2]. split; [by apply H1 | by apply H2].
      - rewrite andb_true_r, Z.leb_le. split.
        + intros H1. split; [by intros v [= <-] | done].
        + intros [H1 _]. by apply H1.
      - rewrite Z.leb_le. split.
        + intros H1. split; [done | by intros v [= <-]].
        + intros [_ H1]. by apply H1.
      - split; [|done]. intros _. split; done. }
    rewrite Hdates. tauto.
Qed.

Lemma bookings_list_scope_witness :
  exists rows,
    answer (BookingsService.list Sample.staff
              {| bq_status := None; bq_from := None; bq_to := None;
                 bq_memberId := None; bq_tableId := None |}) Sample.booked
    = Ok rows
    /\ Sorted startsBefore rows.
Proof.
  destruct (proj2 (bookings_list_scope Sample.staff
                     {| bq_status := None; bq_from := None; bq_to := None;
                        bq_memberId := None; bq_tableId := None |}
                     Sample.booked)) as (rows & Hans & Hsorted & _).
  exists rows. split; [exact Hans | exact Hsorted].
Defined.

(** ** The quota counter *)

Lemma countWhere_delete {A} (p : uuid -> A -> bool) (m : gmap uuid A) id :
  countWhere p m
  = countWhere p (delete id m)
    + match m !! id with
      | Some y => if p id y then 1 else 0
      | None => 0
      end.
Proof.
  unfold countWhere, rowsWhere. rewrite map_filter_delete, map_size_delete.
  destruct (m !! id) as [y|] eqn:Hy.
  - destruct (p id y) eqn:Hp.
    + assert (Hin : filter (fun kv : uuid * A => p kv.1 kv.2 = true) m !! id
                    = Some y) by (by apply map_lookup_filter_Some).
      rewrite Hin.
      assert (size (filter (fun kv : uuid * A => p kv.1 kv.2 = true) m) <> 0%nat).
      { apply map_size_non_empty_iff. intros He. by rewrite He in Hin. }
      lia.
    + assert (Hnin : filter (fun kv : uuid * A => p kv.1 kv.2 = true) m !! id
                     = None).
      { apply map_lookup_filter_None. right. intros y' Hy'. cbn.
        rewrite Hy in Hy'. injection Hy' as <-. congruence. }
      rewrite Hnin. cbn. lia.
  - assert (Hnin : filter (fun kv : uuid * A => p kv.1 kv.2 = true) m !! id
                   = None).
    { apply map_lookup_filter_None. by left. }
    rewrite Hnin. cbn. lia.
Qed.

Lemma countWhere_insert {A} (p : uuid -> A -> bool) (m : gmap uuid A) id x :
  countWhere p (<[id := x]> m)
  = countWhere p (delete id m) + (if p id x then 1 else 0).
Proof.
  rewrite (countWhere_delete p (<[id := x]> m) id).
  by rewrite delete_insert_eq, lookup_insert_eq.
Qed.

(** X17.  The count that the quota check of [create] uses moves with the
    bookings: an accepted [create] raises by one the member's count of
    active future bookings (at any instant before the booking starts), and
    an accepted [cancel] of a pending or confirmed booking lowers it by
    one; the counts of other members do not move. *)
Theorem quota_count_moves cfg now :
  (forall new_id user dto st id b now',
     answer (BookingsService.create cfg now new_id user dto) st = Ok (id, b) ->
     now' < startAt b ->
     countWhere (BookingsService.activeFutureWhere (memberId b) now')
       (bookings (after (BookingsService.create cfg now new_id user dto) st))
     = countWhere (BookingsService.activeFutureWhere (memberId b) now')
         (bookings st) + 1)
  /\ (forall user id st r b now' member_id,
        answer (BookingsService.cancel cfg now user id) st = Ok r ->
        bookings st !! id = Some b ->
        status b = PENDING \/ status b = CONFIRMED ->
        now' < startAt b ->
        countWhere (BookingsService.activeFutureWhere member_id now')
          (bookings (after (BookingsService.cancel cfg now user id) st))
        = countWhere (BookingsService.activeFutureWhere member_id now')
            (bookings st)
          - (if decide (memberId b = member_id) then 1 else 0)).
Proof.
  split.
  - intros new_id user dto st id b now' Hans Hfut. unfold answer, after in *.
    destruct (BookingsService.create cfg now new_id user dto (fresh st))
      as [r w'] eqn:Hrun. cbn [fst snd] in *. subst r.
    apply create_effect in Hrun
      as (s & e & mid & _ & _ & -> & -> & _ & Hid & _ & _ & Hdb).
    cbn [db fresh] in *. rewrite Hdb.
    cbn [bookings set_auditLogs set_bookingGames set_boardGames set_bookings].
    rewrite countWhere_insert.
    rewrite (countWhere_delete _ (bookings st) new_id), Hid.
    unfold BookingsService.activeFutureWhere at 2.
    cbn [memberId newBooking status startAt] in *.
    rewrite bool_decide_eq_true_2 by done.
    rewrite (proj2 (Z.ltb_lt _ _) Hfut).
    change (bool_decide (CONFIRMED = PENDING)
            || bool_decide (CONFIRMED = CONFIRMED)) with true.
    cbn. lia.
  - intros user id st r b now' mid Hans Hb Hst Hfut. unfold answer, after in *.
    destruct (BookingsService.cancel cfg now user id (fresh st))
      as [r' w'] eqn:Hrun. cbn [fst snd] in *. subst r'.
    apply cancel_effect in Hrun. destruct r as [id' st'].
    destruct Hrun as (b0 & Hb0 & _ & _ & _ & ->). cbn [db fresh] in *.
    rewrite Hb in Hb0. injection Hb0 as <-. unfold cancelled.
    cbn [bookings set_auditLogs set_boardGames set_bookings].
    rewrite countWhere_insert.
    rewrite (countWhere_delete _ (bookings st) id), Hb.
    unfold BookingsService.activeFutureWhere at 2 4.
    cbn [status set_status memberId startAt].
    rewrite (proj2 (Z.ltb_lt _ _) Hfut).
    change (bool_decide (CANCELLED = PENDING)
            || bool_decide (CANCELLED = CONFIRMED)) with false.
    rewrite !andb_false_r.
    destruct (decide (memberId b = mid)) as [Hm|Hm].
    + rewrite (bool_decide_eq_true_2 _ Hm).
      destruct Hst as [-> | ->].
      * change (bool_decide (PENDING = PENDING)
                || bool_decide (PENDING = CONFIRMED)) with true. cbn. lia.
      * change (bool_decide (CONFIRMED = PENDING)
                || bool_decide (CONFIRMED = CONFIRMED)) with true. cbn. lia.
    + rewrite (bool_decide_eq_false_2 _ Hm). cbn. lia.
Qed.

Lemma quota_count_moves_witness :
  countWhere (BookingsService.activeFutureWhere Sample.aliceProfile 0)
    (bookings
       (after (BookingsService.cancel Sample.cfg (Sample.at_ 15 0)
                 Sample.alice Sample.B1) Sample.booked))
  = countWhere (BookingsService.activeFutureWhere Sample.aliceProfile 0)
      (bookings Sample.booked)
    - (if decide (memberId Sample.booking1 = Sample.aliceProfile)
       then 1 else 0).
Proof.
  refine (proj2 (quota_count_moves Sample.cfg (Sample.at_ 15 0))
            Sample.alice Sample.B1 Sample.booked (Sample.B1, CANCELLED)
            Sample.booking1 0 Sample.aliceProfile _ _ _ _).
  - reflexivity.
  - reflexivity.
  - by right.
  - reflexivity.
Defined.

(** ** What an accepted [create] holds, and giving it back *)

Lemma requestedQty_absent g selections :
  g ∉ map gameId selections -> requestedQty g selections = 0.
Proof.
  induction selections as [|sel sels IH]; intros Hg; [done|].
  cbn [map] in Hg. apply not_elem_of_cons in Hg as [Hne Hg].
  cbn [requestedQty foldr]. fold (requestedQty g sels).
  rewrite decide_False by done. by apply IH.
Qed.

Lemma qtyWhere_holdsFor id picks g :
  NoDup (Map_keys picks) ->
  qtyWhere (fun h => bool_decide (boardGameId h = g)) (holdsFor id picks)
  = default 0 (Map_get picks g).
Proof.
  induction picks as [|[k q] picks IH]; intros Hnd; [done|].
  change (Map_keys ((k, q) :: picks)) with (k :: Map_keys picks) in Hnd.
  apply NoDup_cons in Hnd as [Hk Hnd].
  cbn [holdsFor map qtyWhere foldr boardGameId quantity fst snd Map_get].
  fold (holdsFor id picks).
  fold (qtyWhere (fun h => bool_decide (boardGameId h = g))
          (holdsFor id picks)).
  rewrite (IH Hnd). destruct (decide (k = g)) as [->|Hne].
  - rewrite bool_decide_eq_true_2 by done.
    assert (Map_get picks g = None) as ->.
    { apply eq_None_not_Some. by rewrite Map_get_keys. }
    cbn. lia.
  - by rewrite bool_decide_eq_false_2 by done.
Qed.

Lemma held_is_requested id selections g :
  qtyWhere (fun h => bool_decide (boardGameId h = g))
    (holdsFor id (BookingsService.aggregate selections))
  = requestedQty g selections.
Proof.
  rewrite qtyWhere_holdsFor by apply aggregate_NoDup.
  rewrite aggregate_get.
  case_bool_decide as Hin; [done|]. cbn. by rewrite requestedQty_absent.
Qed.

Lemma holdsOf_after_create st id picks :
  (forall h, h ∈ bookingGames st -> is_Some (bookings st !! bookingId h)) ->
  bookings st !! id = None ->
  filter (fun h => bookingId h = id) (bookingGames st ++ holdsFor id picks)
  = holdsFor id picks.
Proof.
  intros Hfk Hid. rewrite filter_app.
  assert (filter (fun h => bookingId h = id) (bookingGames st) = []) as ->.
  { induction (bookingGames st) as [|h hs IH]; [done|].
    rewrite filter_cons. destruct (decide (bookingId h = id)) as [Hh|Hh].
    - destruct (Hfk h ltac:(by left)) as [x Hx]. congruence.
    - apply IH. intros h' Hin. apply Hfk. by right. }
  cbn [app]. induction picks as [|p picks IH]; [done|].
  cbn [holdsFor map]. rewrite filter_cons. cbn [bookingId].
  rewrite decide_True by done. f_equal. exact IH.
Qed.

(** X18.  An accepted [create], on a store that respects the keys of
    [booking_games], holds exactly what was asked: the new booking owns
    one hold row per distinct game of the request, for the total quantity
    asked of that game, and the available stock of every game goes down by
    exactly the total quantity the request asks of it (by nothing for a
    game it does not name). *)
Theorem create_holds_what_was_asked cfg now new_id user dto st id b :
  holdsWellFormed st ->
  answer (BookingsService.create cfg now new_id user dto) st = Ok (id, b) ->
  let selections := default [] (dto_gameSelections dto) in
  let st' := after (BookingsService.create cfg now new_id user dto) st in
  holdsOf id st' = holdsFor id (BookingsService.aggregate selections)
  /\ NoDup (map boardGameId (holdsOf id st'))
  /\ (forall g, g ∈ map boardGameId (holdsOf id st')
                <-> g ∈ map gameId selections)
  /\ (forall h, h ∈ holdsOf id st' ->
                quantity h = requestedQty (boardGameId h) selections)
  /\ (forall g,
        stockAvailable <$> (boardGames st' !! g)
        = (fun row => stockAvailable row - requestedQty g selections)
            <$> (boardGames st !! g)).
Proof.
  intros [Hpk Hfk] Hans selections st'. subst st'. unfold answer, after in *.
  destruct (BookingsService.create cfg now new_id user dto (fresh st))
    as [r w'] eqn:Hrun. cbn [fst snd] in *. subst r.
  apply create_effect in Hrun
    as (s & e & mid & _ & _ & -> & _ & _ & Hid & _ & _ & Hdb).
  cbn [db fresh] in *. fold selections in Hdb. rewrite Hdb.
  set (picks := BookingsService.aggregate selections) in *.
  assert (Hof : holdsOf new_id
            (set_auditLogs
               (auditLogs st ++
                  [{| actorUserId := userId user; action := BOOKING_CREATE;
                      entityId := new_id |}])
               (set_bookingGames (bookingGames st ++ holdsFor new_id picks)
                  (set_boardGames
                     (foldl decrementStock (boardGames st) picks)
                     (set_bookings
                        (<[new_id := newBooking user mid dto s e]>
                           (bookings st)) st))))
          = holdsFor new_id picks).
  { unfold holdsOf. cbn [bookingGames set_auditLogs set_bookingGames].
    apply holdsOf_after_create; [|done]. intros h Hin. by apply Hfk. }
  rewrite Hof.
  assert (Hgames : map boardGameId (holdsFor new_id picks) = Map_keys picks).
  { unfold holdsFor, Map_keys. rewrite map_map. done. }
  pose proof (aggregate_NoDup selections) as Hnd.
  pose proof (aggregate_get selections) as Hget.
  assert (Hkeys : forall g, g ∈ Map_keys picks <-> g ∈ map gameId selections).
  { intros g. rewrite <- Map_get_keys. unfold picks. rewrite Hget.
    case_bool_decide; split; done. }
  fold picks in Hnd, Hget.
  split_and!.
  - done.
  - by rewrite Hgames.
  - intros g. rewrite Hgames. apply Hkeys.
  - intros h Hin. unfold holdsFor in Hin.
    apply list_elem_of_fmap in Hin as ([k q] & -> & Hp).
    cbn [quantity boardGameId fst snd].
    pose proof (Map_get_elem _ _ _ Hnd Hp) as Hq. rewrite Hget in Hq.
    case_bool_decide; [by injection Hq | done].
  - intros g.
    cbn [boardGames set_auditLogs set_bookingGames set_boardGames].
    rewrite (decrementStock_available _ _ new_id).
    unfold picks. by rewrite held_is_requested.
Qed.

Lemma create_holds_what_was_asked_witness :
  holdsOf Sample.B1
    (after (BookingsService.create Sample.cfg 0 Sample.B1 Sample.alice
              (Sample.request (Sample.at_ 18 0) (Sample.at_ 19 30) 4
                 Sample.oneCatan)) Sample.store)
  = holdsFor Sample.B1 (BookingsService.aggregate Sample.oneCatan).
Proof.
  refine (proj1 (create_holds_what_was_asked Sample.cfg 0 Sample.B1
                   Sample.alice
                   (Sample.request (Sample.at_ 18 0) (Sample.at_ 19 30) 4
                      Sample.oneCatan)
                   Sample.store Sample.B1 Sample.booking1
                   Sample_store_wf _)).
  reflexivity.
Defined.

(** X19.  Booking and cancelling is a round trip for the stock.  On a
    store that respects the keys of [booking_games], if a [create] is
    accepted and later a [cancel] of that booking is accepted, with no
    other request in between, every game row is again exactly what it was
    before the booking. *)
Theorem book_then_cancel_restores_stock
    cfg now new_id user dto st id b now' user' r :
  holdsWellFormed st ->
  answer (BookingsService.create cfg now new_id user dto) st = Ok (id, b) ->
  let st1 := after (BookingsService.create cfg now new_id user dto) st in
  answer (BookingsService.cancel cfg now' user' id) st1 = Ok r ->
  boardGames (after (BookingsService.cancel cfg now' user' id) st1)
  = boardGames st.
Proof.
  intros [Hpk Hfk] Hans st1 Hans'. subst st1. unfold answer, after in *.
  destruct (BookingsService.create cfg now new_id user dto (fresh st))
    as [r1 w1] eqn:Hrun. cbn [fst snd] in *. subst r1.
  apply create_effect in Hrun
    as (s & e & mid & _ & _ & -> & _ & _ & Hid & _ & _ & Hdb).
  cbn [db fresh] in *.
  set (picks := BookingsService.aggregate _) in *.
  destruct (BookingsService.cancel cfg now' user' new_id (fresh (db w1)))
    as [r2 w2] eqn:Hrun2. cbn [fst snd] in *. subst r2.
  apply cancel_effect in Hrun2. destruct r as [id' st'].
  destruct Hrun2 as (b0 & _ & _ & _ & _ & ->). cbn [db fresh].
  unfold cancelled.
  cbn [boardGames set_auditLogs set_boardGames set_bookings].
  assert (Hof : holdsOf new_id (db w1) = holdsFor new_id picks).
  { rewrite Hdb. unfold holdsOf.
    cbn [bookingGames set_auditLogs set_bookingGames].
    apply holdsOf_after_create; [|done]. intros h Hin. by apply Hfk. }
  rewrite Hof, Hdb.
  cbn [boardGames set_auditLogs set_bookingGames set_boardGames].
  apply map_eq. intros g.
  pose proof (incrementStock_available
                (foldl decrementStock (boardGames st) picks)
                (holdsFor new_id picks) g) as Hi.
  pose proof (decrementStock_available (boardGames st) picks new_id g) as Hd.
  pose proof (sameCatalogue_trans _ _ _
                (sameCatalogue_decrement (boardGames st) picks)
                (sameCatalogue_increment
                   (foldl decrementStock (boardGames st) picks)
                   (holdsFor new_id picks)) g) as Hcat.
  destruct (foldl incrementStock _ _ !! g) as [[t2 a2 f2]|],
    (foldl decrementStock _ _ !! g) as [[t1 a1 f1]|],
    (boardGames st !! g) as [[t0 a0 f0]|]; cbn in Hi, Hd, Hcat |- *;
    try done.
  destruct Hcat as [-> ->]. injection Hi as Hi. injection Hd as Hd.
  f_equal. f_equal. lia.
Qed.

Lemma book_then_cancel_restores_stock_witness :
  boardGames
    (after (BookingsService.cancel Sample.cfg (Sample.at_ 15 0) Sample.alice
              Sample.B1)
       (after (BookingsService.create Sample.cfg 0 Sample.B1 Sample.alice
                 (Sample.request (Sample.at_ 18 0) (Sample.at_ 19 30) 4
                    Sample.oneCatan)) Sample.store))
  = boardGames Sample.store.
Proof.
  refine (book_then_cancel_restores_stock Sample.cfg 0 Sample.B1 Sample.alice
            (Sample.request (Sample.at_ 18 0) (Sample.at_ 19 30) 4
               Sample.oneCatan)
            Sample.store Sample.B1 Sample.booking1 (Sample.at_ 15 0)
            Sample.alice (Sample.B1, CANCELLED) Sample_store_wf _ _).
  - reflexivity.
  - reflexivity.
Defined.

(** X20.  An accepted catalogue write touches one game row and nothing
    else.  [POST /games] adds a row under a key that was free, active
    unless the payload says otherwise, with [0 <= stockAvailable <=
    stockTotal]; [PATCH /games/:id] replaces the row of a game that
    exists by a row whose available copies do not exceed its total.  Every
    other game row, every booking and every hold row is left as it was; in
    particular an update never looks at the copies that bookings hold. *)
Theorem catalogue_write_touches_one_row :
  (forall new_id user dto st id,
     answer (GamesController.create new_id user dto) st = Ok id ->
     let st' := after (GamesController.create new_id user dto) st in
     id = new_id /\ boardGames st !! id = None
     /\ bookings st' = bookings st /\ bookingGames st' = bookingGames st
     /\ (forall g, g <> id -> boardGames st' !! g = boardGames st !! g)
     /\ exists row,
          boardGames st' !! id = Some row
          /\ 0 <= stockAvailable row <= stockTotal row
          /\ stockTotal row = cg_stockTotal dto
          /\ stockAvailable row = cg_stockAvailable dto
          /\ game_isActive row = default true (cg_isActive dto))
  /\ (forall user id dto st row,
        answer (GamesController.update user id dto) st = Ok row ->
        let st' := after (GamesController.update user id dto) st in
        is_Some (boardGames st !! id)
        /\ bookings st' = bookings st /\ bookingGames st' = bookingGames st
        /\ (forall g, g <> id -> boardGames st' !! g = boardGames st !! g)
        /\ boardGames st' !! id = Some row
        /\ stockAvailable row <= stockTotal row).
Proof.
  split.
  - intros new_id user dto st id Hans. unfold answer, after in *.
    destruct (GamesController.create new_id user dto (fresh st))
      as [r w'] eqn:Hrun. cbn [fst snd] in *. subst r.
    apply GamesController_create_effect in Hrun as (-> & Hb & Hfree & ->).
    cbn [db fresh] in *.
    cbn [bookings bookingGames boardGames set_auditLogs set_boardGames].
    split_and!; try done.
    + intros g Hg. by rewrite lookup_insert_ne.
    + eexists. rewrite lookup_insert_eq. split; [done|]. cbn. done.
  - intros user id dto st row Hans. unfold answer, after in *.
    destruct (GamesController.update user id dto (fresh st))
      as [r w'] eqn:Hrun. cbn [fst snd] in *. subst r.
    apply GamesController_update_effect in Hrun
      as (g & Hg & -> & Hle & _ & ->).
    cbn [db fresh] in *.
    cbn [bookings bookingGames boardGames set_auditLogs set_boardGames].
    split_and!; try done.
    + intros g' Hg'. by rewrite lookup_insert_ne.
    + by rewrite lookup_insert_eq.
Qed.

Lemma catalogue_write_touches_one_row_witness :
  bookings (step Sample.cfg Sample.restock Sample.booked)
  = bookings Sample.booked
  /\ bookingGames (step Sample.cfg Sample.restock Sample.booked)
     = bookingGames Sample.booked.
Proof.
  pose proof (proj2 catalogue_write_touches_one_row Sample.staff Sample.catan
                {| ug_stockTotal := None; ug_stockAvailable := Some 1;
                   ug_isActive := None |}
                Sample.booked
                {| stockTotal := 1; stockAvailable := 1;
                   game_isActive := true |}
                eq_refl) as (_ & Hb & Hh & _).
  split; [exact Hb | exact Hh].
Defined.
